(** * djangoFlex: capture supervisor and frame consumer loop

    A shallow embedding of
      - [videoCap_server/services/videoCap_service.py] (class VideoCapService)
      - [visionAI_server/services/objectDetect_service.py] (class ObjectDetectService)

    Python dictionaries are finite maps keyed by strings, instance attributes
    are fields of a state record, methods are computations in a state and
    exception monad.  What the outside world answers (clock reads, frame
    reads, whether a capture opens, random draws) is passed in explicitly.

    Time: [time.time()] and [timezone.now()] read one clock, in seconds, a
    rational; the constants 1, 5 and 30 are those of the source.  A
    datetime is a whole number of microseconds: [timezone.now()] is the
    clock cut down to the microsecond, and [timedelta(seconds=d)] is [d]
    rounded to the nearest microsecond.  Rounding of float arithmetic on
    the values of [time.time()] is not modelled. *)

From Stdlib Require Import ZArith QArith Qround Lqa Lia Ascii String List.
From stdpp Require Import base option gmap strings list fin_maps pretty.
Import ListNotations.

Local Open Scope string_scope.
Local Open Scope Z_scope.

(** ** Python results: a value or a raised exception, over a mutable state *)

Module Py.

Inductive exn : Type :=
| AttributeError   (* attribute access on None *)
| KeyError         (* d[k] with k absent *)
| ValueError       (* numpy draws on an empty range, time.sleep(<0) *)
| RuntimeError.    (* executor.submit after executor.shutdown *)

Inductive res (A : Type) : Type :=
| Ok (a : A)
| Raise (e : exn).
Arguments Ok {A} a.
Arguments Raise {A} e.

(** A method body: reads and writes the state, and returns or raises.
    Writes made before a raise stay made. *)
Definition M (S A : Type) : Type := S -> res A * S.

Definition ret {S A} (a : A) : M S A := fun s => (Ok a, s).

Definition raise {S A} (e : exn) : M S A := fun s => (Raise e, s).

Definition bind {S A B} (m : M S A) (k : A -> M S B) : M S B :=
  fun s => match m s with
           | (Ok a, s') => k a s'
           | (Raise e, s') => (Raise e, s')
           end.

Definition gets {S A} (f : S -> A) : M S A := fun s => (Ok (f s), s).

Definition modify {S} (f : S -> S) : M S unit := fun s => (Ok tt, f s).

(** [try: m except Exception: h] *)
Definition try_except {S A} (m : M S A) (h : exn -> M S A) : M S A :=
  fun s => match m s with
           | (Ok a, s') => (Ok a, s')
           | (Raise e, s') => h e s'
           end.

(** [d[k]] on a dictionary: KeyError when the key is absent. *)
Definition subscript {S V} (d : S -> gmap string V) (k : string) : M S V :=
  fun s => match d s !! k with
           | Some v => (Ok v, s)
           | None => (Raise KeyError, s)
           end.

Definition when {S} (b : bool) (m : M S unit) : M S unit :=
  if b then m else ret tt.

(** A computation preserves a projection of the state when no run of it
    changes that projection, whether it returns or raises. *)
Definition preserves {S A T} (proj : S -> T) (m : M S A) : Prop :=
  forall s, proj (snd (m s)) = proj s.

(** A relation between the state before and the state after holds along
    a computation, whether it returns or raises. *)
Definition along {S A} (R : S -> S -> Prop) (m : M S A) : Prop :=
  forall s, R s (snd (m s)).

(** A computation returns when no run of it raises. *)
Definition returns {S A} (m : M S A) : Prop :=
  forall s, exists a s', m s = (Ok a, s').

End Py.

Import Py.

Declare Scope py_scope.
Delimit Scope py_scope with py.
Notation "'let*' x ':=' m 'in' k" := (bind m (fun x => k))
  (at level 10, x pattern, m at level 100, k at level 200) : py_scope.
Notation "m '>>' k" := (bind m (fun _ => k))
  (at level 61, left associativity) : py_scope.
Local Open Scope py_scope.

(** Strict comparison on rationals, as a boolean. *)
Definition Qlt_bool (x y : Q) : bool := negb (Qle_bool y x).

(** ** Data shared by the two services *)

(** Modelled from the spec: the VideoCapConfig model (models.py is not among
    the sources).  The spec's StreamConfig has the stream identifier, the
    sampling interval and the active flag; [id] and [name] are the two other
    attributes the capture service assigns. *)
Record VideoCapConfig : Type := mkConfig {
  id : Z;
  name : string;
  rtmp_url : string;
  is_active : bool;
  frame_interval : Q
}.

(** A decoded frame, as far as the code looks at it: [frame.shape[:2]]. *)
Record Frame : Type := mkFrame {
  frame_height : Z;
  frame_width : Z
}.

(** A value of the shared frame store: bytes that decode to a frame
    (what [cv2.imencode('.jpg', frame)] produced), or other bytes.
    [Bytes []] is the empty byte string, falsy in Python. *)
Inductive FrameBlob : Type :=
| Jpeg (f : Frame)
| Bytes (bs : list Byte.byte).

Definition imencode (f : Frame) : FrameBlob := Jpeg f.

(** [cv2.imdecode] returns None on bytes it cannot decode. *)
Definition imdecode (b : FrameBlob) : option Frame :=
  match b with
  | Jpeg f => Some f
  | Bytes _ => None
  end.

(** Python truthiness of a bytes object. *)
Definition blob_truthy (b : FrameBlob) : bool :=
  match b with
  | Jpeg _ => true
  | Bytes [] => false
  | Bytes (_ :: _) => true
  end.

Definition image_key (rtmp_url : string) : string :=
  "video_cap_service:current_image:" +:+ rtmp_url.

(** [VideoCapConfig.objects.filter(is_active=True)] on a table of
    configurations: its active rows, in the order of the table. *)
Definition active_rows (table : gmap string VideoCapConfig) : list VideoCapConfig :=
  List.filter is_active (map_to_list table).*2.

(** The loop of [_load_configs], the same in the two services, on the two
    dictionaries it writes:
    [for config in rows: self.configs[config.rtmp_url] = config;
                         self.running[config.rtmp_url] = False]. *)
Definition load_rows (rows : list VideoCapConfig)
    (dicts : gmap string VideoCapConfig * gmap string bool)
    : gmap string VideoCapConfig * gmap string bool :=
  fold_left (fun d c => (<[rtmp_url c := c]> (fst d), <[rtmp_url c := false]> (snd d)))
            rows dicts.

(** A table of configurations in which each row is filed under its own
    [rtmp_url]. *)
Definition well_keyed (table : gmap string VideoCapConfig) : Prop :=
  forall k c, table !! k = Some c -> rtmp_url c = k.

(** ** VideoCapService *)

Module VideoCap.

(** [cap_source = 0 if rtmp_url == '0' else rtmp_url] *)
Inductive CapSource : Type :=
| Device (index : Z)
| Uri (url : string).

Definition cap_source (rtmp_url : string) : CapSource :=
  if String.eqb rtmp_url "0" then Device 0 else Uri rtmp_url.

(** A [cv2.VideoCapture] object held in [self.caps]. *)
Record Cap : Type := mkCap { isOpened : bool }.

(** [timezone.now()] when the clock shows [t] seconds: a datetime, in whole
    microseconds. *)
Definition datetime_at (t : Q) : Z := Qfloor (t * 1000000).

(** [timedelta(seconds=d)], in microseconds: [d] rounded to the nearest
    microsecond, a half to the even neighbour. *)
Definition timedelta_seconds (d : Q) : Z :=
  let x := (d * 1000000)%Q in
  let f := Qfloor x in
  match (x - inject_Z f ?= 1 # 2)%Q with
  | Lt => f
  | Gt => f + 1
  | Eq => if Z.even f then f else f + 1
  end.

(** A row of CurrentVideoClip; [clip_config] is the stream of the config.
    [start_time] and [end_time] are datetimes (microseconds), [duration] is
    a number of seconds. *)
Record CurrentVideoClip : Type := mkClip {
  clip_config : string;
  clip_path : string;
  start_time : Z;
  end_time : Z;
  duration : Q
}.

(** What the service does to the world outside its dictionaries. *)
Inductive Effect : Type :=
| CapOpen (source : CapSource) (opened : bool)
| CapRelease (rtmp_url : string)
| Sleep (seconds : Q)
| ThreadStart (rtmp_url : string) (ident : nat)
| ThreadJoin (rtmp_url : string)
| FfmpegStart (rtmp_url : string)
| FfmpegTerminate (rtmp_url : string)
| RedisSet (key : string)
| RedisDelete (key : string).

(** The attributes of a VideoCapService, the redis database and the two
    tables.  [self.caps[u]] may hold None: [Some None].  The table of
    configurations is keyed by [rtmp_url], the field every query of the
    source filters on. *)
Record State : Type := mkState {
  configs : gmap string VideoCapConfig;
  caps : gmap string (option Cap);
  running : gmap string bool;
  capture_threads : gmap string nat;
  redis : gmap string FrameBlob;
  db_configs : gmap string VideoCapConfig;
  db_clips : list CurrentVideoClip;
  threads_started : nat;
  log : list Effect
}.

Definition set_configs (f : gmap string VideoCapConfig -> gmap string VideoCapConfig) (s : State) : State :=
  mkState (f (configs s)) (caps s) (running s) (capture_threads s) (redis s)
          (db_configs s) (db_clips s) (threads_started s) (log s).
Definition set_caps (f : gmap string (option Cap) -> gmap string (option Cap)) (s : State) : State :=
  mkState (configs s) (f (caps s)) (running s) (capture_threads s) (redis s)
          (db_configs s) (db_clips s) (threads_started s) (log s).
Definition set_running (f : gmap string bool -> gmap string bool) (s : State) : State :=
  mkState (configs s) (caps s) (f (running s)) (capture_threads s) (redis s)
          (db_configs s) (db_clips s) (threads_started s) (log s).
Definition set_capture_threads (f : gmap string nat -> gmap string nat) (s : State) : State :=
  mkState (configs s) (caps s) (running s) (f (capture_threads s)) (redis s)
          (db_configs s) (db_clips s) (threads_started s) (log s).
Definition set_redis (f : gmap string FrameBlob -> gmap string FrameBlob) (s : State) : State :=
  mkState (configs s) (caps s) (running s) (capture_threads s) (f (redis s))
          (db_configs s) (db_clips s) (threads_started s) (log s).
Definition set_db_configs (f : gmap string VideoCapConfig -> gmap string VideoCapConfig) (s : State) : State :=
  mkState (configs s) (caps s) (running s) (capture_threads s) (redis s)
          (f (db_configs s)) (db_clips s) (threads_started s) (log s).
Definition set_db_clips (f : list CurrentVideoClip -> list CurrentVideoClip) (s : State) : State :=
  mkState (configs s) (caps s) (running s) (capture_threads s) (redis s)
          (db_configs s) (f (db_clips s)) (threads_started s) (log s).
Definition set_threads_started (f : nat -> nat) (s : State) : State :=
  mkState (configs s) (caps s) (running s) (capture_threads s) (redis s)
          (db_configs s) (db_clips s) (f (threads_started s)) (log s).

Definition emit (e : Effect) : M State unit :=
  modify (fun s => mkState (configs s) (caps s) (running s) (capture_threads s) (redis s)
                           (db_configs s) (db_clips s) (threads_started s) (log s ++ [e])%list).

(** Attributes set in [__init__]. *)
Definition max_reconnect_attempts : Z := 5.
Definition reconnect_timeout : Q := 5.
Definition video_clip_duration : Q := 30.

Definition with_active (b : bool) (c : VideoCapConfig) : VideoCapConfig :=
  mkConfig (id c) (name c) (rtmp_url c) b (frame_interval c).

Definition with_name (n : string) (c : VideoCapConfig) : VideoCapConfig :=
  mkConfig (id c) n (rtmp_url c) (is_active c) (frame_interval c).

(** [config.save()] for the config object held in [self.configs[u]]: the
    object and its row carry the same values afterwards. *)
Definition save_config (u : string) (c : VideoCapConfig) : M State unit :=
  modify (set_configs (<[u := c]>)) >>
  modify (set_db_configs (<[rtmp_url c := c]>)).

(** [self.caps[u] is not None], for [u in self.caps]. *)
Definition holds_handle (u : string) (s : State) : bool :=
  match caps s !! u with
  | Some (Some _) => true
  | _ => false
  end.

(** [u in self.caps and self.caps[u] is not None and self.caps[u].isOpened()] *)
Definition handle_ready (u : string) (s : State) : bool :=
  match caps s !! u with
  | Some (Some c) => isOpened c
  | _ => false
  end.

(** [if u in self.caps and self.caps[u] is not None: self.caps[u].release()] *)
Definition release_if_held (u : string) : M State unit :=
  let* held := gets (holds_handle u) in
  when held (emit (CapRelease u)).

Definition check_server_status (u : string) (s : State) : bool :=
  default false (running s !! u).

(** [_initialize_capture]; [opens] is whether the new capture is opened.
    A capture that is not opened raises inside the [try], and the handler
    stores None. *)
Definition _initialize_capture (u : string) (opens : bool) : M State unit :=
  release_if_held u >>
  emit (CapOpen (cap_source u) opens) >>
  modify (set_caps (<[u := if opens then Some (mkCap true) else None]>)).

Definition _reconnect (u : string) (opens : bool) : M State bool :=
  release_if_held u >>
  modify (set_caps (<[u := None]>)) >>
  emit (Sleep 1) >>
  _initialize_capture u opens >>
  gets (handle_ready u).

Definition _set_inactive (u : string) : M State unit :=
  let* config := subscript configs u in
  save_config u (with_active false config) >>
  modify (set_running (<[u := false]>)) >>
  release_if_held u >>
  modify (set_caps (<[u := None]>)) >>
  modify (set_capture_threads (delete u)) >>
  emit (RedisDelete (image_key u)) >>
  modify (set_redis (delete (image_key u))).

(** [update_frame], without the asyncio dispatch. *)
Definition update_frame (u : string) (frame : option Frame) : M State unit :=
  match frame with
  | None => ret tt
  | Some f =>
      emit (RedisSet (image_key u)) >>
      modify (set_redis (<[image_key u := imencode f]>))
  end.

(** [_save_video_clip_metadata]; [now1] and [now2] are the clock at the two
    calls of [timezone.now()], in the order the arguments of [create] are
    evaluated.  The stored start is the first datetime less the duration
    as a timedelta; the stored end is the second datetime. *)
Definition _save_video_clip_metadata (u hls_output : string)
    (start_time end_time now1 now2 : Q) : M State unit :=
  let* config := subscript configs u in
  let duration := (end_time - start_time)%Q in
  modify (set_db_clips (fun l =>
    (l ++ [mkClip (rtmp_url config) hls_output
                  (datetime_at now1 - timedelta_seconds duration) (datetime_at now2)
                  duration])%list)).

(** *** start, stop *)

(** [VideoCapConfig.objects.get_or_create(rtmp_url=u)]: the row of [u], or a
    new row with the model's column defaults [defaults] and the next id. *)
Definition get_or_create (defaults : VideoCapConfig) (u : string)
    : M State (VideoCapConfig * bool) :=
  let* tbl := gets db_configs in
  match tbl !! u with
  | Some c => ret (c, false)
  | None =>
      let c := mkConfig (Z.of_nat (size tbl) + 1) (name defaults) u
                        (is_active defaults) (frame_interval defaults) in
      modify (set_db_configs (<[u := c]>)) >> ret (c, true)
  end.

(** Line 59: [rtmp_url in self.running and self.running[rtmp_url]]. *)
Definition start_check (u : string) : M State bool :=
  gets (fun s => default false (running s !! u)).

(** Lines 62-70. *)
Definition start_register (defaults : VideoCapConfig) (u : string) : M State unit :=
  let* (config, created) := get_or_create defaults u in
  let config := if created : bool
                then with_name ("Config_" +:+ pretty (id config)) config
                else config in
  when created (modify (set_db_configs (<[rtmp_url config := config]>))) >>
  modify (set_configs (<[u := config]>)) >>
  modify (set_running (<[u := true]>)) >>
  save_config u (with_active true config).

(** Lines 72-74: the capture is initialised and the thread started. *)
Definition start_launch (u : string) (opens : bool) : M State unit :=
  _initialize_capture u opens >>
  let* n := gets threads_started in
  modify (set_capture_threads (<[u := n]>)) >>
  modify (set_threads_started S) >>
  emit (ThreadStart u n).

Definition start_server (defaults : VideoCapConfig) (u : string) (opens : bool)
    : M State (bool * string) :=
  let* busy := start_check u in
  if busy then ret (false, "Server already running")
  else
    start_register defaults u >>
    start_launch u opens >>
    ret (true, "Server started successfully").

(** [stop_server], as it runs when the capture thread has nothing left to
    do at the join: it has left [_capture_loop] already.  The join then
    returns at once; [stop_server_joining] below is the call with the steps
    that the thread may still take before the join returns.
    [self.caps[u].release()] is an attribute access on whatever
    [self.caps[u]] holds. *)
Definition stop_server (u : string) : M State (bool * string) :=
  let* busy := gets (fun s => default false (running s !! u)) in
  if negb busy then ret (false, "Server not running")
  else
    modify (set_running (<[u := false]>)) >>
    (let* threads := gets capture_threads in
     when (bool_decide (is_Some (threads !! u)))
          (emit (ThreadJoin u) >> modify (set_capture_threads (delete u)))) >>
    (let* handles := gets caps in
     match handles !! u with
     | None => ret tt
     | Some None => raise AttributeError
     | Some (Some _) => emit (CapRelease u) >> modify (set_caps (delete u))
     end) >>
    (let* config := subscript configs u in
     save_config u (with_active false config)) >>
    emit (RedisDelete (image_key u)) >>
    modify (set_redis (delete (image_key u))) >>
    ret (true, "Server stopped successfully").

(** [self.capture_threads[u].join()]: the call returns when the capture
    thread has left [_capture_loop].  [remainder] is what that thread still
    does from the moment the flag is cleared (line 83): the rest of the
    pass it is in, and its [finally].  An exception in it is caught by
    the handler of [_capture_loop] and does not reach the caller of the
    join. *)
Definition join (u : string) (remainder : M State unit) : M State unit :=
  try_except remainder (fun _ => ret tt) >> emit (ThreadJoin u).

(** Lines 88-90. *)
Definition stop_release (u : string) : M State unit :=
  let* handles := gets caps in
  match handles !! u with
  | None => ret tt
  | Some None => raise AttributeError
  | Some (Some _) => emit (CapRelease u) >> modify (set_caps (delete u))
  end.

(** Lines 92-99. *)
Definition stop_finish (u : string) : M State (bool * string) :=
  (let* config := subscript configs u in
   save_config u (with_active false config)) >>
  emit (RedisDelete (image_key u)) >>
  modify (set_redis (delete (image_key u))) >>
  ret (true, "Server stopped successfully").

(** [stop_server] with the steps of the capture thread that fall between
    line 83 and the return of the join.  The test of line 84 is made before
    the join and [del self.capture_threads[u]] after it: a KeyError when
    the thread has removed its entry meanwhile. *)
Definition stop_server_joining (remainder : M State unit) (u : string)
    : M State (bool * string) :=
  let* busy := gets (fun s => default false (running s !! u)) in
  if negb busy then ret (false, "Server not running")
  else
    modify (set_running (<[u := false]>)) >>
    (let* threads := gets capture_threads in
     when (bool_decide (is_Some (threads !! u)))
          (join u remainder >>
           (let* _ := subscript capture_threads u in
            modify (set_capture_threads (delete u))))) >>
    stop_release u >>
    stop_finish u.

(** The state in which the join of a stop call returns, or in which the
    call goes on without a join when the stream has no thread entry. *)
Definition after_join (remainder : M State unit) (u : string) (s : State) : State :=
  let s0 := set_running (<[u := false]>) s in
  if bool_decide (is_Some (capture_threads s !! u))
  then snd (join u remainder s0)
  else s0.

(** *** Two start calls on two threads

    The interpreter may switch threads between any two statements; it does
    so in particular while [get_or_create] waits for the database.  A call
    is cut at two such points: after the test of line 59 and after the
    registration of lines 62-70. *)

Inductive StartPc : Type :=
| AtCheck
| AtRegister
| AtLaunch
| Returned (r : bool * string).

Definition start_step (defaults : VideoCapConfig) (u : string) (opens : bool)
    (pc : StartPc) : M State StartPc :=
  match pc with
  | AtCheck =>
      let* busy := start_check u in
      ret (if busy then Returned (false, "Server already running") else AtRegister)
  | AtRegister => start_register defaults u >> ret AtLaunch
  | AtLaunch => start_launch u opens >> ret (Returned (true, "Server started successfully"))
  | Returned r => ret (Returned r)
  end.

Inductive Caller : Type := CallerA | CallerB.

(** The scheduler lets one of the two callers take its next step. *)
Definition schedule_step (defaults : VideoCapConfig) (u : string) (opens_a opens_b : bool)
    (who : Caller) (pcs : StartPc * StartPc) : M State (StartPc * StartPc) :=
  match who with
  | CallerA => let* pc := start_step defaults u opens_a (fst pcs) in ret (pc, snd pcs)
  | CallerB => let* pc := start_step defaults u opens_b (snd pcs) in ret (fst pcs, pc)
  end.

Fixpoint run_schedule (defaults : VideoCapConfig) (u : string) (opens_a opens_b : bool)
    (schedule : list Caller) (pcs : StartPc * StartPc) : M State (StartPc * StartPc) :=
  match schedule with
  | [] => ret pcs
  | who :: rest =>
      let* pcs' := schedule_step defaults u opens_a opens_b who pcs in
      run_schedule defaults u opens_a opens_b rest pcs'
  end.

(** Of two start calls, one returned success and the other reported that
    the server is already running. *)
Definition exactly_one_success (ra rb : bool * string) : Prop :=
  (ra = (true, "Server started successfully") /\ rb = (false, "Server already running")) \/
  (rb = (true, "Server started successfully") /\ ra = (false, "Server already running")).

(** Capture threads started for [u], as the log records them. *)
Definition threads_started_for (u : string) (s : State) : nat :=
  length (List.filter (fun e => match e with
                           | ThreadStart v _ => String.eqb u v
                           | _ => false
                           end) (log s)).

(** *** The capture loop *)

(** [rtmp_url.split('/')[-1]] *)
Fixpoint last_component_from (acc s : string) : string :=
  match s with
  | EmptyString => acc
  | String c s' =>
      if Ascii.eqb c "/"%char then last_component_from "" s'
      else last_component_from (acc +:+ String c "") s'
  end.

Definition last_component (s : string) : string := last_component_from "" s.

Definition hls_output (u : string) : string :=
  "tmp/video_clip/" +:+ last_component u +:+ "_hls/index.m3u8".

(** The local variables of [_capture_loop]. *)
Record LoopState : Type := mkLoop {
  reconnect_start_time : option Q;
  reconnect_attempts : Z;
  last_frame_time : Q;
  video_clip_start_time : Q
}.

(** What the world answers during one iteration of the loop:
    - [read_ret], [read_frame]: the pair returned by [read()];
    - [t_read]: the first [time.time()] of the iteration (line 164, or
      line 183 when there is no handle to read from);
    - [reopen_ok]: whether the capture opened by [_reconnect] is opened;
    - [t_check]: [time.time()] of line 188;
    - [now_start], [now_end]: the clock at the two [timezone.now()] of a
      clip commit. *)
Record Obs : Type := mkObs {
  read_ret : bool;
  read_frame : option Frame;
  t_read : Q;
  reopen_ok : bool;
  t_check : Q;
  now_start : Q;
  now_end : Q
}.

(** Lines 177-179 and 182-184. *)
Definition note_reconnect (now : Q) (ls : LoopState) : LoopState :=
  match reconnect_start_time ls with
  | None => mkLoop (Some now) (reconnect_attempts ls + 1)
                   (last_frame_time ls) (video_clip_start_time ls)
  | Some _ => ls
  end.

(** Lines 162-185. *)
Definition loop_body (u hls : string) (o : Obs) (ls : LoopState) : M State LoopState :=
  let* ready := gets (handle_ready u) in
  if ready then
    let current_time := t_read o in
    if read_ret o then
      let ls1 := mkLoop None 0 current_time (video_clip_start_time ls) in
      if Qle_bool video_clip_duration (current_time - video_clip_start_time ls) then
        _save_video_clip_metadata u hls (video_clip_start_time ls) current_time
                                  (now_start o) (now_end o) >>
        ret (mkLoop None 0 current_time current_time)
      else ret ls1
    else if Qlt_bool 1 (current_time - last_frame_time ls) then
      let ls1 := note_reconnect current_time ls in
      _reconnect u (reopen_ok o) >> ret ls1
    else ret ls
  else
    let ls1 := note_reconnect (t_read o) ls in
    _reconnect u (reopen_ok o) >> ret ls1.

(** Lines 187-191; the result says whether the loop breaks. *)
Definition escalate (u : string) (o : Obs) (ls : LoopState) : M State bool :=
  match reconnect_start_time ls with
  | None => ret false
  | Some started =>
      let elapsed_time := (t_check o - started)%Q in
      if Qlt_bool reconnect_timeout elapsed_time
         || (max_reconnect_attempts <? reconnect_attempts ls)
      then _set_inactive u >> ret true
      else ret false
  end.

(** How an observed run of the loop ends: it was left, or the
    observations end with the loop still going round. *)
Inductive LoopEnd : Type :=
| Exited
| StillRunning (ls : LoopState).

(** One iteration of the loop, lines 162-191: the locals it leaves and
    whether it breaks. *)
Definition capture_pass (u hls : string) (o : Obs) (ls : LoopState)
    : M State (LoopState * bool) :=
  let* ls1 := loop_body u hls o ls in
  let* stop := escalate u o ls1 in
  ret (ls1, stop).

(** [while self.running[rtmp_url]: ...] over the observations [obs]. *)
Fixpoint capture_while (u hls : string) (obs : list Obs) (ls : LoopState)
    : M State LoopEnd :=
  let* flag := subscript running u in
  if flag : bool then
    match obs with
    | [] => ret (StillRunning ls)
    | o :: obs' =>
        let* (ls1, stop) := capture_pass u hls o ls in
        if stop : bool then ret Exited else capture_while u hls obs' ls1
    end
  else ret Exited.

(** The [try] of [_capture_loop] once ffmpeg is started: the loop, the
    handler that logs, and the [finally] that terminates ffmpeg. *)
Definition capture_try (u hls : string) (obs : list Obs) (ls : LoopState)
    : M State LoopEnd :=
  let* e := try_except (capture_while u hls obs ls) (fun _ => ret Exited) in
  match e with
  | Exited => emit (FfmpegTerminate u) >> ret Exited
  | StillRunning ls' => ret (StillRunning ls')
  end.

(** What a capture thread still does when its flag is cleared while it is
    in a pass of the loop: the pass, with the handler of the loop around
    it, then the [finally]. *)
Definition finish_pass (u : string) (o : Obs) (ls : LoopState) : M State unit :=
  try_except (capture_pass u (hls_output u) o ls >> ret tt) (fun _ => ret tt) >>
  emit (FfmpegTerminate u).

(** [_capture_loop]: [t0], [t1] are the two clock reads of lines 124-125,
    [popen_ok] whether ffmpeg could be started. *)
Definition _capture_loop (u : string) (popen_ok : bool) (t0 t1 : Q) (obs : list Obs)
    : M State LoopEnd :=
  let* config := subscript configs u in
  let ls := mkLoop None 0 t0 t1 in
  if popen_ok then
    emit (FfmpegStart u) >> capture_try u (hls_output u) obs ls
  else ret Exited.

(** *** Predicates on the locals and on the table of clips *)

(** The attempt counter is 1 while a reconnect is under way and 0 otherwise. *)
Definition counted_once (ls : LoopState) : Prop :=
  match reconnect_start_time ls with
  | None => reconnect_attempts ls = 0
  | Some _ => reconnect_attempts ls = 1
  end.

(** The last frame was read less than the nominal clip duration after the
    start of the current window: no window is left open past a read that
    is due to close it. *)
Definition window_young (ls : LoopState) : Prop :=
  (last_frame_time ls - video_clip_start_time ls < video_clip_duration)%Q.

(** The clock did not move between the read and the two clock reads of the
    commit made in the same iteration. *)
Definition instant_commit (o : Obs) : Prop :=
  now_start o = t_read o /\ now_end o = t_read o.

(** The clock time [t] is a whole number of microseconds. *)
Definition whole_microseconds (t : Q) : Prop :=
  (inject_Z (datetime_at t) == t * 1000000)%Q.

(** Records that follow one another from the datetime [t] to within [slack]
    microseconds: the first starts within [slack] of [t], and each next one
    starts within [slack] of the end of the one before.  With [slack] 0
    each record starts exactly when the one before ends. *)
Fixpoint chain_within (slack : Z) (t : Z) (clips : list CurrentVideoClip) : Prop :=
  match clips with
  | [] => True
  | c :: rest => Z.abs (start_time c - t) <= slack /\ chain_within slack (end_time c) rest
  end.

(** The test of lines 162-172 for a commit: there is a capture to read
    from, the read returns a frame, and the frame comes the nominal
    duration or more after the start of the window. *)
Definition commit_due (u : string) (o : Obs) (ls : LoopState) (s : State) : bool :=
  handle_ready u s && read_ret o
  && Qle_bool video_clip_duration (t_read o - video_clip_start_time ls).

(** The record of the window that began at [t0] and that the read of [o]
    closes. *)
Definition window_record (stream hls : string) (t0 : Q) (o : Obs) : CurrentVideoClip :=
  mkClip stream hls
         (datetime_at (now_start o) - timedelta_seconds (t_read o - t0))
         (datetime_at (now_end o))
         (t_read o - t0).

(** The records of the windows that the reads [commits] close one after the
    other, the first window beginning at [t0]: each window begins at the
    read that closed the one before. *)
Fixpoint records_from (stream hls : string) (t0 : Q) (commits : list Obs)
    : list CurrentVideoClip :=
  match commits with
  | [] => []
  | o :: rest => window_record stream hls t0 o :: records_from stream hls (t_read o) rest
  end.

(** Each of the reads [commits] comes the nominal duration or more after
    the one before, the first after [t0]. *)
Fixpoint windows_due (t0 : Q) (commits : list Obs) : Prop :=
  match commits with
  | [] => True
  | o :: rest => (video_clip_duration <= t_read o - t0)%Q /\ windows_due (t_read o) rest
  end.

(** The time of the last of the reads [commits], or [t0] when there is
    none. *)
Definition last_read (t0 : Q) (commits : list Obs) : Q :=
  fold_left (fun _ o => t_read o) commits t0.

Definition total_duration (clips : list CurrentVideoClip) : Q :=
  fold_right (fun c acc => (duration c + acc)%Q) 0%Q clips.

(** A text without [/]. *)
Fixpoint slash_free (s : string) : bool :=
  match s with
  | EmptyString => true
  | String c s' => negb (Ascii.eqb c "/"%char) && slash_free s'
  end.

(** *** Construction, reset *)

(** [_load_configs]: every active row of the table is put in
    [self.configs], with its run flag cleared. *)
Definition _load_configs : M State unit :=
  let* rows := gets (fun s => active_rows (db_configs s)) in
  modify (fun s =>
    let dicts := load_rows rows (configs s, running s) in
    set_running (fun _ => snd dicts) (set_configs (fun _ => fst dicts) s)).

(** [__init__] over the store and the tables as they are: empty
    dictionaries, then [_load_configs]. *)
Definition init (world : State) : State :=
  snd (_load_configs (mkState ∅ ∅ ∅ ∅ (redis world) (db_configs world) (db_clips world)
                              (threads_started world) (log world))).

(** The pattern of [redis_client.keys] in [reset_video_cap_system] has one
    wildcard, at its end: it selects the keys that start with this text. *)
Definition image_prefix : string := "video_cap_service:current_image:".

(** [for key in keys: redis_client.delete(key)] *)
Fixpoint delete_keys (keys : list string) : M State unit :=
  match keys with
  | [] => ret tt
  | key :: rest =>
      emit (RedisDelete key) >> modify (set_redis (delete key)) >> delete_keys rest
  end.

(** [reset_video_cap_system], a static method: it works on the tables and
    on a redis client of its own, not on the dictionaries of a service. *)
Definition reset_video_cap_system : M State unit :=
  modify (set_db_clips (fun _ => [])) >>
  modify (set_db_configs (fmap (with_active false))) >>
  let* keys := gets (fun s => List.filter (String.prefix image_prefix)
                                          (map_to_list (redis s)).*1) in
  delete_keys keys.

(** [for rtmp_url in keys: body(rtmp_url)] *)
Fixpoint for_each (keys : list string) (body : string -> M State unit) : M State unit :=
  match keys with
  | [] => ret tt
  | u :: rest => body u >> for_each rest body
  end.

(** What the service keeps about stream [v], and the blob of [v]. *)
Definition stream_view (v : string) (s : State)
    : option VideoCapConfig * option (option Cap) * option bool * option nat
      * option FrameBlob :=
  (configs s !! v, caps s !! v, running s !! v, capture_threads s !! v,
   redis s !! image_key v).

(** A computation that leaves every stream as it is: the dictionaries of
    the service and the blobs of the streams are not written. *)
Definition leaves_streams (m : M State unit) : Prop :=
  forall v, preserves (stream_view v) m.

(** Lines 259-260, one turn of the first loop of [__del__]: the flag is read
    by subscript, and the stream is stopped when it is set.  [remainders]
    gives, for each stream, what its capture thread still does before the
    join of that stop call returns. *)
Definition stop_if_running (remainders : string -> M State unit) (u : string)
    : M State unit :=
  let* flag := subscript running u in
  if flag : bool then stop_server_joining (remainders u) u >> ret tt else ret tt.

(** Line 263, one turn of the second loop. *)
Definition delete_blob (u : string) : M State unit :=
  emit (RedisDelete (image_key u)) >> modify (set_redis (delete (image_key u))).

(** [__del__]: every stream that is running is stopped, then the blob of
    every stream that has a configuration is deleted.  The first loop walks
    a copy of the keys, taken before any stream is stopped. *)
Definition __del__ (remainders : string -> M State unit) : M State unit :=
  let* keys := gets (fun s => (map_to_list (running s)).*1) in
  for_each keys (stop_if_running remainders) >>
  let* urls := gets (fun s => (map_to_list (configs s)).*1) in
  for_each urls delete_blob.

(** The streams that are running have what [stop_server] reaches for: a
    capture that is held, and a configuration. *)
Definition ready_to_stop (s : State) : Prop :=
  forall u, running s !! u = Some true ->
            (exists c, caps s !! u = Some (Some c)) /\ is_Some (configs s !! u).

(** What the first loop of [__del__] has done between [s] and [s'] once it
    has walked [keys]. *)
Record stop_step (keys : list string) (s s' : State) : Prop := {
  step_ready : ready_to_stop s';
  step_domain : forall w, is_Some (running s' !! w) <-> is_Some (running s !! w);
  step_flags : forall w, default false (running s' !! w)
                         = if in_dec String.string_dec w keys then false
                           else default false (running s !! w);
  step_kept : forall w, ~ In w keys -> running s' !! w = running s !! w;
  step_configs : forall w, is_Some (configs s' !! w) <-> is_Some (configs s !! w);
  step_closed : forall w, running s !! w = Some true -> In w keys -> caps s' !! w = None;
  step_absent : forall w, caps s !! w = None -> caps s' !! w = None;
}.

(** *** Accounting of the capture handles *)

Definition same_source (a b : CapSource) : bool :=
  match a, b with
  | Device i, Device j => i =? j
  | Uri x, Uri y => String.eqb x y
  | _, _ => false
  end.

(** What an entry of the log does to the number of captures of stream [u]
    that were opened and not released. *)
Definition handle_delta (u : string) (e : Effect) : Z :=
  match e with
  | CapOpen source true => if same_source source (cap_source u) then 1 else 0
  | CapRelease v => if String.eqb v u then -1 else 0
  | _ => 0
  end.

Definition live_handles (u : string) (l : list Effect) : Z :=
  fold_right (fun e acc => handle_delta u e + acc) 0 l.

(** Between two states, for every stream, the captures opened and not
    released changed by as much as the handles the service holds. *)
Definition handles_follow (s s' : State) : Prop :=
  forall u,
    live_handles u (log s') - live_handles u (log s)
    = (if holds_handle u s' then 1 else 0) - (if holds_handle u s then 1 else 0).

(** Every capture opened and not released is one the service holds, and
    the other way round. *)
Definition handles_accounted (s : State) : Prop :=
  forall u, live_handles u (log s) = if holds_handle u s then 1 else 0.

(** The store after is the store before, or the store before without the
    blob of [u]. *)
Definition store_kept_or_blob_deleted (u : string) (s s' : State) : Prop :=
  redis s' = redis s \/ redis s' = delete (image_key u) (redis s).

End VideoCap.

(** ** ObjectDetectService *)

Module ObjectDetect.

(** Modelled from the spec: the models EntityType, KeyFrame and
    DetectedObject (models.py is not among the sources), with the fields the
    service assigns.  The spec's detection record is
    [{bounding_box, entity_type, confidence, segmentation, re-identification tag}],
    tied to a keyed frame record. *)
Record EntityType : Type := mkEntityType {
  code : string;
  type_name : string
}.

Record KeyFrame : Type := mkKeyFrame {
  key_frame_id : nat;
  frame_time : Q;
  frame_index : Z
}.

Record BoundingBox : Type := mkBox {
  box_x : Z;
  box_y : Z;
  box_width : Z;
  box_height : Z
}.

Record DetectedObject : Type := mkDetectedObject {
  frame : KeyFrame;
  entity_type : EntityType;
  specific_type : string;
  confidence_score : Q;
  bounding_box : BoundingBox;
  segmentation : list Z;
  re_id : Z
}.

(** The dictionary [_detect_objects] returns for one object. *)
Record Detection : Type := mkDetection {
  x : Z;
  y : Z;
  width : Z;
  height : Z;
  detected_type : string
}.

Inductive Effect : Type :=
| RedisGet (key : string)
| Sleep (seconds : Q)
| Submit (rtmp_url : string).

(** The attributes of an ObjectDetectService, the redis database and the
    tables.  [executor_shutdown] is the state of [self.executor]: set once
    [shutdown] was called on it, after which it takes no work. *)
Record State : Type := mkState {
  configs : gmap string VideoCapConfig;
  running : gmap string bool;
  detect_threads : gmap string nat;
  entity_types : gmap string EntityType;
  redis : gmap string FrameBlob;
  db_key_frames : list KeyFrame;
  db_detected_objects : list DetectedObject;
  db_entity_types : list EntityType;
  log : list Effect;
  executor_shutdown : bool
}.

Definition set_running (f : gmap string bool -> gmap string bool) (s : State) : State :=
  mkState (configs s) (f (running s)) (detect_threads s) (entity_types s) (redis s)
          (db_key_frames s) (db_detected_objects s) (db_entity_types s) (log s)
          (executor_shutdown s).
Definition set_detect_threads (f : gmap string nat -> gmap string nat) (s : State) : State :=
  mkState (configs s) (running s) (f (detect_threads s)) (entity_types s) (redis s)
          (db_key_frames s) (db_detected_objects s) (db_entity_types s) (log s)
          (executor_shutdown s).
Definition set_db_key_frames (f : list KeyFrame -> list KeyFrame) (s : State) : State :=
  mkState (configs s) (running s) (detect_threads s) (entity_types s) (redis s)
          (f (db_key_frames s)) (db_detected_objects s) (db_entity_types s) (log s)
          (executor_shutdown s).
Definition set_db_entity_types (f : list EntityType -> list EntityType) (s : State) : State :=
  mkState (configs s) (running s) (detect_threads s) (entity_types s) (redis s)
          (db_key_frames s) (db_detected_objects s) (f (db_entity_types s)) (log s)
          (executor_shutdown s).
Definition set_log (f : list Effect -> list Effect) (s : State) : State :=
  mkState (configs s) (running s) (detect_threads s) (entity_types s) (redis s)
          (db_key_frames s) (db_detected_objects s) (db_entity_types s) (f (log s))
          (executor_shutdown s).
Definition set_executor_shutdown (b : bool) (s : State) : State :=
  mkState (configs s) (running s) (detect_threads s) (entity_types s) (redis s)
          (db_key_frames s) (db_detected_objects s) (db_entity_types s) (log s) b.

Definition emit (e : Effect) : M State unit :=
  modify (set_log (fun l => (l ++ [e])%list)).

(** *** The placeholder detector *)

(** The numbers the random source hands out during one call of
    [_detect_objects].  Each draw is reduced into the range asked for, so
    every value of the range is the outcome of some draw. *)
Record Draws : Type := mkDraws {
  pick_entity : nat;
  draw_x : Z;
  draw_y : Z;
  draw_width : Z;
  draw_height : Z
}.

(** [np.random.randint(low, high)]: an integer of [low, high); ValueError
    when the range is empty. *)
Definition randint {S} (low high : Z) (draw : Z) : M S Z :=
  if low <? high then ret (low + draw mod (high - low))
  else raise ValueError.

(** [np.random.choice(l)]: ValueError on an empty list. *)
Definition choice {S} (l : list string) (pick : nat) : M S string :=
  match l with
  | [] => raise ValueError
  | k :: _ => ret (nth (pick mod length l)%nat l k)
  end.

(** [frame.shape] raises AttributeError on None (an image that did not
    decode). *)
Definition shape {S} (frame : option Frame) : M S (Z * Z) :=
  match frame with
  | None => raise AttributeError
  | Some f => ret (frame_height f, frame_width f)
  end.

Definition _detect_objects (frame : option Frame) (d : Draws) : M State (list Detection) :=
  let* types := gets entity_types in
  let* entity_type := choice (map_to_list types).*1 (pick_entity d) in
  let* (frame_height, frame_width) := shape frame in
  let* x := randint 0 (frame_width - 50) (draw_x d) in
  let* y := randint 0 (frame_height - 50) (draw_y d) in
  let* width := randint 50 (Z.min 100 (frame_width - x)) (draw_width d) in
  let* height := randint 50 (Z.min 100 (frame_height - y)) (draw_height d) in
  ret [mkDetection x y width height entity_type].

(** *** The consumer loop *)

(** [EntityType.objects.get_or_create(type_name=n)]; a new row has only its
    [type_name] given. *)
Definition entity_get_or_create (n : string) : M State (EntityType * bool) :=
  let* rows := gets db_entity_types in
  match List.find (fun e => String.eqb (type_name e) n) rows with
  | Some e => ret (e, false)
  | None =>
      let e := mkEntityType "" n in
      modify (set_db_entity_types (fun l => (l ++ [e])%list)) >> ret (e, true)
  end.

(** The object built at lines 123-136. *)
Definition make_detected_object (key_frame : KeyFrame) (entity_type : EntityType)
    (obj : Detection) : DetectedObject :=
  mkDetectedObject key_frame entity_type (detected_type obj) 1
                   (mkBox (x obj) (y obj) (width obj) (height obj)) [] (-1).

(** The [for obj in detected_objects] of [_process_frame]: each object is
    built and bound to the local [detected_object]; nothing else is done
    with it. *)
Fixpoint for_detected (key_frame : KeyFrame) (objs : list Detection) : M State unit :=
  match objs with
  | [] => ret tt
  | obj :: rest =>
      let* (entity_type, _) := entity_get_or_create (detected_type obj) in
      let detected_object := make_detected_object key_frame entity_type obj in
      for_detected key_frame rest
  end.

(** [_process_frame]; [now] is [timezone.now()].  The result is the list the
    detector returned, whose length the method logs. *)
Definition _process_frame (u : string) (frame : option Frame) (now : Q) (d : Draws)
    : M State (list Detection) :=
  let* rows := gets db_key_frames in
  let key_frame := mkKeyFrame (S (length rows)) now 0 in
  modify (set_db_key_frames (fun l => (l ++ [key_frame])%list)) >>
  let* detected_objects := _detect_objects frame d in
  for_detected key_frame detected_objects >>
  ret detected_objects.

(** [time.sleep(secs)]: ValueError on a negative length. *)
Definition sleep (secs : Q) : M State unit :=
  if Qlt_bool secs 0 then raise ValueError else emit (Sleep secs).

(** One pass of the body of [while self.running[rtmp_url]] (lines 102-106). *)
Definition detect_iteration (u : string) (now : Q) (d : Draws) : M State unit :=
  emit (RedisGet (image_key u)) >>
  let* frame_bytes := gets (fun s => redis s !! image_key u) in
  (match frame_bytes with
   | Some b =>
       if blob_truthy b
       then _process_frame u (imdecode b) now d >> ret tt
       else ret tt
   | None => ret tt
   end) >>
  let* config := subscript configs u in
  sleep (frame_interval config).


(** [_detect_loop] over the observations of its iterations; the result says
    whether the loop was left. *)
Fixpoint _detect_loop (u : string) (obs : list (Q * Draws)) : M State bool :=
  let* flag := subscript running u in
  if flag : bool then
    match obs with
    | [] => ret false
    | (now, d) :: obs' => detect_iteration u now d >> _detect_loop u obs'
    end
  else ret true.

(** [self.executor.submit(self._detect_loop, u)]: RuntimeError on an executor
    that was shut down; otherwise the loop is handed over and its future
    returned. *)
Definition submit (u : string) : M State nat :=
  let* closed := gets executor_shutdown in
  if closed : bool then raise RuntimeError
  else
    let* threads := gets detect_threads in
    emit (Submit u) >> ret (size threads).

(** [start_detection].  The flag is set (line 80) before the loop is
    submitted (line 81). *)
Definition start_detection (u : string) : M State (bool * string) :=
  let* busy := gets (fun s => default false (running s !! u)) in
  if busy then ret (false, "Detection already running")
  else
    let* config := gets (fun s => configs s !! u) in
    match config with
    | None => ret (false, "No configuration found")
    | Some _ =>
        modify (set_running (<[u := true]>)) >>
        let* future := submit u in
        modify (set_detect_threads (<[u := future]>)) >>
        ret (true, "Detection started successfully")
    end.

(** *** Construction, and the calls on all streams *)

Definition set_configs (f : gmap string VideoCapConfig -> gmap string VideoCapConfig)
    (s : State) : State :=
  mkState (f (configs s)) (running s) (detect_threads s) (entity_types s) (redis s)
          (db_key_frames s) (db_detected_objects s) (db_entity_types s) (log s)
          (executor_shutdown s).
Definition set_entity_types (f : gmap string EntityType -> gmap string EntityType)
    (s : State) : State :=
  mkState (configs s) (running s) (detect_threads s) (f (entity_types s)) (redis s)
          (db_key_frames s) (db_detected_objects s) (db_entity_types s) (log s)
          (executor_shutdown s).

(** [_load_configs], over the table of configurations [table]. *)
Definition _load_configs (table : gmap string VideoCapConfig) : M State unit :=
  modify (fun s =>
    let dicts := load_rows (active_rows table) (configs s, running s) in
    set_running (fun _ => snd dicts) (set_configs (fun _ => fst dicts) s)).

(** [self.entity_types[entity_type.code] = entity_type].  [has_attr] says
    whether [self.entity_types] was assigned before: reading an attribute
    that was never assigned raises AttributeError. *)
Definition assign_type (has_attr : bool) (e : EntityType) : M State unit :=
  if has_attr then modify (set_entity_types (<[code e := e]>))
  else raise AttributeError.

Fixpoint assign_types (has_attr : bool) (rows : list EntityType) : M State unit :=
  match rows with
  | [] => ret tt
  | e :: rest => assign_type has_attr e >> assign_types has_attr rest
  end.

(** Lines 47-49: each entry of the file becomes a row of the table and an
    entry of the dictionary. *)
Fixpoint create_types (entries : list EntityType) : M State unit :=
  match entries with
  | [] => ret tt
  | e :: rest =>
      modify (set_db_entity_types (fun l => (l ++ [e])%list)) >>
      assign_type true e >>
      create_types rest
  end.

(** [_load_entity_types]; [yaml] is what the file of initial types holds,
    read without error.  [__init__] assigns [self.entity_types] nowhere
    before this call: [has_attr] is false there. *)
Definition _load_entity_types (has_attr : bool) (yaml : list EntityType) : M State unit :=
  try_except
    (let* rows := gets db_entity_types in
     match rows with
     | _ :: _ => assign_types has_attr rows
     | [] =>
         modify (set_entity_types (fun _ => ∅)) >>
         create_types yaml
     end)
    (fun _ => modify (set_entity_types (fun _ => ∅))).

(** [__init__] over the store and the tables as they are in [world]: empty
    dictionaries and a new executor, then the two loads. *)
Definition init (table : gmap string VideoCapConfig) (yaml : list EntityType)
    (world : State) : State :=
  snd ((_load_configs table >> _load_entity_types false yaml)
         (mkState ∅ ∅ ∅ ∅ (redis world) (db_key_frames world)
                  (db_detected_objects world) (db_entity_types world) (log world) false)).

Definition stop_detection (u : string) : M State (bool * string) :=
  let* busy := gets (fun s => default false (running s !! u)) in
  if negb busy then ret (false, "Detection not running")
  else
    modify (set_running (<[u := false]>)) >>
    modify (set_detect_threads (delete u)) >>
    ret (true, "Detection stopped successfully").

(** [for rtmp_url in keys: body(rtmp_url)] *)
Fixpoint for_each (keys : list string) (body : string -> M State unit) : M State unit :=
  match keys with
  | [] => ret tt
  | u :: rest => body u >> for_each rest body
  end.

Definition start_service : M State unit :=
  let* keys := gets (fun s => (map_to_list (configs s)).*1) in
  for_each keys (fun u => start_detection u >> ret tt).

(** [stop_service]: every running stream is stopped, then the executor is
    shut down.  The wait of [shutdown(wait=True)] lets each worker finish
    the pass of [_detect_loop] it is in; such a pass writes neither the run
    flags nor the configurations. *)
Definition stop_service : M State unit :=
  let* keys := gets (fun s => (map_to_list (running s)).*1) in
  for_each keys (fun u =>
    let* flag := subscript running u in
    if flag : bool then stop_detection u >> ret tt else ret tt) >>
  modify (set_executor_shutdown true).

(** [update_config]; [row] is the row of the stream that
    [VideoCapConfig.objects.get] returns. *)
Definition update_config (u : string) (row : VideoCapConfig) : M State unit :=
  let* known := gets (fun s => bool_decide (is_Some (configs s !! u))) in
  if known : bool then
    modify (set_configs (<[u := row]>)) >>
    let* flag := subscript running u in
    if flag : bool then stop_detection u >> start_detection u >> ret tt
    else ret tt
  else ret tt.

End ObjectDetect.

(** * Scenarios

    Concrete states and observations on which the properties below are
    evaluated. *)

Module Scenario.

Definition vga : Frame := mkFrame 480 640.

Definition person : ObjectDetect.EntityType := ObjectDetect.mkEntityType "person" "person".

Definition cam1_config : VideoCapConfig := mkConfig 1 "Config_1" "cam1" true (1 # 2).

Definition draws : ObjectDetect.Draws := ObjectDetect.mkDraws 0 700 5 49 1000.

(** A detection service with one entity type and a configuration for cam1;
    the frame store is empty. *)
Definition detect_idle : ObjectDetect.State :=
  ObjectDetect.mkState {["cam1" := cam1_config]} {["cam1" := true]} {["cam1" := 0%nat]}
                       {["person" := person]} ∅ [] [] [] [] false.

(** The same, with a frame of cam1 in the store. *)
Definition detect_fed : ObjectDetect.State :=
  ObjectDetect.mkState {["cam1" := cam1_config]} {["cam1" := true]} {["cam1" := 0%nat]}
                       {["person" := person]} {[image_key "cam1" := imencode vga]} [] [] [] []
                       false.

(** The same as [detect_fed], but no entity type was loaded. *)
Definition detect_no_types : ObjectDetect.State :=
  ObjectDetect.mkState {["cam1" := cam1_config]} {["cam1" := true]} {["cam1" := 0%nat]}
                       ∅ {[image_key "cam1" := imencode vga]} [] [] [] [] false.

(** A capture service that knows no stream; nothing is in the store. *)
Definition capture_idle : VideoCap.State :=
  VideoCap.mkState ∅ ∅ ∅ ∅ ∅ ∅ [] 0 [].

(** Column defaults of a new configuration row. *)
Definition defaults : VideoCapConfig := mkConfig 0 "" "" false 1.

(** cam1 was started and its capture opened. *)
Definition cam1_live : VideoCap.State :=
  snd (VideoCap.start_server defaults "cam1" true capture_idle).

(** cam1 was started on a source that does not open; a frame of cam1 is in
    the store. *)
Definition cam1_dead : VideoCap.State :=
  snd (VideoCap.start_server defaults "cam1" false
         (VideoCap.set_redis (<[image_key "cam1" := imencode vga]>) capture_idle)).

(** The locals of the loop when it is entered at time 0. *)
Definition fresh_loop : VideoCap.LoopState := VideoCap.mkLoop None 0 0 0.

(** A read that returns a frame at time [t]; the clock reads of a commit
    made then are [t1] and [t2]. *)
Definition good_read (t t1 t2 : Q) : VideoCap.Obs :=
  VideoCap.mkObs true (Some vga) t true t t1 t2.

(** A read that returns nothing at time [t]; the reconnect that may follow
    opens the capture or not, and the clock shows [t'] at line 188. *)
Definition failed_read (t : Q) (reopens : bool) (t' : Q) : VideoCap.Obs :=
  VideoCap.mkObs false None t reopens t' t' t'.

(** The detection service of [detect_idle] with [blob] under the key of
    cam1. *)
Definition detect_with (blob : FrameBlob) : ObjectDetect.State :=
  ObjectDetect.mkState {["cam1" := cam1_config]} {["cam1" := true]} {["cam1" := 0%nat]}
                       {["person" := person]} {[image_key "cam1" := blob]} [] [] [] [] false.


(** A detection service that has a configuration for cam1 and runs no
    loop. *)
Definition detect_stopped : ObjectDetect.State :=
  ObjectDetect.mkState {["cam1" := cam1_config]} ∅ ∅ {["person" := person]} ∅ [] [] [] []
                       false.

(** No detection service yet; the table of entity types has a row. *)
Definition typed_world : ObjectDetect.State :=
  ObjectDetect.mkState ∅ ∅ ∅ ∅ ∅ [] [] [person] [] false.

(** A table with an active row for cam1 and an inactive one for cam2. *)
Definition two_rows : gmap string VideoCapConfig :=
  <["cam1" := mkConfig 1 "Config_1" "cam1" true 1]>
    (<["cam2" := mkConfig 2 "Config_2" "cam2" false 1]> ∅).

(** No service yet: the table [two_rows], a blob of cam1 and a key of
    another application in the store, one clip on record. *)
Definition stale_world : VideoCap.State :=
  VideoCap.mkState ∅ ∅ ∅ ∅
    (<[image_key "cam1" := imencode vga]> (<["session:42" := Bytes []]> ∅))
    two_rows
    [VideoCap.mkClip "cam1" "tmp/video_clip/cam1_hls/index.m3u8" 0 30000000 30] 0 [].

End Scenario.

(** * Properties *)

Lemma Qlt_bool_iff (a b : Q) : Qlt_bool a b = true <-> (a < b)%Q.
Proof.
  unfold Qlt_bool. rewrite negb_true_iff. split.
  - intros H. apply Qnot_le_lt. intros Hle.
    apply Qle_bool_iff in Hle. congruence.
  - intros H. destruct (Qle_bool b a) eqn:E; [|reflexivity].
    apply Qle_bool_iff in E. exfalso. exact (Qlt_not_le _ _ H E).
Qed.

Lemma Qlt_bool_false_iff (a b : Q) : Qlt_bool a b = false <-> (b <= a)%Q.
Proof.
  unfold Qlt_bool. rewrite negb_false_iff. apply Qle_bool_iff.
Qed.

(** Unfolds the monad's combinators, leaving functions of the state. *)
Ltac unfold_py :=
  unfold bind, ret, raise, gets, modify, when, subscript, try_except in *.

Section Preservation.
Context {S T : Type} (proj : S -> T).

Lemma preserves_ret {A} (a : A) : preserves proj (ret a).
Proof. intros s. reflexivity. Qed.

Lemma preserves_raise {A} (e : exn) : preserves proj (@raise S A e).
Proof. intros s. reflexivity. Qed.

Lemma preserves_gets {A} (f : S -> A) : preserves proj (gets f).
Proof. intros s. reflexivity. Qed.

Lemma preserves_subscript {V} (d : S -> gmap string V) (k : string) :
  preserves proj (subscript d k).
Proof. intros s. unfold subscript. destruct (d s !! k); reflexivity. Qed.

Lemma preserves_modify (f : S -> S) :
  (forall s, proj (f s) = proj s) -> preserves proj (modify f).
Proof. intros Hf s. apply Hf. Qed.

Lemma preserves_bind {A B} (m : M S A) (k : A -> M S B) :
  preserves proj m -> (forall a, preserves proj (k a)) -> preserves proj (bind m k).
Proof.
  intros Hm Hk s. unfold bind.
  specialize (Hm s). destruct (m s) as [[a|e] s']; simpl in *.
  - rewrite Hk. exact Hm.
  - exact Hm.
Qed.

Lemma preserves_when (b : bool) (m : M S unit) :
  preserves proj m -> preserves proj (when b m).
Proof. intros Hm. destruct b; [exact Hm|apply preserves_ret]. Qed.

Lemma preserves_try_except {A} (m : M S A) (h : exn -> M S A) :
  preserves proj m -> (forall e, preserves proj (h e)) -> preserves proj (try_except m h).
Proof.
  intros Hm Hh s. unfold try_except.
  specialize (Hm s). destruct (m s) as [[a|e] s']; simpl in *.
  - exact Hm.
  - rewrite Hh. exact Hm.
Qed.
End Preservation.

Section Returns.
Context {S : Type}.

Lemma returns_ret {A} (a : A) : returns (@ret S A a).
Proof. intros s. do 2 eexists. reflexivity. Qed.

Lemma returns_gets {A} (f : S -> A) : returns (gets f).
Proof. intros s. do 2 eexists. reflexivity. Qed.

Lemma returns_modify (f : S -> S) : returns (modify f).
Proof. intros s. do 2 eexists. reflexivity. Qed.

Lemma returns_bind {A B} (m : M S A) (k : A -> M S B) :
  returns m -> (forall a, returns (k a)) -> returns (bind m k).
Proof.
  intros Hm Hk s. unfold bind.
  destruct (Hm s) as (a & s' & ->). apply Hk.
Qed.

Lemma returns_when (b : bool) (m : M S unit) : returns m -> returns (when b m).
Proof. intros Hm. destruct b; [exact Hm|apply returns_ret]. Qed.
End Returns.

Ltac returns_step :=
  first
    [ apply returns_ret
    | apply returns_gets
    | apply returns_modify
    | apply returns_bind; [|intros ?]
    | apply returns_when ].

Create HintDb py_preserves.

(** Walks through a method body, one combinator at a time; methods already
    dealt with are looked up in the hint database. *)
Ltac preserve_step :=
  first
    [ solve [auto 1 with py_preserves nocore]
    | apply preserves_ret
    | apply preserves_raise
    | apply preserves_gets
    | apply preserves_subscript
    | apply preserves_bind; [|intros ?]
    | apply preserves_when
    | apply preserves_try_except; [|intros ?]
    | apply preserves_modify; intros ?; reflexivity
    | match goal with
      | |- preserves _ (match ?t with _ => _ end) => destruct t
      end ].

Ltac preserve := repeat preserve_step.

(** ** The consumer loop and the placeholder detector *)

Module DetectProofs.
Import ObjectDetect.

Lemma randint_range {S} (low high draw : Z) (s : S) :
  low < high ->
  exists v, randint low high draw s = (Ok v, s) /\ low <= v < high.
Proof.
  intros Hlt. unfold randint.
  destruct (Z.ltb_spec low high) as [_|Hge]; [|lia].
  eexists. split; [reflexivity|].
  pose proof (Z.mod_pos_bound draw (high - low)). lia.
Qed.

Lemma randint_empty {S} (low high draw : Z) (s : S) :
  high <= low -> randint low high draw s = (Raise ValueError, s).
Proof.
  intros Hle. unfold randint.
  destruct (Z.ltb_spec low high); [lia|reflexivity].
Qed.

Lemma choice_elem {S} (l : list string) (pick : nat) (s : S) :
  l <> [] ->
  exists k, choice l pick s = (Ok k, s) /\ k ∈ l.
Proof.
  intros Hne. destruct l as [|k0 l]; [congruence|].
  unfold choice. eexists. split; [reflexivity|].
  apply list_elem_of_In, nth_In.
  apply Nat.mod_upper_bound. discriminate.
Qed.

Lemma keys_nonempty (types : gmap string EntityType) :
  types <> ∅ -> (map_to_list types).*1 <> [].
Proof.
  intros Hne Hnil. apply Hne.
  apply map_to_list_empty_iff.
  destruct (map_to_list types); [reflexivity|discriminate].
Qed.

Lemma key_in_map (types : gmap string EntityType) (k : string) :
  k ∈ (map_to_list types).*1 -> is_Some (types !! k).
Proof.
  intros Hin. apply list_elem_of_fmap in Hin as [[k' v] [-> Hin]].
  apply elem_of_map_to_list in Hin. simpl. eauto.
Qed.

(** C10, as amended: with at least one entity type loaded, on a frame wider
    and higher than 50 pixels the placeholder detector returns exactly one
    detection, whatever the random draws, and leaves the state alone; the
    box lies within the frame, its width and height are in [50, 100), and
    its type is one of the loaded ones. *)
Theorem detect_objects_box_in_frame (f : Frame) (d : Draws) (st : State) :
  50 < frame_width f ->
  50 < frame_height f ->
  entity_types st <> ∅ ->
  exists obj,
    _detect_objects (Some f) d st = (Ok [obj], st) /\
    0 <= x obj /\ 0 <= y obj /\
    x obj + width obj <= frame_width f /\
    y obj + height obj <= frame_height f /\
    50 <= width obj < 100 /\ 50 <= height obj < 100 /\
    is_Some (entity_types st !! detected_type obj).
Proof.
  intros Hw Hh Hty.
  destruct (choice_elem (map_to_list (entity_types st)).*1 (pick_entity d) st
              (keys_nonempty _ Hty)) as (k & Hk & Hin).
  destruct (randint_range 0 (frame_width f - 50) (draw_x d) st) as (vx & Hx & Hxr); [lia|].
  destruct (randint_range 0 (frame_height f - 50) (draw_y d) st) as (vy & Hy & Hyr); [lia|].
  destruct (randint_range 50 (Z.min 100 (frame_width f - vx)) (draw_width d) st)
    as (vw & Hvw & Hwr); [lia|].
  destruct (randint_range 50 (Z.min 100 (frame_height f - vy)) (draw_height d) st)
    as (vh & Hvh & Hhr); [lia|].
  exists (mkDetection vx vy vw vh k).
  split.
  - unfold _detect_objects, bind, gets, shape, ret.
    rewrite Hk, Hx, Hy, Hvw, Hvh. reflexivity.
  - simpl. repeat split; try lia. apply key_in_map, Hin.
Qed.

Lemma detect_objects_box_in_frame_witness :
  50 < frame_width Scenario.vga /\
  50 < frame_height Scenario.vga /\
  entity_types Scenario.detect_idle <> ∅ /\
  exists obj,
    _detect_objects (Some Scenario.vga) Scenario.draws Scenario.detect_idle
      = (Ok [obj], Scenario.detect_idle) /\
    0 <= x obj /\ 0 <= y obj /\
    x obj + width obj <= frame_width Scenario.vga /\
    y obj + height obj <= frame_height Scenario.vga /\
    50 <= width obj < 100 /\ 50 <= height obj < 100 /\
    is_Some (entity_types Scenario.detect_idle !! detected_type obj).
Proof.
  assert (Hw : 50 < frame_width Scenario.vga) by (simpl; lia).
  assert (Hh : 50 < frame_height Scenario.vga) by (simpl; lia).
  assert (Hty : entity_types Scenario.detect_idle <> ∅).
  { intros Hempty. apply (f_equal (fun m => m !! "person")) in Hempty.
    vm_compute in Hempty. discriminate. }
  split; [exact Hw|]. split; [exact Hh|]. split; [exact Hty|].
  exact (detect_objects_box_in_frame Scenario.vga Scenario.draws Scenario.detect_idle Hw Hh Hty).
Defined.

(** C10, as stated, fails when no entity type is loaded: the draw of the
    type is made first, from an empty list, and raises ValueError; no
    detection is returned, whatever the frame. *)
Lemma detect_objects_without_types_raises :
  frame_width Scenario.vga = 640 /\ frame_height Scenario.vga = 480 /\
  _detect_objects (Some Scenario.vga) Scenario.draws Scenario.detect_no_types
    = (Raise ValueError, Scenario.detect_no_types).
Proof. repeat split. Qed.

(** On a frame that is not wider than 50 pixels the draw of [x] is made
    from an empty range. *)
Lemma detect_objects_narrow_frame_raises (f : Frame) (d : Draws) (st : State) :
  entity_types st <> ∅ ->
  frame_width f <= 50 ->
  _detect_objects (Some f) d st = (Raise ValueError, st).
Proof.
  intros Hty Hw.
  destruct (choice_elem (map_to_list (entity_types st)).*1 (pick_entity d) st
              (keys_nonempty _ Hty)) as (k & Hk & _).
  unfold _detect_objects, bind, gets, shape, ret.
  rewrite Hk, randint_empty by lia. reflexivity.
Qed.

(** The detector reads the state and does not write it. *)
Lemma detect_objects_pure {T} (proj : State -> T) (frame : option Frame) (d : Draws) :
  preserves proj (_detect_objects frame d).
Proof. unfold _detect_objects, choice, shape, randint. preserve. Qed.
#[local] Hint Resolve detect_objects_pure : py_preserves.

Lemma for_detected_keeps_detected (key_frame : KeyFrame) (objs : list Detection) :
  preserves db_detected_objects (for_detected key_frame objs).
Proof.
  induction objs as [|obj rest IH]; simpl.
  - preserve.
  - unfold entity_get_or_create. preserve.
Qed.
#[local] Hint Resolve for_detected_keeps_detected : py_preserves.

Lemma process_frame_keeps_detected (u : string) (frame : option Frame) (now : Q) (d : Draws) :
  preserves db_detected_objects (_process_frame u frame now d).
Proof. unfold _process_frame. preserve. Qed.
#[local] Hint Resolve process_frame_keeps_detected : py_preserves.

(** No pass of the consumer loop adds a row to the table of detected
    objects. *)
Lemma detect_iteration_persists_nothing (u : string) (now : Q) (d : Draws) :
  preserves db_detected_objects (detect_iteration u now d).
Proof. unfold detect_iteration, sleep, emit. preserve. Qed.

(** C3 at a concrete pass: a frame of cam1 is in the store and one entity
    type is loaded.  The pass returns, a key frame is recorded, the detector
    returns one detection for it, and the table of detected objects is as
    empty as before. *)
Theorem process_frame_drops_detections :
  let run := _process_frame "cam1" (imdecode (imencode Scenario.vga)) 10
                            Scenario.draws Scenario.detect_fed in
  let pass := detect_iteration "cam1" 10 Scenario.draws Scenario.detect_fed in
  fst run = Ok [mkDetection 110 5 99 50 "person"] /\
  fst pass = Ok tt /\
  db_key_frames (snd pass) = [mkKeyFrame 1 10 0] /\
  db_detected_objects (snd pass) = [].
Proof. vm_compute. repeat split. Qed.






(** A detection loop is only started for a stream that has a configuration. *)
Lemma start_detection_has_config (u : string) (st st' : State) (msg : string) :
  start_detection u st = (Ok (true, msg), st') ->
  is_Some (configs st' !! u) /\ running st' !! u = Some true.
Proof.
  unfold start_detection, submit, emit. unfold_py.
  destruct (default false (running st !! u)); [discriminate|].
  destruct (configs st !! u) as [c|] eqn:Hc; [|discriminate].
  simpl. destruct (executor_shutdown st); [discriminate|].
  intros H. injection H as _ <-. simpl.
  split; [eauto|apply lookup_insert_eq].
Qed.

End DetectProofs.

(** ** The capture service *)

Module CaptureProofs.
Import VideoCap.

Section Preserved.
Context {T : Type} (proj : State -> T).
Hypothesis proj_caps : forall f s, proj (set_caps f s) = proj s.
Hypothesis proj_log : forall e s, proj (snd (emit e s)) = proj s.

Lemma emit_preserved (e : Effect) : preserves proj (emit e).
Proof. intros s. apply proj_log. Qed.
Hint Resolve emit_preserved : py_preserves.

Lemma set_caps_preserved f : preserves proj (modify (set_caps f)).
Proof. intros s. apply proj_caps. Qed.
Hint Resolve set_caps_preserved : py_preserves.

Lemma release_if_held_preserved (u : string) : preserves proj (release_if_held u).
Proof. unfold release_if_held. preserve. Qed.
Hint Resolve release_if_held_preserved : py_preserves.

Lemma initialize_capture_preserved (u : string) (opens : bool) :
  preserves proj (_initialize_capture u opens).
Proof. unfold _initialize_capture. preserve. Qed.
Hint Resolve initialize_capture_preserved : py_preserves.

Lemma reconnect_preserved (u : string) (opens : bool) :
  preserves proj (_reconnect u opens).
Proof. unfold _reconnect. preserve. Qed.
Hint Resolve reconnect_preserved : py_preserves.

(** The body of the loop writes the handles, the log and the table of
    clips, and nothing else. *)
Hypothesis proj_clips : forall f s, proj (set_db_clips f s) = proj s.

Lemma save_clip_preserved (u hls : string) (t0 t1 now1 now2 : Q) :
  preserves proj (_save_video_clip_metadata u hls t0 t1 now1 now2).
Proof.
  unfold _save_video_clip_metadata.
  apply preserves_bind; [preserve|intros config].
  intros s. apply proj_clips.
Qed.
Hint Resolve save_clip_preserved : py_preserves.

Lemma loop_body_preserved (u hls : string) (o : Obs) (ls : LoopState) :
  preserves proj (loop_body u hls o ls).
Proof. unfold loop_body. preserve. Qed.
End Preserved.

Lemma loop_body_redis (u hls : string) (o : Obs) (ls : LoopState) :
  preserves redis (loop_body u hls o ls).
Proof. apply loop_body_preserved; reflexivity. Qed.

Lemma loop_body_configs (u hls : string) (o : Obs) (ls : LoopState) :
  preserves configs (loop_body u hls o ls).
Proof. apply loop_body_preserved; reflexivity. Qed.

(** *** Start *)

Lemma threads_started_for_app (u : string) (s : State) (l : list Effect) (st : State) :
  log s = (log st ++ l)%list ->
  threads_started_for u s =
    (threads_started_for u st +
     length (List.filter (fun e => match e with
                                   | ThreadStart v _ => String.eqb u v
                                   | _ => false
                                   end) l))%nat.
Proof.
  intros Hlog. unfold threads_started_for. rewrite Hlog.
  rewrite List.filter_app, length_app. reflexivity.
Qed.

Lemma start_register_spec (defaults : VideoCapConfig) (u : string) (st : State) :
  exists st1,
    start_register defaults u st = (Ok tt, st1) /\
    running st1 = <[u := true]> (running st) /\
    log st1 = log st.
Proof.
  unfold start_register, get_or_create, save_config. unfold_py.
  destruct (db_configs st !! u); simpl; eexists; repeat split.
Qed.

Lemma start_launch_spec (u : string) (opens : bool) (st : State) :
  exists st1,
    start_launch u opens st = (Ok tt, st1) /\
    running st1 = running st /\
    threads_started_for u st1 = S (threads_started_for u st).
Proof.
  unfold start_launch, _initialize_capture, release_if_held, emit. unfold_py.
  destruct (holds_handle u st); simpl; eexists; (split; [reflexivity|]); (split; [reflexivity|]).
  - erewrite threads_started_for_app
      with (st := st) (l := [CapRelease u; CapOpen (cap_source u) opens;
                             ThreadStart u (threads_started st)]).
    + simpl. rewrite String.eqb_refl. simpl. lia.
    + simpl. rewrite <- !app_assoc. reflexivity.
  - erewrite threads_started_for_app
      with (st := st) (l := [CapOpen (cap_source u) opens;
                             ThreadStart u (threads_started st)]).
    + simpl. rewrite String.eqb_refl. simpl. lia.
    + simpl. rewrite <- !app_assoc. reflexivity.
Qed.

(** A start call made while the flag of the stream is set changes nothing. *)
Lemma start_server_already_running (defaults : VideoCapConfig) (u : string) (opens : bool)
    (st : State) :
  check_server_status u st = true ->
  start_server defaults u opens st = (Ok (false, "Server already running"), st).
Proof.
  unfold check_server_status, start_server, start_check. unfold_py.
  intros ->. reflexivity.
Qed.

(** C1, as amended: start calls for one stream that do not overlap.  The
    first, made while the stream is not running, returns success, sets the
    flag and starts one capture thread; the second, made after the first has
    returned, reports that the server is already running and changes
    nothing, so that one call of the two succeeds and one thread was
    started. *)
Theorem start_server_one_after_the_other (defaults : VideoCapConfig) (u : string)
    (opens_a opens_b : bool) (st : State) :
  check_server_status u st = false ->
  exists st1,
    start_server defaults u opens_a st = (Ok (true, "Server started successfully"), st1) /\
    check_server_status u st1 = true /\
    threads_started_for u st1 = S (threads_started_for u st) /\
    start_server defaults u opens_b st1 = (Ok (false, "Server already running"), st1) /\
    exactly_one_success (true, "Server started successfully")
                        (false, "Server already running").
Proof.
  intros Hidle.
  destruct (start_register_spec defaults u st) as (st1 & Hreg & Hrun1 & Hlog1).
  destruct (start_launch_spec u opens_a st1) as (st2 & Hlaunch & Hrun2 & Hthreads).
  assert (Hbusy : check_server_status u st2 = true).
  { unfold check_server_status. rewrite Hrun2, Hrun1, lookup_insert_eq. reflexivity. }
  exists st2. split; [|split; [exact Hbusy|split; [|split]]].
  - unfold start_server, start_check, bind, gets.
    unfold check_server_status in Hidle. rewrite Hidle.
    rewrite Hreg, Hlaunch. reflexivity.
  - rewrite Hthreads. unfold threads_started_for. rewrite Hlog1. reflexivity.
  - apply start_server_already_running, Hbusy.
  - left. split; reflexivity.
Qed.

Lemma start_server_one_after_the_other_witness :
  check_server_status "cam3" Scenario.capture_idle = false /\
  exists st1,
    start_server Scenario.defaults "cam3" true Scenario.capture_idle
      = (Ok (true, "Server started successfully"), st1) /\
    check_server_status "cam3" st1 = true /\
    threads_started_for "cam3" st1 = S (threads_started_for "cam3" Scenario.capture_idle) /\
    start_server Scenario.defaults "cam3" true st1
      = (Ok (false, "Server already running"), st1) /\
    exactly_one_success (true, "Server started successfully")
                        (false, "Server already running").
Proof.
  assert (Hidle : check_server_status "cam3" Scenario.capture_idle = false)
    by (vm_compute; reflexivity).
  split; [exact Hidle|].
  exact (start_server_one_after_the_other Scenario.defaults "cam3" true true
           Scenario.capture_idle Hidle).
Defined.

(** The scheduler that lets the first caller run to its return before the
    second takes a step performs the two calls one after the other. *)
Lemma run_schedule_sequential (defaults : VideoCapConfig) (u : string)
    (opens_a opens_b : bool) (st : State) :
  run_schedule defaults u opens_a opens_b
               [CallerA; CallerA; CallerA; CallerB; CallerB; CallerB] (AtCheck, AtCheck) st
  = (let* ra := start_server defaults u opens_a in
     let* rb := start_server defaults u opens_b in
     ret (Returned ra, Returned rb)) st.
Proof.
  destruct (start_register_spec defaults u st) as (st1 & Hreg & Hrun1 & _).
  destruct (start_launch_spec u opens_a st1) as (st2 & Hlaunch & Hrun2 & _).
  unfold run_schedule, schedule_step, start_step, start_server, start_check, bind, gets, ret.
  simpl.
  destruct (default false (running st !! u)) eqn:Hbusy; simpl.
  - rewrite Hbusy. reflexivity.
  - rewrite !Hreg. simpl. rewrite !Hlaunch. simpl.
    rewrite Hrun2, Hrun1, lookup_insert_eq. simpl. reflexivity.
Qed.

(** C1, as stated, fails: two start calls for cam3 that both test the flag
    before either sets it both return success, and two capture threads are
    started for the stream. *)
Lemma overlapping_starts_both_succeed :
  let run := run_schedule Scenario.defaults "cam3" true true
               [CallerA; CallerB; CallerA; CallerA; CallerB; CallerB]
               (AtCheck, AtCheck) Scenario.capture_idle in
  fst run = Ok (Returned (true, "Server started successfully"),
                Returned (true, "Server started successfully")) /\
  threads_started_for "cam3" (snd run) = 2%nat /\
  ~ exactly_one_success (true, "Server started successfully")
                        (true, "Server started successfully").
Proof.
  split; [vm_compute; reflexivity|]. split; [vm_compute; reflexivity|].
  intros [[_ H]|[_ H]]; discriminate.
Qed.

(** *** The loop and the frame store *)

Lemma bind_inv {S A B} (m : M S A) (k : A -> M S B) (s s' : S) (r : res B) :
  bind m k s = (r, s') ->
  (exists a s1, m s = (Ok a, s1) /\ k a s1 = (r, s')) \/
  (exists e, m s = (Raise e, s') /\ r = Raise e).
Proof.
  unfold bind. destruct (m s) as [[a|e] s1]; intros H.
  - left. eauto.
  - right. injection H as <- <-. eauto.
Qed.

(** A property of two states that holds along every run of the loop once
    it holds along the body and along the escalation test. *)
Section AlongTheLoop.
Variable R : State -> State -> Prop.
Hypothesis R_refl : forall s, R s s.
Hypothesis R_trans : forall s1 s2 s3, R s1 s2 -> R s2 s3 -> R s1 s3.
Variables u hls : string.
Hypothesis R_body : forall o ls s, R s (snd (loop_body u hls o ls s)).
Hypothesis R_escalate : forall o ls s, R s (snd (escalate u o ls s)).

Lemma capture_pass_along (o : Obs) (ls : LoopState) (s : State) :
  R s (snd (capture_pass u hls o ls s)).
Proof.
  unfold capture_pass, bind, ret.
  pose proof (R_body o ls s) as Hbody.
  destruct (loop_body u hls o ls s) as [[ls1|e] s1]; simpl in *; [|exact Hbody].
  pose proof (R_escalate o ls1 s1) as Hesc.
  destruct (escalate u o ls1 s1) as [[stop|e] s2]; simpl in *;
    exact (R_trans _ _ _ Hbody Hesc).
Qed.

Lemma capture_while_along (obs : list Obs) (ls : LoopState) (s : State) :
  R s (snd (capture_while u hls obs ls s)).
Proof.
  revert ls s. induction obs as [|o obs IH]; intros ls s; simpl;
    unfold bind at 1; unfold subscript;
    destruct (running s !! u) as [[|]|]; simpl; try apply R_refl.
  unfold bind at 1.
  pose proof (capture_pass_along o ls s) as Hpass.
  destruct (capture_pass u hls o ls s) as [[[ls1 [|]]|e] s1]; simpl in *;
    try exact Hpass.
  exact (R_trans _ _ _ Hpass (IH ls1 s1)).
Qed.
End AlongTheLoop.

Lemma set_inactive_store (u : string) (s : State) :
  redis (snd (_set_inactive u s)) ⊆ redis s.
Proof.
  unfold _set_inactive, save_config, release_if_held, emit. unfold_py.
  destruct (configs s !! u); simpl; [|reflexivity].
  destruct (holds_handle u _); simpl; apply delete_subseteq.
Qed.

Lemma escalate_store (u : string) (o : Obs) (ls : LoopState) (s : State) :
  redis (snd (escalate u o ls s)) ⊆ redis s.
Proof.
  unfold escalate. destruct (reconnect_start_time ls); [|reflexivity].
  destruct (_ || _); [|reflexivity].
  unfold bind. pose proof (set_inactive_store u s) as H.
  destruct (_set_inactive u s) as [[[]|e] s']; exact H.
Qed.

(** The capture loop never adds an entry to the frame store and never
    overwrites one: what the store holds after a run, it held before. *)
Lemma capture_while_never_publishes (u hls : string) (obs : list Obs) (ls : LoopState)
    (s : State) :
  redis (snd (capture_while u hls obs ls s)) ⊆ redis s.
Proof.
  apply (capture_while_along (fun s s' => redis s' ⊆ redis s)).
  - reflexivity.
  - intros s1 s2 s3 H12 H23. etrans; eassumption.
  - intros o ls' s'. rewrite (loop_body_redis u hls o ls' s'). reflexivity.
  - apply escalate_store.
Qed.

(** The same for the whole of [_capture_loop], with its handler and its
    [finally]. *)
Lemma capture_loop_never_publishes (u : string) (popen_ok : bool) (t0 t1 : Q)
    (obs : list Obs) (s : State) :
  redis (snd (_capture_loop u popen_ok t0 t1 obs s)) ⊆ redis s.
Proof.
  unfold _capture_loop, capture_try, try_except, emit, bind, subscript, modify, ret.
  destruct (configs s !! u); [|reflexivity].
  destruct popen_ok; [|reflexivity].
  match goal with
  | |- context [capture_while ?a ?b ?c ?d ?s0] =>
      pose proof (capture_while_never_publishes a b c d s0) as Hloop;
      destruct (capture_while a b c d s0) as [[[|ls']|e] s']
  end; exact Hloop.
Qed.

(** [update_frame] is the method that publishes: called on a frame, it
    puts the encoded frame under the key of the stream.  The loop does not
    call it. *)
Lemma update_frame_publishes (u : string) (f : Frame) (s : State) :
  fst (update_frame u (Some f) s) = Ok tt /\
  redis (snd (update_frame u (Some f) s)) !! image_key u = Some (imencode f).
Proof.
  unfold update_frame, emit. unfold_py. simpl.
  split; [reflexivity|apply lookup_insert_eq].
Qed.

(** C2 at a concrete pass: cam1 is running with its capture opened and the
    read returns a frame.  The body of the loop returns with the counters
    reset; the store has no entry for cam1 afterwards and the log has no
    new entry: nothing was encoded or written. *)
Theorem successful_read_publishes_nothing :
  let o := Scenario.good_read 2 2 2 in
  let pass := loop_body "cam1" (hls_output "cam1") o Scenario.fresh_loop Scenario.cam1_live in
  handle_ready "cam1" Scenario.cam1_live = true /\
  read_ret o = true /\
  read_frame o = Some Scenario.vga /\
  fst pass = Ok (mkLoop None 0 2 0) /\
  redis (snd pass) !! image_key "cam1" = None /\
  log (snd pass) = log Scenario.cam1_live.
Proof. vm_compute. repeat split. Qed.

(** *** Escalation *)

Lemma set_inactive_spec (u : string) (config : VideoCapConfig) (s : State) :
  configs s !! u = Some config ->
  _set_inactive u s =
    (Ok tt,
     mkState (<[u := with_active false config]> (configs s))
             (<[u := None]> (caps s))
             (<[u := false]> (running s))
             (delete u (capture_threads s))
             (delete (image_key u) (redis s))
             (<[rtmp_url config := with_active false config]> (db_configs s))
             (db_clips s) (threads_started s)
             (log s ++ (if holds_handle u s then [CapRelease u] else [])
                    ++ [RedisDelete (image_key u)])%list).
Proof.
  intros Hconfig.
  unfold _set_inactive, save_config, release_if_held, emit. unfold_py.
  rewrite Hconfig. simpl.
  unfold holds_handle. simpl.
  destruct (caps s !! u) as [[c|]|]; simpl; rewrite ?app_nil_r, <- ?app_assoc; reflexivity.
Qed.

(** C4: at the end of an iteration that leaves the loop stalled or
    reconnecting (a reconnect is under way since [started]), when the time
    since [started] exceeds the reconnect timeout or the attempts exceed
    their bound, the loop is left at once: the active flag of the
    configuration is false in the service and in its table (the
    configuration is otherwise as it was), no handle is held (a held one
    was released), the blob of the stream is deleted from the store, ffmpeg
    is terminated, and the status of the stream is not-running. *)
Theorem reconnect_exhausted_terminates (u hls : string) (o : Obs) (rest : list Obs)
    (ls ls1 : LoopState) (st st1 : State) (config : VideoCapConfig) (started : Q) :
  running st !! u = Some true ->
  configs st !! u = Some config ->
  loop_body u hls o ls st = (Ok ls1, st1) ->
  reconnect_start_time ls1 = Some started ->
  (reconnect_timeout < t_check o - started)%Q \/
    max_reconnect_attempts < reconnect_attempts ls1 ->
  exists st',
    capture_try u hls (o :: rest) ls st = (Ok Exited, st') /\
    configs st' !! u = Some (with_active false config) /\
    db_configs st' !! rtmp_url config = Some (with_active false config) /\
    is_active <$> configs st' !! u = Some false /\
    is_active <$> db_configs st' !! rtmp_url config = Some false /\
    holds_handle u st' = false /\
    redis st' !! image_key u = None /\
    capture_threads st' !! u = None /\
    check_server_status u st' = false /\
    log st' = (log st1 ++ (if holds_handle u st1 then [CapRelease u] else [])
                       ++ [RedisDelete (image_key u); FfmpegTerminate u])%list.
Proof.
  intros Hrun Hconfig Hbody Hstarted Hover.
  pose proof (loop_body_configs u hls o ls st) as Hc.
  rewrite Hbody in Hc. simpl in Hc.
  assert (Hconfig1 : configs st1 !! u = Some config) by (rewrite Hc; exact Hconfig).
  assert (Hcond : Qlt_bool reconnect_timeout (t_check o - started)
                  || (max_reconnect_attempts <? reconnect_attempts ls1) = true).
  { apply orb_true_iff. destruct Hover as [Htime|Hcount].
    - left. apply Qlt_bool_iff, Htime.
    - right. apply Z.ltb_lt, Hcount. }
  eexists. split.
  - assert (Hpass : capture_pass u hls o ls st
                     = (Ok (ls1, true), snd (_set_inactive u st1))).
    { unfold capture_pass. unfold bind at 1. rewrite Hbody.
      unfold escalate. rewrite Hstarted, Hcond. unfold bind, ret.
      rewrite (set_inactive_spec u config st1 Hconfig1). reflexivity. }
    unfold capture_try, try_except. unfold bind at 1. simpl capture_while.
    unfold bind at 1. unfold subscript at 1. rewrite Hrun.
    unfold bind at 1. rewrite Hpass.
    rewrite (set_inactive_spec u config st1 Hconfig1).
    unfold ret, emit, bind, modify. simpl. reflexivity.
  - simpl. unfold holds_handle, check_server_status. simpl.
    rewrite !lookup_insert_eq, !lookup_delete_eq.
    repeat split. rewrite <- !app_assoc. reflexivity.
Qed.

Lemma reconnect_exhausted_terminates_witness :
  let o := Scenario.failed_read 2 true 8 in
  let hls := hls_output "cam1" in
  let ls1 := mkLoop (Some 2%Q) 1 0 0 in
  let st1 := snd (loop_body "cam1" hls o Scenario.fresh_loop Scenario.cam1_live) in
  running Scenario.cam1_live !! "cam1" = Some true /\
  loop_body "cam1" hls o Scenario.fresh_loop Scenario.cam1_live = (Ok ls1, st1) /\
  (reconnect_timeout < t_check o - 2)%Q /\
  exists st',
    capture_try "cam1" hls [o] Scenario.fresh_loop Scenario.cam1_live = (Ok Exited, st') /\
    is_active <$> configs st' !! "cam1" = Some false /\
    is_active <$> db_configs st' !! "cam1" = Some false /\
    check_server_status "cam1" st' = false /\
    redis st' !! image_key "cam1" = None.
Proof.
  intros o hls ls1 st1.
  assert (Hrun : running Scenario.cam1_live !! "cam1" = Some true)
    by (vm_compute; reflexivity).
  assert (Hconfig : configs Scenario.cam1_live !! "cam1"
                    = Some (mkConfig 1 "Config_1" "cam1" true 1))
    by (vm_compute; reflexivity).
  assert (Hbody : loop_body "cam1" hls o Scenario.fresh_loop Scenario.cam1_live
                  = (Ok ls1, st1)) by (vm_compute; reflexivity).
  assert (Hover : (reconnect_timeout < t_check o - 2)%Q) by (vm_compute; reflexivity).
  split; [exact Hrun|]. split; [exact Hbody|]. split; [exact Hover|].
  destruct (reconnect_exhausted_terminates "cam1" hls o [] Scenario.fresh_loop ls1
              Scenario.cam1_live st1 _ 2%Q Hrun Hconfig Hbody eq_refl (or_introl Hover))
    as (st' & Hexit & _ & _ & Hflag & Hrow & _ & Hstore & _ & Hstatus & _).
  exists st'. split; [exact Hexit|]. split; [exact Hflag|]. split; [exact Hrow|].
  split; [exact Hstatus|exact Hstore].
Defined.

(** *** The attempt counter *)

Lemma reconnect_returns (u : string) (opens : bool) : returns (_reconnect u opens).
Proof.
  unfold _reconnect, _initialize_capture, release_if_held, emit.
  repeat returns_step.
Qed.

(** The locals after one pass of the body, branch by branch. *)
Lemma loop_body_locals (u hls : string) (o : Obs) (ls ls1 : LoopState) (st st1 : State) :
  loop_body u hls o ls st = (Ok ls1, st1) ->
  ls1 = if handle_ready u st then
          if read_ret o then
            mkLoop None 0 (t_read o)
                   (if Qle_bool video_clip_duration (t_read o - video_clip_start_time ls)
                    then t_read o else video_clip_start_time ls)
          else if Qlt_bool 1 (t_read o - last_frame_time ls)
               then note_reconnect (t_read o) ls
               else ls
        else note_reconnect (t_read o) ls.
Proof.
  unfold loop_body. unfold bind at 1. unfold gets at 1.
  destruct (handle_ready u st).
  - destruct (read_ret o).
    + destruct (Qle_bool _ _).
      * intros H. apply bind_inv in H as [(a & s1 & _ & H)|(e & _ & H)]; [|discriminate].
        injection H as <- _. reflexivity.
      * intros H. injection H as <- _. reflexivity.
    + destruct (Qlt_bool _ _).
      * intros H. apply bind_inv in H as [(a & s1 & _ & H)|(e & _ & H)]; [|discriminate].
        injection H as <- _. reflexivity.
      * intros H. injection H as <- _. reflexivity.
  - intros H. apply bind_inv in H as [(a & s1 & _ & H)|(e & _ & H)]; [|discriminate].
    injection H as <- _. reflexivity.
Qed.

Lemma note_reconnect_attempts (now : Q) (ls : LoopState) :
  reconnect_attempts ls <= reconnect_attempts (note_reconnect now ls) <= reconnect_attempts ls + 1.
Proof. unfold note_reconnect. destruct (reconnect_start_time ls); simpl; lia. Qed.

(** C5: a pass of the loop body in which a frame is read sets the attempt
    counter (and the start of the reconnect) back to zero; a pass in which
    no frame is read never lowers the counter, whether or not the reconnect
    it makes opens the capture.  So a counter above zero is at zero after
    the pass exactly when the read succeeded. *)
Theorem attempts_reset_exactly_on_read (u hls : string) (o : Obs) (ls ls1 : LoopState)
    (st st1 : State) :
  loop_body u hls o ls st = (Ok ls1, st1) ->
  (handle_ready u st = true /\ read_ret o = true ->
     reconnect_attempts ls1 = 0 /\ reconnect_start_time ls1 = None) /\
  (~ (handle_ready u st = true /\ read_ret o = true) ->
     reconnect_attempts ls <= reconnect_attempts ls1) /\
  (0 < reconnect_attempts ls ->
     (reconnect_attempts ls1 = 0 <-> handle_ready u st = true /\ read_ret o = true)).
Proof.
  intros Hbody. apply loop_body_locals in Hbody.
  pose proof (note_reconnect_attempts (t_read o) ls) as Hnote.
  assert (Hsucc : handle_ready u st = true /\ read_ret o = true ->
                  reconnect_attempts ls1 = 0 /\ reconnect_start_time ls1 = None).
  { intros [Hready Hret]. rewrite Hready, Hret in Hbody. subst ls1. split; reflexivity. }
  assert (Hfail : ~ (handle_ready u st = true /\ read_ret o = true) ->
                  reconnect_attempts ls <= reconnect_attempts ls1).
  { intros Hno. destruct (handle_ready u st).
    - destruct (read_ret o); [exfalso; apply Hno; split; reflexivity|].
      destruct (Qlt_bool _ _); subst ls1; lia.
    - subst ls1. lia. }
  split; [exact Hsucc|]. split; [exact Hfail|].
  intros Hpos. split.
  - intros Hzero.
    destruct (handle_ready u st) eqn:Hready; destruct (read_ret o) eqn:Hret;
      try (split; reflexivity);
      (assert (reconnect_attempts ls <= reconnect_attempts ls1)
         by (apply Hfail; intros [? ?]; discriminate); lia).
  - intros H. apply Hsucc, H.
Qed.

Lemma attempts_reset_exactly_on_read_witness :
  let o := Scenario.good_read 9 9 9 in
  let hls := hls_output "cam1" in
  let stalled := mkLoop (Some 2%Q) 1 0 0 in
  let ls1 := mkLoop None 0 9 0 in
  loop_body "cam1" hls o stalled Scenario.cam1_live = (Ok ls1, Scenario.cam1_live) /\
  0 < reconnect_attempts stalled /\
  reconnect_attempts ls1 = 0.
Proof.
  intros o hls stalled ls1.
  assert (Hbody : loop_body "cam1" hls o stalled Scenario.cam1_live
                  = (Ok ls1, Scenario.cam1_live)) by (vm_compute; reflexivity).
  split; [exact Hbody|]. split; [reflexivity|].
  destruct (attempts_reset_exactly_on_read "cam1" hls o stalled ls1
              Scenario.cam1_live Scenario.cam1_live Hbody) as (Hsucc & _ & _).
  apply Hsucc. split; vm_compute; reflexivity.
Defined.

Lemma loop_body_counted_once (u hls : string) (o : Obs) (ls ls1 : LoopState) (st st1 : State) :
  counted_once ls ->
  loop_body u hls o ls st = (Ok ls1, st1) ->
  counted_once ls1.
Proof.
  intros Hinv Hbody. apply loop_body_locals in Hbody.
  assert (Hnote : counted_once (note_reconnect (t_read o) ls)).
  { unfold counted_once, note_reconnect in *.
    destruct (reconnect_start_time ls) eqn:E; simpl; [rewrite E; exact Hinv|lia]. }
  destruct (handle_ready u st); [|subst; exact Hnote].
  destruct (read_ret o); [subst; reflexivity|].
  destruct (Qlt_bool _ _); subst; assumption.
Qed.

(** A property of the locals that every pass of the body keeps holds of
    the locals of the loop as long as it goes round. *)
Section LocalsInvariant.
Variable Inv : LoopState -> Prop.
Hypothesis Inv_body : forall u hls o ls ls1 st st1,
  Inv ls -> loop_body u hls o ls st = (Ok ls1, st1) -> Inv ls1.

Lemma capture_while_locals (u hls : string) (obs : list Obs) (ls ls' : LoopState)
    (st st' : State) :
  Inv ls ->
  capture_while u hls obs ls st = (Ok (StillRunning ls'), st') ->
  Inv ls'.
Proof.
  revert ls st. induction obs as [|o obs IH]; intros ls st Hinv Hrun; simpl in Hrun;
    apply bind_inv in Hrun as [(flag & s1 & _ & Hrun)|(e & _ & ?)]; try discriminate;
    (destruct flag; [|discriminate]).
  - injection Hrun as <- _. exact Hinv.
  - apply bind_inv in Hrun as [([ls1 stop] & s2 & Hpass & Hrun)|(e & _ & ?)]; [|discriminate].
    destruct stop; [discriminate|].
    eapply IH; [|exact Hrun].
    apply bind_inv in Hpass as [(ls1' & s3 & Hbody & Hpass)|(e & _ & ?)]; [|discriminate].
    apply bind_inv in Hpass as [(stop & s4 & _ & Hpass)|(e & _ & ?)]; [|discriminate].
    injection Hpass as <- _ _.
    eapply Inv_body; eassumption.
Qed.
End LocalsInvariant.

(** In a loop entered with its counter at zero, the counter never exceeds
    one, and the test on the bound of the attempts never fires. *)
Lemma capture_while_counted_once (u hls : string) (obs : list Obs) (ls ls' : LoopState)
    (st st' : State) :
  counted_once ls ->
  capture_while u hls obs ls st = (Ok (StillRunning ls'), st') ->
  counted_once ls' /\ (max_reconnect_attempts <? reconnect_attempts ls') = false.
Proof.
  intros Hinv Hrun.
  assert (Hinv' : counted_once ls').
  { eapply (capture_while_locals counted_once); [|exact Hinv|exact Hrun].
    intros; eapply loop_body_counted_once; eassumption. }
  split; [exact Hinv'|].
  unfold counted_once in Hinv'. apply Z.ltb_ge. unfold max_reconnect_attempts.
  destruct (reconnect_start_time ls'); lia.
Qed.

(** A stalled iteration made while a reconnect is already under way leaves
    the locals as they are, the counter with them, in every state. *)
Lemma stalled_pass_keeps_locals (u hls : string) (o : Obs) (ls : LoopState) (st : State)
    (started : Q) :
  handle_ready u st = true ->
  read_ret o = false ->
  (1 < t_read o - last_frame_time ls)%Q ->
  reconnect_start_time ls = Some started ->
  exists st1, loop_body u hls o ls st = (Ok ls, st1).
Proof.
  intros Hready Hret Hstale Hstarted.
  apply Qlt_bool_iff in Hstale.
  destruct (reconnect_returns u (reopen_ok o) st) as (b & st1 & Hrec).
  exists st1. unfold loop_body, bind, gets.
  rewrite Hready, Hret, Hstale, Hrec.
  unfold note_reconnect. rewrite Hstarted. reflexivity.
Qed.

(** C6 on two stalled iterations in a row: cam1 runs with its capture
    opened, both reads fail more than a second after the last frame, and
    both reconnects open the capture again.  The first iteration records
    the start of the reconnect and counts one attempt; the second is
    stalled in the same way and leaves the counter at one. *)
Theorem second_stalled_iteration_not_counted :
  let hls := hls_output "cam1" in
  let o1 := Scenario.failed_read 2 true 3 in
  let o2 := Scenario.failed_read 4 true 5 in
  let pass1 := loop_body "cam1" hls o1 Scenario.fresh_loop Scenario.cam1_live in
  let ls1 := mkLoop (Some 2%Q) 1 0 0 in
  let pass2 := loop_body "cam1" hls o2 ls1 (snd pass1) in
  handle_ready "cam1" Scenario.cam1_live = true /\
  (1 < t_read o1 - last_frame_time Scenario.fresh_loop)%Q /\
  fst pass1 = Ok ls1 /\
  handle_ready "cam1" (snd pass1) = true /\
  (1 < t_read o2 - last_frame_time ls1)%Q /\
  fst pass2 = Ok ls1 /\
  reconnect_attempts ls1 = 1 /\
  fst (_capture_loop "cam1" true 0 0 [o1; o2] Scenario.cam1_live) = Ok (StillRunning ls1).
Proof. vm_compute. repeat split. Qed.

(** *** Stop *)

(** A stop call for a stream that is not running changes nothing. *)
Lemma stop_server_not_running (u : string) (st : State) :
  check_server_status u st = false ->
  stop_server u st = (Ok (false, "Server not running"), st).
Proof.
  unfold check_server_status, stop_server. unfold_py.
  intros ->. reflexivity.
Qed.

(** A stop call for a running stream whose handle is held, with a capture
    thread that has nothing left to do at the join: the handle is
    released, the blob deleted, the configuration made inactive, and a
    second call reports that the server is not running. *)
Lemma stop_server_running (u : string) (st : State) (config : VideoCapConfig) (c : Cap) :
  check_server_status u st = true ->
  caps st !! u = Some (Some c) ->
  configs st !! u = Some config ->
  exists st',
    stop_server u st = (Ok (true, "Server stopped successfully"), st') /\
    caps st' !! u = None /\
    redis st' !! image_key u = None /\
    configs st' !! u = Some (with_active false config) /\
    db_configs st' !! rtmp_url config = Some (with_active false config) /\
    capture_threads st' !! u = None /\
    In (CapRelease u) (log st') /\
    stop_server u st' = (Ok (false, "Server not running"), st').
Proof.
  intros Hbusy Hcap Hconfig.
  unfold check_server_status in Hbusy.
  assert (Hstop : exists st',
    stop_server u st = (Ok (true, "Server stopped successfully"), st') /\
    caps st' = delete u (caps st) /\
    redis st' = delete (image_key u) (redis st) /\
    configs st' = <[u := with_active false config]> (configs st) /\
    db_configs st' = <[rtmp_url config := with_active false config]> (db_configs st) /\
    capture_threads st' = delete u (capture_threads st) /\
    In (CapRelease u) (log st') /\
    running st' = <[u := false]> (running st)).
  { unfold stop_server, save_config, emit. unfold_py. rewrite Hbusy. simpl.
    destruct (bool_decide (is_Some (capture_threads st !! u))) eqn:Hthread; simpl;
      rewrite Hcap; simpl; rewrite Hconfig; simpl;
      eexists; repeat split; simpl;
      rewrite ?in_app_iff; simpl; auto 7.
    rewrite delete_id; [reflexivity|].
    apply bool_decide_eq_false in Hthread.
    destruct (capture_threads st !! u) eqn:E; [|reflexivity].
    exfalso. apply Hthread. eauto. }
  destruct Hstop as (st' & Hrun & Hcaps & Hredis & Hconfigs & Hdb & Hthreads & Hlog & Hflag).
  exists st'. split; [exact Hrun|].
  rewrite Hcaps, Hredis, Hconfigs, Hdb, Hthreads.
  rewrite !lookup_delete_eq, !lookup_insert_eq.
  repeat split; try assumption.
  apply stop_server_not_running. unfold check_server_status.
  rewrite Hflag, lookup_insert_eq. reflexivity.
Qed.

(** C7 on a stream whose source does not open: cam1 was started, its
    capture did not open, the loop made one reconnect that did not open it
    either, so that the service holds None for the stream.  The stop call
    finds the stream running, clears the flag, joins the thread and then
    raises AttributeError on the release; the configuration stays active in
    the service and in its table, and the blob of cam1 stays in the store.
    The second call reports that the server is not running. *)
Theorem stop_server_raises_on_unopened_capture :
  let started := snd (_capture_loop "cam1" true 0 0 [Scenario.failed_read 0 false 1]
                                    Scenario.cam1_dead) in
  let stop := stop_server "cam1" started in
  check_server_status "cam1" started = true /\
  caps started !! "cam1" = Some None /\
  fst stop = Raise AttributeError /\
  is_active <$> configs (snd stop) !! "cam1" = Some true /\
  is_active <$> db_configs (snd stop) !! "cam1" = Some true /\
  redis (snd stop) !! image_key "cam1" = Some (imencode Scenario.vga) /\
  fst (stop_server "cam1" (snd stop)) = Ok (false, "Server not running").
Proof. vm_compute. repeat split. Qed.

(** *** Clip records *)

Lemma escalate_clips (u : string) (o : Obs) (ls : LoopState) :
  preserves db_clips (escalate u o ls).
Proof. unfold escalate, emit. preserve. Qed.

Lemma note_reconnect_window (now : Q) (ls : LoopState) :
  video_clip_start_time (note_reconnect now ls) = video_clip_start_time ls.
Proof. unfold note_reconnect. destruct (reconnect_start_time ls); reflexivity. Qed.

(** A reconnect returns, and leaves the configurations and the table of
    clips alone. *)
Lemma reconnect_keeps_clips (u : string) (opens : bool) (s : State) :
  exists b s1,
    _reconnect u opens s = (Ok b, s1) /\
    db_clips s1 = db_clips s /\ configs s1 = configs s.
Proof.
  destruct (reconnect_returns u opens s) as (b & s1 & Hrec).
  pose proof (reconnect_preserved db_clips (fun _ _ => eq_refl) (fun _ _ => eq_refl)
                u opens s) as Hclips.
  pose proof (reconnect_preserved configs (fun _ _ => eq_refl) (fun _ _ => eq_refl)
                u opens s) as Hconfigs.
  rewrite Hrec in Hclips, Hconfigs. eauto.
Qed.

(** One pass of the body, for a stream that has its configuration: it
    returns; it commits one record when a frame is read the nominal
    duration or more after the start of the window, and none otherwise;
    the window restarts at the time of the read when a record is
    committed, and stays where it is otherwise. *)
Lemma loop_body_commit (u hls : string) (o : Obs) (ls : LoopState) (st : State)
    (config : VideoCapConfig) :
  configs st !! u = Some config ->
  exists ls1 st1,
    loop_body u hls o ls st = (Ok ls1, st1) /\
    configs st1 = configs st /\
    db_clips st1
    = (db_clips st
       ++ if commit_due u o ls st
          then [window_record (rtmp_url config) hls (video_clip_start_time ls) o]
          else [])%list /\
    video_clip_start_time ls1
    = (if commit_due u o ls st then t_read o else video_clip_start_time ls).
Proof.
  intros Hconfig. unfold commit_due.
  destruct (handle_ready u st) eqn:Hready;
    [destruct (read_ret o) eqn:Hret;
     [destruct (Qle_bool video_clip_duration (t_read o - video_clip_start_time ls)) eqn:Hdue|]|];
    cbn [andb].
  - (* a frame is read and the window is over *)
    unfold loop_body, bind, gets. rewrite Hready, Hret, Hdue.
    unfold _save_video_clip_metadata, bind, subscript, modify, ret. rewrite Hconfig.
    do 2 eexists. split; [reflexivity|]. repeat split.
  - (* a frame is read within the window *)
    unfold loop_body, bind, gets, ret. rewrite Hready, Hret, Hdue.
    do 2 eexists. split; [reflexivity|]. rewrite app_nil_r. repeat split.
  - (* the read fails *)
    unfold loop_body, bind, gets. rewrite Hready, Hret.
    destruct (Qlt_bool 1 (t_read o - last_frame_time ls)).
    + destruct (reconnect_keeps_clips u (reopen_ok o) st) as (b & s1 & -> & Hclips & Hconfigs).
      do 2 eexists. split; [reflexivity|]. rewrite app_nil_r.
      split; [exact Hconfigs|]. split; [exact Hclips|apply note_reconnect_window].
    + do 2 eexists. split; [reflexivity|]. rewrite app_nil_r. repeat split.
  - (* there is no capture to read from *)
    unfold loop_body, bind, gets. rewrite Hready.
    destruct (reconnect_keeps_clips u (reopen_ok o) st) as (b & s1 & -> & Hclips & Hconfigs).
    do 2 eexists. split; [reflexivity|]. rewrite app_nil_r.
    split; [exact Hconfigs|]. split; [exact Hclips|apply note_reconnect_window].
Qed.

(** The same for one iteration, with its test for giving up; an iteration
    that does not break leaves the configuration in place. *)
Lemma capture_pass_commit (u hls : string) (o : Obs) (ls : LoopState) (st : State)
    (config : VideoCapConfig) :
  configs st !! u = Some config ->
  exists ls1 stop st1,
    capture_pass u hls o ls st = (Ok (ls1, stop), st1) /\
    db_clips st1
    = (db_clips st
       ++ if commit_due u o ls st
          then [window_record (rtmp_url config) hls (video_clip_start_time ls) o]
          else [])%list /\
    video_clip_start_time ls1
    = (if commit_due u o ls st then t_read o else video_clip_start_time ls) /\
    (stop = false -> configs st1 !! u = Some config).
Proof.
  intros Hconfig.
  destruct (loop_body_commit u hls o ls st config Hconfig)
    as (ls1 & s1 & Hbody & Hconfigs & Hclips & Hwindow).
  assert (Hconfig1 : configs s1 !! u = Some config) by (rewrite Hconfigs; exact Hconfig).
  unfold capture_pass. unfold bind at 1. rewrite Hbody.
  unfold escalate.
  destruct (reconnect_start_time ls1) as [started|].
  - destruct (Qlt_bool reconnect_timeout (t_check o - started)
              || (max_reconnect_attempts <? reconnect_attempts ls1)).
    + unfold bind, ret. rewrite (set_inactive_spec u config s1 Hconfig1).
      do 3 eexists. split; [reflexivity|]. simpl.
      split; [exact Hclips|]. split; [exact Hwindow|discriminate].
    + do 3 eexists. split; [reflexivity|]. auto.
  - do 3 eexists. split; [reflexivity|]. auto.
Qed.

(** The records of a run are those of the windows closed one after the
    other by some of its reads, each of which came the nominal duration
    or more after the start of its window. *)
Lemma capture_while_commits (u hls : string) (obs : list Obs) (ls : LoopState)
    (st st' : State) (r : res LoopEnd) (config : VideoCapConfig) :
  configs st !! u = Some config ->
  capture_while u hls obs ls st = (r, st') ->
  exists commits,
    sublist commits obs /\
    db_clips st'
    = (db_clips st
       ++ records_from (rtmp_url config) hls (video_clip_start_time ls) commits)%list /\
    windows_due (video_clip_start_time ls) commits /\
    (forall ls', r = Ok (StillRunning ls') ->
       video_clip_start_time ls' = last_read (video_clip_start_time ls) commits).
Proof.
  revert ls st. induction obs as [|o obs IH]; intros ls st Hconfig Hrun.
  - exists []. split; [constructor|]. simpl. rewrite app_nil_r.
    simpl in Hrun. unfold bind, subscript, ret in Hrun.
    destruct (running st !! u) as [[|]|]; injection Hrun as <- <-;
      repeat split; try discriminate.
    intros ls' H. injection H as <-. reflexivity.
  - simpl in Hrun. unfold bind at 1 in Hrun. unfold subscript at 1 in Hrun.
    destruct (running st !! u) as [[|]|].
    + destruct (capture_pass_commit u hls o ls st config Hconfig)
        as (ls1 & stop & s1 & Hpass & Hclips & Hwindow & Hkeep).
      unfold bind at 1 in Hrun. rewrite Hpass in Hrun.
      assert (Hdue : commit_due u o ls st = true ->
                     (video_clip_duration <= t_read o - video_clip_start_time ls)%Q).
      { unfold commit_due. intros H. apply andb_true_iff in H as [_ H].
        apply Qle_bool_iff, H. }
      destruct stop.
      * (* the iteration breaks *)
        injection Hrun as <- <-.
        destruct (commit_due u o ls st).
        -- exists [o]. split; [apply sublist_skip, sublist_nil_l|].
           split; [exact Hclips|]. split; [simpl; auto|discriminate].
        -- exists []. split; [apply sublist_nil_l|].
           split; [exact Hclips|]. split; [exact I|discriminate].
      * (* the loop goes on *)
        destruct (IH ls1 s1 (Hkeep eq_refl) Hrun)
          as (commits & Hsub & Hclips' & Hdue' & Hlast).
        rewrite Hclips', Hclips, Hwindow. rewrite Hwindow in Hdue', Hlast.
        destruct (commit_due u o ls st).
        -- exists (o :: commits). split; [apply sublist_skip, Hsub|].
           split; [rewrite <- app_assoc; reflexivity|].
           split; [simpl; auto|exact Hlast].
        -- exists commits. split; [apply sublist_cons, Hsub|].
           rewrite app_nil_r. auto.
    + injection Hrun as <- <-. exists []. split; [apply sublist_nil_l|].
      simpl. rewrite app_nil_r. repeat split; discriminate.
    + injection Hrun as <- <-. exists []. split; [apply sublist_nil_l|].
      simpl. rewrite app_nil_r. repeat split; discriminate.
Qed.

(** **** Datetimes and timedeltas *)

Lemma datetime_at_bounds (t : Q) :
  (inject_Z (datetime_at t) <= t * 1000000 < inject_Z (datetime_at t) + 1)%Q.
Proof.
  unfold datetime_at. split; [apply Qfloor_le|].
  pose proof (Qlt_floor (t * 1000000)) as H.
  rewrite inject_Z_plus in H. exact H.
Qed.

(** A timedelta is within half a microsecond of the seconds it is made
    from. *)
Lemma timedelta_seconds_near (d : Q) :
  (- (1 # 2) <= inject_Z (timedelta_seconds d) - d * 1000000 <= 1 # 2)%Q.
Proof.
  unfold timedelta_seconds.
  pose proof (Qfloor_le (d * 1000000)) as Hlow.
  pose proof (Qlt_floor (d * 1000000)) as Hhigh.
  rewrite inject_Z_plus in Hhigh. change (inject_Z 1) with 1%Q in Hhigh.
  set (x := (d * 1000000)%Q) in *. set (f := Qfloor x) in *.
  clearbody f. clearbody x.
  destruct (Qcompare_spec (x - inject_Z f) (1 # 2)) as [Heq|Hlt|Hgt].
  - destruct (Z.even f); rewrite ?inject_Z_plus; change (inject_Z 1) with 1%Q;
      split; lra.
  - split; lra.
  - rewrite inject_Z_plus. change (inject_Z 1) with 1%Q. split; lra.
Qed.

(** A whole number of microseconds is its own timedelta. *)
Lemma timedelta_seconds_whole (d : Q) (n : Z) :
  (d * 1000000 == inject_Z n)%Q -> timedelta_seconds d = n.
Proof.
  intros Hd. unfold timedelta_seconds.
  assert (Hf : Qfloor (d * 1000000) = n)
    by (rewrite (Qfloor_comp _ _ Hd); apply Qfloor_Z).
  rewrite Hf.
  destruct (Qcompare_spec (d * 1000000 - inject_Z n) (1 # 2)) as [Heq|Hlt|Hgt].
  - exfalso. rewrite Hd in Heq. lra.
  - reflexivity.
  - exfalso. rewrite Hd in Hgt. lra.
Qed.

Lemma Qlt_inject_Z_inv (a b : Z) : (inject_Z a < inject_Z b)%Q -> a < b.
Proof. unfold Qlt. simpl. lia. Qed.

(** A record committed at the read itself starts within a microsecond of
    the datetime at which its window began. *)
Lemma window_start_near (t0 t : Q) :
  Z.abs (datetime_at t - timedelta_seconds (t - t0) - datetime_at t0) <= 1.
Proof.
  pose proof (datetime_at_bounds t) as [Ht1 Ht2].
  pose proof (datetime_at_bounds t0) as [Hs1 Hs2].
  pose proof (timedelta_seconds_near (t - t0)) as [Hd1 Hd2].
  set (a := datetime_at t) in *. set (b := datetime_at t0) in *.
  set (k := timedelta_seconds (t - t0)) in *.
  clearbody a b k.
  assert (Hlow : (inject_Z (-2) < inject_Z (a - k - b))%Q).
  { unfold Z.sub. rewrite !inject_Z_plus, !inject_Z_opp.
    change (inject_Z (-2)) with (-2)%Q. lra. }
  assert (Hhigh : (inject_Z (a - k - b) < inject_Z 2)%Q).
  { unfold Z.sub. rewrite !inject_Z_plus, !inject_Z_opp.
    change (inject_Z 2) with 2%Q. lra. }
  apply Qlt_inject_Z_inv in Hlow, Hhigh. lia.
Qed.

(** On whole microseconds it starts at that datetime exactly. *)
Lemma window_start_exact (t0 t : Q) :
  whole_microseconds t0 -> whole_microseconds t ->
  datetime_at t - timedelta_seconds (t - t0) - datetime_at t0 = 0.
Proof.
  unfold whole_microseconds. intros H0 Ht.
  rewrite (timedelta_seconds_whole (t - t0) (datetime_at t - datetime_at t0)); [lia|].
  unfold Z.sub. rewrite inject_Z_plus, inject_Z_opp, H0, Ht. ring.
Qed.

(** **** The records of consecutive windows *)

Lemma total_duration_app (a b : list CurrentVideoClip) :
  (total_duration (a ++ b) == total_duration a + total_duration b)%Q.
Proof.
  induction a as [|c a IH]; simpl; [ring|]. rewrite IH. ring.
Qed.

Lemma records_durations (stream hls : string) (t0 : Q) (commits : list Obs) :
  windows_due t0 commits ->
  Forall (fun c => (video_clip_duration <= duration c)%Q)
         (records_from stream hls t0 commits).
Proof.
  revert t0. induction commits as [|o commits IH]; intros t0 Hdue; simpl.
  - constructor.
  - destruct Hdue as [Ho Hrest]. constructor; [exact Ho|apply IH, Hrest].
Qed.

Lemma records_total (stream hls : string) (t0 : Q) (commits : list Obs) :
  (total_duration (records_from stream hls t0 commits) == last_read t0 commits - t0)%Q.
Proof.
  revert t0. induction commits as [|o commits IH]; intros t0; simpl.
  - unfold last_read. simpl. ring.
  - rewrite IH. unfold last_read. simpl. ring.
Qed.

Lemma records_chain_near (stream hls : string) (t0 : Q) (commits : list Obs) :
  Forall instant_commit commits ->
  chain_within 1 (datetime_at t0) (records_from stream hls t0 commits).
Proof.
  revert t0. induction commits as [|o commits IH]; intros t0 Hall; simpl; [exact I|].
  inversion Hall as [|? ? [Hstart Hend] Hrest]; subst.
  rewrite Hstart, Hend. split; [apply window_start_near|apply IH, Hrest].
Qed.

Lemma records_chain_exact (stream hls : string) (t0 : Q) (commits : list Obs) :
  whole_microseconds t0 ->
  Forall instant_commit commits ->
  Forall (fun o => whole_microseconds (t_read o)) commits ->
  chain_within 0 (datetime_at t0) (records_from stream hls t0 commits).
Proof.
  revert t0. induction commits as [|o commits IH]; intros t0 Ht0 Hall Hwhole; simpl;
    [exact I|].
  inversion Hall as [|? ? [Hstart Hend] Hrest]; subst.
  inversion Hwhole as [|? ? Ho Hwhole']; subst.
  rewrite Hstart, Hend. split.
  - rewrite (window_start_exact t0 (t_read o) Ht0 Ho). simpl. lia.
  - apply IH; assumption.
Qed.

Lemma sublist_Forall_keeps {A} (P : A -> Prop) (l1 l2 : list A) :
  sublist l1 l2 -> Forall P l2 -> Forall P l1.
Proof.
  induction 1 as [|x l1 l2 _ IH|x l1 l2 _ IH]; intros Hall.
  - constructor.
  - inversion Hall; subst. constructor; auto.
  - inversion Hall; subst. auto.
Qed.

(** A read that comes at least the nominal duration after the start of the
    window closes it: after the pass the last frame lies within the
    current window again. *)
Lemma loop_body_window_young (u hls : string) (o : Obs) (ls ls1 : LoopState)
    (st st1 : State) :
  window_young ls ->
  loop_body u hls o ls st = (Ok ls1, st1) ->
  window_young ls1.
Proof.
  intros Hyoung Hbody. apply loop_body_locals in Hbody.
  assert (Hnote : window_young (note_reconnect (t_read o) ls)).
  { unfold note_reconnect. destruct (reconnect_start_time ls); exact Hyoung. }
  destruct (handle_ready u st); [|subst; exact Hnote].
  destruct (read_ret o).
  - destruct (Qle_bool video_clip_duration (t_read o - video_clip_start_time ls)) eqn:Hdue;
      subst ls1; unfold window_young, video_clip_duration in *; simpl.
    + lra.
    + apply Qnot_le_lt. intros Hle. apply Qle_bool_iff in Hle. congruence.
  - destruct (Qlt_bool _ _); subst; assumption.
Qed.

(** C9, as amended, for a stream that has its configuration.

    One iteration of the loop commits a record exactly when a frame is read
    the nominal duration or more after the start of the window; the record
    is that of the window, and the next window begins at the time of that
    read.  Otherwise nothing is committed and the window stays.

    The records of a run are those of the windows closed one after the
    other by some of its reads, each window beginning at the read that
    closed the one before: the windows lie end to end.  Each record has a
    duration of at least the nominal one; while the loop goes on the
    durations add up to the time from the start of the first window to
    the start of the current one, and no window stays open past a read
    that is due to close it.

    The stored times are datetimes read at the commit.  When the clock does
    not move between a read and the two clock reads of its commit, each
    record starts within one microsecond of the end of the one before
    (the first within one microsecond of the start of the first window),
    and exactly at it when the reads fall on whole microseconds. *)
Theorem clip_windows_end_to_end (u hls : string) (obs : list Obs) (ls : LoopState)
    (st st' : State) (r : res LoopEnd) (config : VideoCapConfig) :
  configs st !! u = Some config ->
  capture_while u hls obs ls st = (r, st') ->
  (forall o ls0 s0,
     configs s0 !! u = Some config ->
     exists ls1 stop s1,
       capture_pass u hls o ls0 s0 = (Ok (ls1, stop), s1) /\
       db_clips s1
       = (db_clips s0
          ++ if commit_due u o ls0 s0
             then [window_record (rtmp_url config) hls (video_clip_start_time ls0) o]
             else [])%list /\
       video_clip_start_time ls1
       = (if commit_due u o ls0 s0 then t_read o else video_clip_start_time ls0)) /\
  exists commits,
    let clips := records_from (rtmp_url config) hls (video_clip_start_time ls) commits in
    sublist commits obs /\
    db_clips st' = (db_clips st ++ clips)%list /\
    Forall (fun c => (video_clip_duration <= duration c)%Q) clips /\
    (forall ls', r = Ok (StillRunning ls') ->
       (total_duration clips == video_clip_start_time ls' - video_clip_start_time ls)%Q /\
       (window_young ls -> window_young ls')) /\
    (Forall instant_commit obs ->
       chain_within 1 (datetime_at (video_clip_start_time ls)) clips) /\
    (Forall instant_commit obs ->
     whole_microseconds (video_clip_start_time ls) ->
     Forall (fun o => whole_microseconds (t_read o)) obs ->
       chain_within 0 (datetime_at (video_clip_start_time ls)) clips).
Proof.
  intros Hconfig Hrun. split.
  - intros o ls0 s0 Hconfig0.
    destruct (capture_pass_commit u hls o ls0 s0 config Hconfig0)
      as (ls1 & stop & s1 & Hpass & Hclips & Hwindow & _).
    exists ls1, stop, s1. auto.
  - destruct (capture_while_commits u hls obs ls st st' r config Hconfig Hrun)
      as (commits & Hsub & Hclips & Hdue & Hlast).
    exists commits. cbv zeta.
    split; [exact Hsub|]. split; [exact Hclips|].
    split; [apply records_durations, Hdue|]. split; [|split].
    + intros ls' Hls'. split.
      * rewrite (Hlast ls' Hls'). apply records_total.
      * intros Hyoung. subst r.
        eapply (capture_while_locals window_young); [|exact Hyoung|exact Hrun].
        intros; eapply loop_body_window_young; eassumption.
    + intros Hall. apply records_chain_near.
      exact (sublist_Forall_keeps _ _ _ Hsub Hall).
    + intros Hall Hws Hwhole. apply records_chain_exact; [exact Hws| |].
      * exact (sublist_Forall_keeps _ _ _ Hsub Hall).
      * exact (sublist_Forall_keeps _ _ _ Hsub Hwhole).
Qed.

Lemma clip_windows_end_to_end_witness :
  let obs := [Scenario.good_read 30 30 30; Scenario.good_read 61 61 61] in
  let run := capture_while "cam1" (hls_output "cam1") obs Scenario.fresh_loop
                           Scenario.cam1_live in
  configs Scenario.cam1_live !! "cam1" = Some (mkConfig 1 "Config_1" "cam1" true 1) /\
  capture_while "cam1" (hls_output "cam1") obs Scenario.fresh_loop Scenario.cam1_live
    = (fst run, snd run) /\
  Forall instant_commit obs /\
  whole_microseconds (video_clip_start_time Scenario.fresh_loop) /\
  Forall (fun o => whole_microseconds (t_read o)) obs /\
  exists commits,
    let clips := records_from "cam1" (hls_output "cam1") 0 commits in
    db_clips (snd run) = (db_clips Scenario.cam1_live ++ clips)%list /\
    Forall (fun c => (video_clip_duration <= duration c)%Q) clips /\
    chain_within 0 0 clips.
Proof.
  intros obs run.
  assert (Hconfig : configs Scenario.cam1_live !! "cam1"
                    = Some (mkConfig 1 "Config_1" "cam1" true 1))
    by (vm_compute; reflexivity).
  assert (Hrun : capture_while "cam1" (hls_output "cam1") obs Scenario.fresh_loop
                               Scenario.cam1_live = (fst run, snd run))
    by (vm_compute; reflexivity).
  assert (Hall : Forall instant_commit obs) by (repeat constructor).
  assert (Hws : whole_microseconds (video_clip_start_time Scenario.fresh_loop))
    by (vm_compute; reflexivity).
  assert (Hwhole : Forall (fun o => whole_microseconds (t_read o)) obs)
    by (repeat constructor; vm_compute; reflexivity).
  split; [exact Hconfig|]. split; [exact Hrun|]. split; [exact Hall|].
  split; [exact Hws|]. split; [exact Hwhole|].
  destruct (clip_windows_end_to_end "cam1" (hls_output "cam1") obs Scenario.fresh_loop
              Scenario.cam1_live (snd run) (fst run) _ Hconfig Hrun)
    as (_ & commits & _ & Hclips & Hlong & _ & _ & Hexact).
  exists commits. split; [exact Hclips|]. split; [exact Hlong|].
  exact (Hexact Hall Hws Hwhole).
Defined.

(** C9, as stated, fails.  First run: cam1 reads frames at 30 s and at
    60.5 s; the clock shows 1 ms more at the first clock read of each commit
    and 2 ms more at the second.  Two records are committed; the first ends
    at 30.002 s and the second starts at 30.001 s, before the first ends.
    Second run: the clock does not move during a commit, and the reads come
    at 30 s and at 60.5 s and 0.6 microseconds.  The duration of the second
    record, 30.5000006 s, is rounded up to the microsecond when it is taken
    off the datetime of the commit: the second record starts one
    microsecond before the first ends. *)
Lemma clip_records_overlap :
  let late := [Scenario.good_read 30 (30001 # 1000) (30002 # 1000);
               Scenario.good_read (121 # 2) (60501 # 1000) (60502 # 1000)] in
  let fine := [Scenario.good_read 30 30 30;
               Scenario.good_read (605000006 # 10000000) (605000006 # 10000000)
                                  (605000006 # 10000000)] in
  (exists a b,
     db_clips (snd (_capture_loop "cam1" true 0 0 late Scenario.cam1_live)) = [a; b] /\
     end_time a = 30002000 /\ start_time b = 30001000 /\
     end_time a <> start_time b /\
     start_time b < end_time a) /\
  Forall instant_commit fine /\
  (exists a b,
     db_clips (snd (_capture_loop "cam1" true 0 0 fine Scenario.cam1_live)) = [a; b] /\
     end_time a = 30000000 /\ start_time b = 29999999 /\
     start_time b < end_time a).
Proof.
  split; [|split].
  - do 2 eexists. split; [vm_compute; reflexivity|]. vm_compute. repeat split; congruence.
  - repeat constructor.
  - do 2 eexists. split; [vm_compute; reflexivity|]. vm_compute. repeat split.
Qed.

End CaptureProofs.

(** * Further properties of the two services *)

Section Along.
Context {S : Type} (R : S -> S -> Prop).
Hypothesis R_refl : forall s, R s s.
Hypothesis R_trans : forall s1 s2 s3, R s1 s2 -> R s2 s3 -> R s1 s3.

Lemma along_ret {A} (a : A) : along R (ret a).
Proof. intros s. apply R_refl. Qed.

Lemma along_raise {A} (e : exn) : along R (@raise S A e).
Proof. intros s. apply R_refl. Qed.

Lemma along_gets {A} (f : S -> A) : along R (gets f).
Proof. intros s. apply R_refl. Qed.

Lemma along_subscript {V} (d : S -> gmap string V) (k : string) :
  along R (subscript d k).
Proof. intros s. unfold subscript. destruct (d s !! k); apply R_refl. Qed.

Lemma along_modify (f : S -> S) : (forall s, R s (f s)) -> along R (modify f).
Proof. intros Hf s. apply Hf. Qed.

Lemma along_bind {A B} (m : M S A) (k : A -> M S B) :
  along R m -> (forall a, along R (k a)) -> along R (bind m k).
Proof.
  intros Hm Hk s. unfold bind.
  specialize (Hm s). destruct (m s) as [[a|e] s']; simpl in *.
  - exact (R_trans _ _ _ Hm (Hk a s')).
  - exact Hm.
Qed.

Lemma along_when (b : bool) (m : M S unit) : along R m -> along R (when b m).
Proof. intros Hm. destruct b; [exact Hm|apply along_ret]. Qed.

Lemma along_try_except {A} (m : M S A) (h : exn -> M S A) :
  along R m -> (forall e, along R (h e)) -> along R (try_except m h).
Proof.
  intros Hm Hh s. unfold try_except.
  specialize (Hm s). destruct (m s) as [[a|e] s']; simpl in *.
  - exact Hm.
  - exact (R_trans _ _ _ Hm (Hh e s')).
Qed.
End Along.

Create HintDb py_along.

(** Walks through a method body for a relation that is reflexive and
    transitive; [tac] proves these two facts and the steps of the updates,
    and the blocks already dealt with are looked up in the hint database. *)
Ltac along_step tac :=
  first
    [ solve [auto 1 with py_along nocore]
    | apply along_ret; solve [tac]
    | apply along_raise; solve [tac]
    | apply along_gets; solve [tac]
    | apply along_subscript; solve [tac]
    | apply along_bind; [solve [tac] | | intros ?]
    | apply along_when
    | apply along_try_except; [solve [tac] | | intros ?]
    | apply along_modify; solve [tac]
    | match goal with
      | |- along _ (match ?t with _ => _ end) => destruct t
      end ].

Ltac walk_along tac := repeat (along_step tac).

(** ** More on the capture service *)

Module CaptureMore.
Import VideoCap CaptureProofs.

(** *** Streams do not touch one another *)

Lemma append_cancel (p a b : string) : p +:+ a = p +:+ b -> a = b.
Proof.
  induction p as [|c p IH]; simpl; intros H; [exact H|].
  injection H as H. exact (IH H).
Qed.

Lemma image_key_inj (u v : string) : image_key u = image_key v -> u = v.
Proof. unfold image_key. apply append_cancel. Qed.

(** An update at the entries of [u] does not show in the view of [v]. *)
Ltac other_stream :=
  unfold stream_view, set_configs, set_caps, set_running, set_capture_threads,
         set_redis, set_db_configs, set_db_clips, set_threads_started;
  simpl;
  rewrite ?lookup_insert_ne, ?lookup_delete_ne by assumption;
  reflexivity.

Ltac preserve_view :=
  repeat first [ preserve_step
               | apply preserves_modify; intros ?; other_stream ].

Section OtherStream.
Variables u v : string.
Hypothesis Hother : u <> v.

Let Hkey : image_key u <> image_key v.
Proof. intros H. apply Hother, image_key_inj, H. Qed.

Lemma initialize_capture_other (opens : bool) :
  preserves (stream_view v) (_initialize_capture u opens).
Proof. unfold _initialize_capture, release_if_held, emit. preserve_view. Qed.
Hint Resolve initialize_capture_other : py_preserves.

Lemma reconnect_other (opens : bool) : preserves (stream_view v) (_reconnect u opens).
Proof. unfold _reconnect, release_if_held, emit. preserve_view. Qed.
Hint Resolve reconnect_other : py_preserves.

Lemma set_inactive_other : preserves (stream_view v) (_set_inactive u).
Proof. unfold _set_inactive, save_config, release_if_held, emit. preserve_view. Qed.
Hint Resolve set_inactive_other : py_preserves.

Lemma start_server_other (defaults : VideoCapConfig) (opens : bool) :
  preserves (stream_view v) (start_server defaults u opens).
Proof.
  unfold start_server, start_check, start_register, get_or_create, save_config,
         start_launch, emit.
  preserve_view.
Qed.

Lemma stop_server_other : preserves (stream_view v) (stop_server u).
Proof. unfold stop_server, save_config, emit. preserve_view. Qed.

Lemma loop_body_other (hls : string) (o : Obs) (ls : LoopState) :
  preserves (stream_view v) (loop_body u hls o ls).
Proof.
  unfold loop_body, _save_video_clip_metadata. preserve_view.
Qed.

Lemma escalate_other (o : Obs) (ls : LoopState) :
  preserves (stream_view v) (escalate u o ls).
Proof. unfold escalate. preserve_view. Qed.

Lemma capture_loop_other (popen_ok : bool) (t0 t1 : Q) (obs : list Obs) :
  preserves (stream_view v) (_capture_loop u popen_ok t0 t1 obs).
Proof.
  assert (Hloop : forall hls ls,
            preserves (stream_view v) (capture_while u hls obs ls)).
  { intros hls ls s.
    apply (capture_while_along (fun s s' => stream_view v s' = stream_view v s)).
    - reflexivity.
    - intros s1 s2 s3 H12 H23. congruence.
    - intros o ls' s'. apply loop_body_other.
    - intros o ls' s'. apply escalate_other. }
  unfold _capture_loop, capture_try, emit. preserve_view.
Qed.
End OtherStream.

(** *** No capture handle is lost *)

Lemma live_handles_app (u : string) (l1 l2 : list Effect) :
  live_handles u (l1 ++ l2) = live_handles u l1 + live_handles u l2.
Proof.
  induction l1 as [|e l1 IH]; simpl; [reflexivity|]. rewrite IH. lia.
Qed.

Lemma same_source_cap_source (a b : string) :
  same_source (cap_source a) (cap_source b) = String.eqb a b.
Proof.
  unfold cap_source.
  destruct (String.eqb_spec a "0") as [->|Ha], (String.eqb_spec b "0") as [->|Hb];
    cbn [same_source]; try reflexivity;
    match goal with
    | |- false = String.eqb ?x ?y => destruct (String.eqb_spec x y); congruence
    end.
Qed.

Lemma handles_follow_refl (s : State) : handles_follow s s.
Proof. intros u. lia. Qed.

Lemma handles_follow_trans (s1 s2 s3 : State) :
  handles_follow s1 s2 -> handles_follow s2 s3 -> handles_follow s1 s3.
Proof. intros H12 H23 u. specialize (H12 u). specialize (H23 u). lia. Qed.

Lemma handles_follow_same (s s' : State) :
  caps s' = caps s -> log s' = log s -> handles_follow s s'.
Proof. intros Hcaps Hlog u. unfold holds_handle. rewrite Hcaps, Hlog. lia. Qed.

Lemma handles_follow_log_only (s s' : State) (e : Effect) :
  caps s' = caps s ->
  log s' = (log s ++ [e])%list ->
  (forall u, handle_delta u e = 0) ->
  handles_follow s s'.
Proof.
  intros Hcaps Hlog Hzero u. unfold holds_handle.
  rewrite Hcaps, Hlog, live_handles_app. simpl. rewrite Hzero. lia.
Qed.

(** The steps that touch the handle of one stream [v]: the log grows by
    [l], whose balance for [v] is the change of what is held for [v]. *)
Lemma handles_follow_at (v : string) (l : list Effect) (s s' : State) :
  log s' = (log s ++ l)%list ->
  (forall u, u <> v -> caps s' !! u = caps s !! u) ->
  (forall u, live_handles u l
             = if String.eqb v u
               then (if holds_handle v s' then 1 else 0) - (if holds_handle v s then 1 else 0)
               else 0) ->
  handles_follow s s'.
Proof.
  intros Hlog Hcaps Hbalance u.
  rewrite Hlog, live_handles_app, Hbalance.
  destruct (String.eqb_spec v u) as [->|Hne]; [lia|].
  unfold holds_handle. rewrite (Hcaps u) by congruence. lia.
Qed.

Ltac follow :=
  first
    [ exact handles_follow_refl
    | exact handles_follow_trans
    | intros ?; apply handles_follow_same; reflexivity
    | intros ?; eapply handles_follow_log_only;
      [reflexivity | reflexivity | intros ?; reflexivity] ].

(** Settles the balance of a list of effects on stream [v], as seen from
    any stream. *)
Ltac balance v :=
  intros u'; simpl; unfold holds_handle; simpl;
  rewrite ?same_source_cap_source, ?lookup_insert_eq, ?lookup_delete_eq;
  destruct (String.eqb v u'); simpl; lia.

Lemma initialize_capture_follows (v : string) (opens : bool) :
  along handles_follow (_initialize_capture v opens).
Proof.
  intros s. unfold _initialize_capture, release_if_held, emit. unfold_py.
  destruct (holds_handle v s) eqn:Hheld; simpl.
  - apply (handles_follow_at v [CapRelease v; CapOpen (cap_source v) opens]).
    + simpl. rewrite <- app_assoc. reflexivity.
    + intros u Hne. simpl. apply lookup_insert_ne. congruence.
    + rewrite Hheld. destruct opens; balance v.
  - apply (handles_follow_at v [CapOpen (cap_source v) opens]).
    + reflexivity.
    + intros u Hne. simpl. apply lookup_insert_ne. congruence.
    + rewrite Hheld. destruct opens; balance v.
Qed.
#[local] Hint Resolve initialize_capture_follows : py_along.

(** [release] on a held handle, then None in its place. *)
Lemma release_and_forget_follows (v : string) :
  along handles_follow (release_if_held v >> modify (set_caps (<[v := None]>))).
Proof.
  intros s. unfold release_if_held, emit. unfold_py.
  destruct (holds_handle v s) eqn:Hheld; simpl.
  - apply (handles_follow_at v [CapRelease v]).
    + reflexivity.
    + intros u Hne. simpl. apply lookup_insert_ne. congruence.
    + rewrite Hheld. balance v.
  - apply (handles_follow_at v []).
    + simpl. rewrite app_nil_r. reflexivity.
    + intros u Hne. simpl. apply lookup_insert_ne. congruence.
    + rewrite Hheld. balance v.
Qed.
#[local] Hint Resolve release_and_forget_follows : py_along.

Lemma reconnect_follows (v : string) (opens : bool) :
  along handles_follow (_reconnect v opens).
Proof. unfold _reconnect. walk_along follow. Qed.
#[local] Hint Resolve reconnect_follows : py_along.

Lemma set_inactive_follows (v : string) : along handles_follow (_set_inactive v).
Proof.
  intros s. destruct (configs s !! v) as [config|] eqn:Hconfig.
  - rewrite (set_inactive_spec v config s Hconfig). simpl.
    apply (handles_follow_at v ((if holds_handle v s then [CapRelease v] else [])
                                ++ [RedisDelete (image_key v)])).
    + reflexivity.
    + intros u Hne. simpl. apply lookup_insert_ne. congruence.
    + destruct (holds_handle v s); balance v.
  - unfold _set_inactive, bind, subscript. rewrite Hconfig. apply handles_follow_refl.
Qed.
#[local] Hint Resolve set_inactive_follows : py_along.

(** Lines 88-90 of [stop_server]. *)
Lemma stop_release_follows (v : string) :
  along handles_follow
        (let* handles := gets caps in
         match handles !! v with
         | None => ret tt
         | Some None => raise AttributeError
         | Some (Some _) => emit (CapRelease v) >> modify (set_caps (delete v))
         end).
Proof.
  intros s. unfold emit. unfold_py.
  destruct (caps s !! v) as [[c|]|] eqn:Hcap; simpl; try apply handles_follow_refl.
  apply (handles_follow_at v [CapRelease v]).
  - reflexivity.
  - intros u Hne. simpl. apply lookup_delete_ne. congruence.
  - intros u'. unfold holds_handle. simpl. rewrite lookup_delete_eq, Hcap.
    destruct (String.eqb v u'); simpl; lia.
Qed.
#[local] Hint Resolve stop_release_follows : py_along.

Lemma start_server_follows (defaults : VideoCapConfig) (v : string) (opens : bool) :
  along handles_follow (start_server defaults v opens).
Proof.
  unfold start_server, start_check, start_register, get_or_create, save_config,
         start_launch.
  walk_along follow.
Qed.

Lemma stop_server_follows (v : string) : along handles_follow (stop_server v).
Proof. unfold stop_server, save_config. walk_along follow. Qed.

Lemma loop_body_follows (v hls : string) (o : Obs) (ls : LoopState) :
  along handles_follow (loop_body v hls o ls).
Proof. unfold loop_body, _save_video_clip_metadata. walk_along follow. Qed.

Lemma escalate_follows (v : string) (o : Obs) (ls : LoopState) :
  along handles_follow (escalate v o ls).
Proof. unfold escalate. walk_along follow. Qed.

Lemma capture_while_follows (v hls : string) (obs : list Obs) (ls : LoopState) :
  along handles_follow (capture_while v hls obs ls).
Proof.
  intros s. apply (capture_while_along handles_follow).
  - exact handles_follow_refl.
  - exact handles_follow_trans.
  - intros o ls' s'. apply loop_body_follows.
  - intros o ls' s'. apply escalate_follows.
Qed.
#[local] Hint Resolve capture_while_follows : py_along.

Lemma capture_loop_follows (v : string) (popen_ok : bool) (t0 t1 : Q) (obs : list Obs) :
  along handles_follow (_capture_loop v popen_ok t0 t1 obs).
Proof. unfold _capture_loop, capture_try. walk_along follow. Qed.

Lemma handles_accounted_step (s s' : State) :
  handles_accounted s -> handles_follow s s' -> handles_accounted s'.
Proof. intros Hs Hstep u. specialize (Hs u). specialize (Hstep u). lia. Qed.

(** X1: The calls of the service and the runs of its loop keep the handles
    accounted for: if every capture opened and not released is held by
    the service before, for every stream, so it is after [start_server],
    after [stop_server] (also when it raises), after [_set_inactive] and
    after any run of [_capture_loop], for any stream [v]. *)
Theorem handles_stay_accounted (defaults : VideoCapConfig) (v : string)
    (opens popen_ok : bool) (t0 t1 : Q) (obs : list Obs) (st : State) :
  handles_accounted st ->
  handles_accounted (snd (start_server defaults v opens st)) /\
  handles_accounted (snd (stop_server v st)) /\
  handles_accounted (snd (_set_inactive v st)) /\
  handles_accounted (snd (_capture_loop v popen_ok t0 t1 obs st)).
Proof.
  intros Hst. repeat split; apply (handles_accounted_step st); try exact Hst.
  - apply start_server_follows.
  - apply stop_server_follows.
  - apply set_inactive_follows.
  - apply capture_loop_follows.
Qed.

Lemma handles_stay_accounted_witness :
  handles_accounted Scenario.capture_idle /\
  handles_accounted (snd (start_server Scenario.defaults "cam1" true Scenario.capture_idle)) /\
  live_handles "cam1"
    (log (snd (start_server Scenario.defaults "cam1" true Scenario.capture_idle))) = 1.
Proof.
  assert (Hidle : handles_accounted Scenario.capture_idle).
  { intros u. unfold holds_handle. simpl. rewrite lookup_empty. reflexivity. }
  split; [exact Hidle|].
  split; [|vm_compute; reflexivity].
  exact (proj1 (handles_stay_accounted Scenario.defaults "cam1" true true 0 0 []
                  Scenario.capture_idle Hidle)).
Defined.

(** X2: What the service does for one stream leaves every other stream as it
    is: the configuration, the handle, the run flag and the thread the
    service keeps for [v], and the blob of [v] in the store, are the same
    after a start, a stop or a run of the loop of another stream [u]. *)
Theorem other_streams_untouched (defaults : VideoCapConfig) (u v : string)
    (opens popen_ok : bool) (t0 t1 : Q) (obs : list Obs) (st : State) :
  u <> v ->
  stream_view v (snd (start_server defaults u opens st)) = stream_view v st /\
  stream_view v (snd (stop_server u st)) = stream_view v st /\
  stream_view v (snd (_capture_loop u popen_ok t0 t1 obs st)) = stream_view v st.
Proof.
  intros Hother. repeat split.
  - apply (start_server_other u v Hother).
  - apply (stop_server_other u v Hother).
  - apply (capture_loop_other u v Hother).
Qed.

Lemma other_streams_untouched_witness :
  "cam2" <> "cam1" /\
  stream_view "cam1" (snd (stop_server "cam2" Scenario.cam1_live))
    = stream_view "cam1" Scenario.cam1_live.
Proof.
  assert (Hother : "cam2" <> "cam1") by discriminate.
  split; [exact Hother|].
  exact (proj1 (proj2 (other_streams_untouched Scenario.defaults "cam2" "cam1" true true
                         0 0 [] Scenario.cam1_live Hother))).
Defined.

(** *** Start, stop, and the end of a run *)

(** The join returns, whatever the capture thread still does, and leaves
    its entry in the log. *)
Lemma join_spec (u : string) (remainder : M State unit) (s : State) :
  join u remainder s = (Ok tt, snd (emit (ThreadJoin u) (snd (remainder s)))).
Proof.
  unfold join, try_except, bind, ret.
  destruct (remainder s) as [[[]|e] s1]; reflexivity.
Qed.

(** A stop call for a running stream, from the state in which its join
    returns. *)
Lemma stop_server_joining_running (remainder : M State unit) (u : string) (s : State) :
  default false (running s !! u) = true ->
  stop_server_joining remainder u s
  = (when (bool_decide (is_Some (capture_threads s !! u)))
          (let* _ := subscript capture_threads u in
           modify (set_capture_threads (delete u)))
     >> stop_release u >> stop_finish u) (after_join remainder u s).
Proof.
  intros Hbusy. unfold stop_server_joining, after_join.
  unfold bind at 1. unfold gets at 1. rewrite Hbusy. cbn [negb].
  unfold bind at 1 2 3. unfold modify at 1. unfold bind at 1. unfold gets at 1.
  cbn [capture_threads set_running].
  destruct (bool_decide (is_Some (capture_threads s !! u))); cbn [when].
  - unfold bind at 1. rewrite join_spec. reflexivity.
  - reflexivity.
Qed.

(** With a capture thread that has nothing left to do, the call is
    [stop_server]. *)
Lemma stop_server_joining_gone (u : string) (s : State) :
  stop_server_joining (ret tt) u s = stop_server u s.
Proof.
  unfold stop_server_joining, stop_server, join, stop_release, stop_finish, save_config, emit.
  unfold_py.
  destruct (default false (running s !! u)); simpl; [|reflexivity].
  destruct (bool_decide (is_Some (capture_threads s !! u))) eqn:Hjoined; simpl.
  - apply bool_decide_eq_true in Hjoined as [n Hn]. rewrite Hn. simpl.
    destruct (caps s !! u) as [[c|]|]; simpl; try reflexivity;
      destruct (configs s !! u); reflexivity.
  - destruct (caps s !! u) as [[c|]|]; simpl; try reflexivity;
      destruct (configs s !! u); reflexivity.
Qed.

(** When the join returns with the capture of the stream still held, its
    configuration in place and its thread entry kept, the stop call goes
    through. *)
Lemma stop_after_join (remainder : M State unit) (u : string) (s : State)
    (config : VideoCapConfig) (c : Cap) :
  default false (running s !! u) = true ->
  caps (after_join remainder u s) !! u = Some (Some c) ->
  configs (after_join remainder u s) !! u = Some config ->
  (is_Some (capture_threads s !! u) ->
   is_Some (capture_threads (after_join remainder u s) !! u)) ->
  exists s',
    stop_server_joining remainder u s = (Ok (true, "Server stopped successfully"), s') /\
    running s' = running (after_join remainder u s) /\
    caps s' = delete u (caps (after_join remainder u s)) /\
    configs s' = <[u := with_active false config]> (configs (after_join remainder u s)) /\
    db_configs s' = <[rtmp_url config := with_active false config]>
                      (db_configs (after_join remainder u s)) /\
    redis s' = delete (image_key u) (redis (after_join remainder u s)) /\
    capture_threads s' !! u = None /\
    (forall v, v <> u ->
       capture_threads s' !! v = capture_threads (after_join remainder u s) !! v) /\
    In (CapRelease u) (log s').
Proof.
  intros Hbusy Hcap Hconfig Hthread.
  rewrite (stop_server_joining_running remainder u s Hbusy).
  set (s1 := after_join remainder u s) in *.
  assert (Hentry : bool_decide (is_Some (capture_threads s !! u)) = false ->
                   capture_threads s1 !! u = None).
  { intros Hno. unfold s1, after_join. rewrite Hno. simpl.
    apply bool_decide_eq_false in Hno.
    destruct (capture_threads s !! u) eqn:E; [exfalso; apply Hno; eauto|reflexivity]. }
  unfold stop_release, stop_finish, save_config, emit. unfold_py.
  destruct (bool_decide (is_Some (capture_threads s !! u))) eqn:Hjoined; simpl.
  - apply bool_decide_eq_true in Hjoined. destruct (Hthread Hjoined) as [n Hn].
    rewrite Hn. simpl. rewrite Hcap. simpl. rewrite Hconfig. simpl.
    eexists. split; [reflexivity|]. simpl.
    repeat split; try reflexivity.
    + apply lookup_delete_eq.
    + intros v Hv. apply lookup_delete_ne. congruence.
    + rewrite !in_app_iff. simpl. auto.
  - rewrite Hcap. simpl. rewrite Hconfig. simpl.
    eexists. split; [reflexivity|]. simpl.
    repeat split; try reflexivity.
    + apply Hentry. reflexivity.
    + rewrite !in_app_iff. simpl. auto.
Qed.

(** X3: A stop call for a stream that is running and whose capture is held,
    when what the capture thread still does before the join returns
    leaves the entries of the stream alone (the thread is about to test
    its flag, or is in a pass that reads a frame).  The call returns
    success; the handle was released and is forgotten, the blob of the
    stream is gone from the store, the active flag of the configuration
    is false in the service and in the table, the thread is forgotten,
    and a second stop call reports that the server is not running and
    changes nothing. *)
Theorem stop_server_releases_and_clears (remainder : M State unit) (u : string)
    (st : State) (config : VideoCapConfig) (c : Cap) :
  check_server_status u st = true ->
  caps st !! u = Some (Some c) ->
  configs st !! u = Some config ->
  stream_view u (after_join remainder u st)
    = stream_view u (set_running (<[u := false]>) st) ->
  exists st',
    stop_server_joining remainder u st = (Ok (true, "Server stopped successfully"), st') /\
    caps st' !! u = None /\
    redis st' !! image_key u = None /\
    configs st' !! u = Some (with_active false config) /\
    is_active <$> configs st' !! u = Some false /\
    db_configs st' !! rtmp_url config = Some (with_active false config) /\
    is_active <$> db_configs st' !! rtmp_url config = Some false /\
    capture_threads st' !! u = None /\
    In (CapRelease u) (log st') /\
    forall remainder',
      stop_server_joining remainder' u st' = (Ok (false, "Server not running"), st').
Proof.
  intros Hbusy Hcap Hconfig Hquiet.
  unfold check_server_status in Hbusy.
  unfold stream_view in Hquiet. simpl in Hquiet.
  injection Hquiet as Hconfigs Hcaps Hflag Hthreads _.
  rewrite lookup_insert_eq in Hflag.
  destruct (stop_after_join remainder u st config c Hbusy)
    as (st' & Hstop & Hrun' & Hcaps' & Hconfigs' & Hdb' & Hredis' & Hthread' & _ & Hlog').
  { rewrite Hcaps. exact Hcap. }
  { rewrite Hconfigs. exact Hconfig. }
  { rewrite Hthreads. auto. }
  exists st'. split; [exact Hstop|].
  rewrite Hcaps', Hredis', Hconfigs', Hdb'.
  rewrite !lookup_delete_eq, !lookup_insert_eq.
  repeat split; try assumption.
  intros remainder'. unfold stop_server_joining, bind, gets, ret.
  rewrite Hrun', Hflag. reflexivity.
Qed.

Lemma stop_server_releases_and_clears_witness :
  let remainder := finish_pass "cam1" (Scenario.good_read 31 31 31) Scenario.fresh_loop in
  check_server_status "cam1" Scenario.cam1_live = true /\
  stream_view "cam1" (after_join remainder "cam1" Scenario.cam1_live)
    = stream_view "cam1" (set_running (<["cam1" := false]>) Scenario.cam1_live) /\
  exists st',
    stop_server_joining remainder "cam1" Scenario.cam1_live
      = (Ok (true, "Server stopped successfully"), st') /\
    redis st' !! image_key "cam1" = None /\
    is_active <$> configs st' !! "cam1" = Some false /\
    length (db_clips st') = 1%nat /\
    stop_server_joining remainder "cam1" st' = (Ok (false, "Server not running"), st').
Proof.
  intros remainder.
  assert (Hbusy : check_server_status "cam1" Scenario.cam1_live = true)
    by (vm_compute; reflexivity).
  assert (Hcap : caps Scenario.cam1_live !! "cam1" = Some (Some (mkCap true)))
    by (vm_compute; reflexivity).
  assert (Hconfig : configs Scenario.cam1_live !! "cam1"
                    = Some (mkConfig 1 "Config_1" "cam1" true 1))
    by (vm_compute; reflexivity).
  assert (Hquiet : stream_view "cam1" (after_join remainder "cam1" Scenario.cam1_live)
                   = stream_view "cam1" (set_running (<["cam1" := false]>) Scenario.cam1_live))
    by (vm_compute; reflexivity).
  split; [exact Hbusy|]. split; [exact Hquiet|].
  destruct (stop_server_releases_and_clears remainder "cam1" Scenario.cam1_live _ _
              Hbusy Hcap Hconfig Hquiet)
    as (st' & Hstop & _ & Hblob & _ & Hflag & _ & _ & _ & _ & Hagain).
  exists st'. split; [exact Hstop|]. split; [exact Hblob|]. split; [exact Hflag|].
  split; [|exact (Hagain remainder)].
  assert (Hst : snd (stop_server_joining remainder "cam1" Scenario.cam1_live) = st')
    by (rewrite Hstop; reflexivity).
  rewrite <- Hst. vm_compute. reflexivity.
Defined.

(** X24: A stop call that meets the capture thread in a pass that goes wrong.
    The thread entry is tested before the join and deleted after it, and
    the release is made on whatever the thread left in [self.caps[u]].
    When the thread has given up during the join ([_set_inactive] removed
    its entry) the stop call raises KeyError at the [del]; when the thread
    has made a reconnect that did not open the source (None is left in
    place of the capture) the stop call raises AttributeError at the
    release.  In both cases the call ends there, before it marks the
    configuration inactive and deletes the blob. *)
Theorem stop_server_joining_raises (remainder : M State unit) (u : string) (st : State)
    (n : nat) :
  check_server_status u st = true ->
  capture_threads st !! u = Some n ->
  let joined := after_join remainder u st in
  (capture_threads joined !! u = None ->
   stop_server_joining remainder u st = (Raise KeyError, joined)) /\
  (is_Some (capture_threads joined !! u) ->
   caps joined !! u = Some None ->
   stop_server_joining remainder u st
   = (Raise AttributeError, set_capture_threads (delete u) joined)).
Proof.
  intros Hbusy Hthread joined. unfold check_server_status in Hbusy.
  assert (Hjoined : bool_decide (is_Some (capture_threads st !! u)) = true)
    by (apply bool_decide_eq_true; eauto).
  split.
  - intros Hgone.
    rewrite (stop_server_joining_running remainder u st Hbusy), Hjoined.
    fold joined. unfold_py. rewrite Hgone. reflexivity.
  - intros [m Hm] Hnone.
    rewrite (stop_server_joining_running remainder u st Hbusy), Hjoined.
    fold joined. unfold stop_release. unfold_py. rewrite Hm. simpl.
    rewrite Hnone. reflexivity.
Qed.

Lemma stop_server_joining_raises_witness :
  let stalls := finish_pass "cam1" (Scenario.failed_read 2 false 3) Scenario.fresh_loop in
  let gives_up := finish_pass "cam1" (Scenario.failed_read 2 false 8) Scenario.fresh_loop in
  check_server_status "cam1" Scenario.cam1_live = true /\
  capture_threads Scenario.cam1_live !! "cam1" = Some 0%nat /\
  caps (after_join stalls "cam1" Scenario.cam1_live) !! "cam1" = Some None /\
  fst (stop_server_joining stalls "cam1" Scenario.cam1_live) = Raise AttributeError /\
  capture_threads (after_join gives_up "cam1" Scenario.cam1_live) !! "cam1" = None /\
  fst (stop_server_joining gives_up "cam1" Scenario.cam1_live) = Raise KeyError.
Proof.
  intros stalls gives_up.
  assert (Hbusy : check_server_status "cam1" Scenario.cam1_live = true)
    by (vm_compute; reflexivity).
  assert (Hthread : capture_threads Scenario.cam1_live !! "cam1" = Some 0%nat)
    by (vm_compute; reflexivity).
  assert (Hkept : is_Some (capture_threads (after_join stalls "cam1" Scenario.cam1_live)
                           !! "cam1")) by (vm_compute; eauto).
  assert (Hnone : caps (after_join stalls "cam1" Scenario.cam1_live) !! "cam1" = Some None)
    by (vm_compute; reflexivity).
  assert (Hgone : capture_threads (after_join gives_up "cam1" Scenario.cam1_live) !! "cam1"
                  = None) by (vm_compute; reflexivity).
  split; [exact Hbusy|]. split; [exact Hthread|]. split; [exact Hnone|].
  split; [|split; [exact Hgone|]].
  - rewrite (proj2 (stop_server_joining_raises stalls "cam1" Scenario.cam1_live 0
                      Hbusy Hthread) Hkept Hnone).
    reflexivity.
  - rewrite (proj1 (stop_server_joining_raises gives_up "cam1" Scenario.cam1_live 0
                      Hbusy Hthread) Hgone).
    reflexivity.
Defined.

(** X4: What a start call leaves behind for a stream that was not running: it
    returns success whether or not the source opens; the stream is
    running, its configuration is active in the service and in the table,
    a thread is registered, and the service holds an opened capture when
    the source opened and None when it did not. *)
Theorem start_server_establishes (defaults : VideoCapConfig) (u : string) (opens : bool)
    (st : State) :
  check_server_status u st = false ->
  exists st1 config,
    start_server defaults u opens st = (Ok (true, "Server started successfully"), st1) /\
    configs st1 !! u = Some config /\
    is_active config = true /\
    db_configs st1 !! rtmp_url config = Some config /\
    running st1 !! u = Some true /\
    caps st1 !! u = Some (if opens then Some (mkCap true) else None) /\
    capture_threads st1 !! u = Some (threads_started st) /\
    redis st1 = redis st.
Proof.
  unfold check_server_status. intros Hidle.
  unfold start_server, start_check, start_register, get_or_create, save_config,
         start_launch, _initialize_capture, release_if_held, emit.
  unfold_py. rewrite Hidle.
  destruct (db_configs st !! u) as [row|]; simpl;
    match goal with
    | |- context [holds_handle ?v ?s] => destruct (holds_handle v s)
    end; simpl;
    do 2 eexists; (split; [reflexivity|]); simpl;
    (split; [rewrite lookup_insert_eq; reflexivity|]);
    simpl; rewrite ?lookup_insert_eq; repeat split.
Qed.

Lemma start_server_establishes_witness :
  check_server_status "cam1" Scenario.capture_idle = false /\
  exists st1,
    start_server Scenario.defaults "cam1" false Scenario.capture_idle
      = (Ok (true, "Server started successfully"), st1) /\
    running st1 !! "cam1" = Some true /\
    caps st1 !! "cam1" = Some None.
Proof.
  assert (Hidle : check_server_status "cam1" Scenario.capture_idle = false)
    by (vm_compute; reflexivity).
  split; [exact Hidle|].
  destruct (start_server_establishes Scenario.defaults "cam1" false Scenario.capture_idle
              Hidle) as (st1 & config & Hstart & _ & _ & _ & Hrun & Hcap & _).
  exists st1. split; [exact Hstart|]. split; [exact Hrun|exact Hcap].
Defined.

(** X5: A stream that ended its own run by [_set_inactive] is stopped for
    good and can be started anew: a stop call reports that the server is
    not running and changes nothing, and a start call succeeds and sets
    the stream running again. *)
Theorem terminated_stream_restarts (defaults : VideoCapConfig) (u : string) (opens : bool)
    (st : State) (config : VideoCapConfig) :
  configs st !! u = Some config ->
  let ended := snd (_set_inactive u st) in
  check_server_status u ended = false /\
  stop_server u ended = (Ok (false, "Server not running"), ended) /\
  exists st2,
    start_server defaults u opens ended = (Ok (true, "Server started successfully"), st2) /\
    check_server_status u st2 = true.
Proof.
  intros Hconfig ended.
  assert (Hidle : check_server_status u ended = false).
  { unfold ended. rewrite (set_inactive_spec u config st Hconfig).
    unfold check_server_status. simpl. rewrite lookup_insert_eq. reflexivity. }
  split; [exact Hidle|]. split; [apply stop_server_not_running, Hidle|].
  destruct (start_register_spec defaults u ended) as (s1 & Hreg & Hrun1 & _).
  destruct (start_launch_spec u opens s1) as (s2 & Hlaunch & Hrun2 & _).
  exists s2. split.
  - unfold start_server, start_check, bind, gets.
    unfold check_server_status in Hidle. rewrite Hidle, Hreg, Hlaunch. reflexivity.
  - unfold check_server_status. rewrite Hrun2, Hrun1, lookup_insert_eq. reflexivity.
Qed.

Lemma terminated_stream_restarts_witness :
  configs Scenario.cam1_live !! "cam1" = Some (mkConfig 1 "Config_1" "cam1" true 1) /\
  stop_server "cam1" (snd (_set_inactive "cam1" Scenario.cam1_live))
    = (Ok (false, "Server not running"), snd (_set_inactive "cam1" Scenario.cam1_live)).
Proof.
  assert (Hconfig : configs Scenario.cam1_live !! "cam1"
                    = Some (mkConfig 1 "Config_1" "cam1" true 1))
    by (vm_compute; reflexivity).
  split; [exact Hconfig|].
  exact (proj1 (proj2 (terminated_stream_restarts Scenario.defaults "cam1" true
                         Scenario.cam1_live _ Hconfig))).
Defined.

(** X6: A read that fails within a second of the last frame, with no reconnect
    under way, is passed over: the iteration changes neither the state nor
    the locals, and the loop goes on. *)
Theorem transient_failure_is_passed_over (u hls : string) (o : Obs) (ls : LoopState)
    (st : State) :
  handle_ready u st = true ->
  read_ret o = false ->
  (t_read o - last_frame_time ls <= 1)%Q ->
  reconnect_start_time ls = None ->
  capture_pass u hls o ls st = (Ok (ls, false), st).
Proof.
  intros Hready Hret Hfresh Hnone.
  apply Qlt_bool_false_iff in Hfresh.
  unfold capture_pass, loop_body, escalate, bind, gets, ret.
  rewrite Hready, Hret, Hfresh, Hnone. reflexivity.
Qed.

Lemma transient_failure_is_passed_over_witness :
  let o := Scenario.failed_read (1 # 2) true (1 # 2) in
  handle_ready "cam1" Scenario.cam1_live = true /\
  (t_read o - last_frame_time Scenario.fresh_loop <= 1)%Q /\
  capture_pass "cam1" (hls_output "cam1") o Scenario.fresh_loop Scenario.cam1_live
    = (Ok (Scenario.fresh_loop, false), Scenario.cam1_live).
Proof.
  intros o.
  assert (Hready : handle_ready "cam1" Scenario.cam1_live = true)
    by (vm_compute; reflexivity).
  assert (Hfresh : (t_read o - last_frame_time Scenario.fresh_loop <= 1)%Q)
    by (vm_compute; discriminate).
  split; [exact Hready|]. split; [exact Hfresh|].
  exact (transient_failure_is_passed_over "cam1" (hls_output "cam1") o Scenario.fresh_loop
           Scenario.cam1_live Hready eq_refl Hfresh eq_refl).
Defined.

(** *** The HLS output of a stream *)

Lemma last_component_after_slash (acc p n : string) :
  last_component_from acc (p +:+ String "/"%char n) = last_component_from "" n.
Proof.
  revert acc. induction p as [|c p IH]; intros acc; simpl.
  - reflexivity.
  - destruct (Ascii.eqb c "/"%char); apply IH.
Qed.

Lemma append_cons (a : ascii) (s t : string) : String a s +:+ t = String a (s +:+ t).
Proof. reflexivity. Qed.

Lemma append_empty (s : string) : s +:+ "" = s.
Proof.
  induction s as [|a s IH]; [reflexivity|]. rewrite append_cons, IH. reflexivity.
Qed.

Lemma append_snoc (s n : string) (c : ascii) :
  (s +:+ String c "") +:+ n = s +:+ String c n.
Proof.
  induction s as [|a s IH]; [reflexivity|]. rewrite !append_cons, IH. reflexivity.
Qed.

Lemma last_component_slash_free (acc n : string) :
  slash_free n = true -> last_component_from acc n = acc +:+ n.
Proof.
  revert acc. induction n as [|c n IH]; intros acc Hfree; simpl in *.
  - symmetry. apply append_empty.
  - apply andb_true_iff in Hfree as [Hc Hn]. apply negb_true_iff in Hc. rewrite Hc.
    rewrite (IH _ Hn). apply append_snoc.
Qed.

(** X7: The HLS output of a stream is named after the last component of its
    address only: for a name [n] without [/], an address that ends in
    [/n] has the playlist [tmp/video_clip/n_hls/index.m3u8], whatever
    comes before, so two streams whose addresses end in the same name
    share it. *)
Theorem hls_output_by_last_component (p q n : string) :
  slash_free n = true ->
  hls_output (p +:+ "/" +:+ n) = "tmp/video_clip/" +:+ n +:+ "_hls/index.m3u8" /\
  hls_output (p +:+ "/" +:+ n) = hls_output (q +:+ "/" +:+ n).
Proof.
  intros Hfree.
  assert (Hlast : forall r, last_component (r +:+ "/" +:+ n) = n).
  { intros r. unfold last_component.
    change ("/" +:+ n) with (String "/"%char n).
    rewrite last_component_after_slash. apply (last_component_slash_free "" n Hfree). }
  unfold hls_output. rewrite !Hlast. split; reflexivity.
Qed.

Lemma hls_output_by_last_component_witness :
  slash_free "cam1" = true /\
  hls_output ("rtmp://a/live" +:+ "/" +:+ "cam1")
    = hls_output ("rtmp://b/backup" +:+ "/" +:+ "cam1").
Proof.
  assert (Hfree : slash_free "cam1" = true) by reflexivity.
  split; [exact Hfree|].
  exact (proj2 (hls_output_by_last_component "rtmp://a/live" "rtmp://b/backup" "cam1" Hfree)).
Defined.

(** *** Construction and reset *)

(** What the loop of [_load_configs] leaves in the two dictionaries, when
    every row it is given is the row the table files under that address. *)
Lemma load_rows_spec (table : gmap string VideoCapConfig) (rows : list VideoCapConfig)
    (dicts : gmap string VideoCapConfig * gmap string bool) (u : string) :
  (forall c, In c rows -> table !! rtmp_url c = Some c) ->
  (In u (map rtmp_url rows) ->
     fst (load_rows rows dicts) !! u = table !! u /\
     snd (load_rows rows dicts) !! u = Some false) /\
  (~ In u (map rtmp_url rows) ->
     fst (load_rows rows dicts) !! u = fst dicts !! u /\
     snd (load_rows rows dicts) !! u = snd dicts !! u).
Proof.
  revert dicts. induction rows as [|c rows IH]; intros dicts Hrows.
  - split; [intros []|]. intros _. split; reflexivity.
  - assert (Hrest : forall c', In c' rows -> table !! rtmp_url c' = Some c')
      by (intros c' Hc'; apply Hrows; right; exact Hc').
    unfold load_rows in *. simpl fold_left.
    destruct (IH (<[rtmp_url c := c]> (fst dicts), <[rtmp_url c := false]> (snd dicts))
                 Hrest) as [Hin Hout].
    destruct (in_dec String.string_dec u (map rtmp_url rows)) as [Hlater|Hlater].
    + split; [intros _; exact (Hin Hlater)|]. intros Hno. exfalso. apply Hno. right. exact Hlater.
    + destruct (Hout Hlater) as [Hc Hr]. simpl in Hc, Hr.
      destruct (String.string_dec (rtmp_url c) u) as [Heq|Hne].
      * split; [intros _|intros Hno; exfalso; apply Hno; left; exact Heq].
        rewrite Hc, Hr. subst u. rewrite !lookup_insert_eq.
        split; [symmetry; apply Hrows; left; reflexivity|reflexivity].
      * split; [intros [Heq|Hin']; [congruence|contradiction]|]. intros _.
        rewrite Hc, Hr, !lookup_insert_ne by exact Hne. split; reflexivity.
Qed.

Lemma active_rows_spec (table : gmap string VideoCapConfig) (c : VideoCapConfig) :
  In c (active_rows table) <-> (exists k, table !! k = Some c) /\ is_active c = true.
Proof.
  unfold active_rows. rewrite filter_In, <- list_elem_of_In, list_elem_of_fmap.
  split.
  - intros [([k c'] & -> & Hin) Hact]. apply elem_of_map_to_list in Hin.
    split; [exists k; exact Hin|exact Hact].
  - intros [[k Hk] Hact]. split; [|exact Hact].
    exists (k, c). split; [reflexivity|]. apply elem_of_map_to_list. exact Hk.
Qed.

(** The two dictionaries that the loop of [_load_configs] fills from
    empty ones, over a table in which each row is filed under its own
    address. *)
Lemma loaded_dicts_spec (table : gmap string VideoCapConfig) :
  well_keyed table ->
  let dicts := load_rows (active_rows table) (∅, ∅) in
  (forall u, fst dicts !! u
             = match table !! u with
               | Some c => if is_active c then Some c else None
               | None => None
               end) /\
  (forall u, default false (snd dicts !! u) = false).
Proof.
  intros Hkeyed dicts.
  assert (Hrows : forall c, In c (active_rows table) -> table !! rtmp_url c = Some c).
  { intros c Hc. apply active_rows_spec in Hc as [[k Hk] _].
    rewrite (Hkeyed k c Hk). exact Hk. }
  assert (Hmember : forall u, In u (map rtmp_url (active_rows table)) <->
                              exists c, table !! u = Some c /\ is_active c = true).
  { intros u. rewrite in_map_iff. split.
    - intros (c & <- & Hc). exists c. split; [apply Hrows, Hc|].
      apply active_rows_spec in Hc. apply Hc.
    - intros (c & Hu & Hact). exists c. split; [apply (Hkeyed u c Hu)|].
      apply active_rows_spec. split; [eauto|exact Hact]. }
  assert (Hspec := fun u => load_rows_spec table (active_rows table) (∅, ∅) u Hrows).
  split; intros u; destruct (Hspec u) as [Hin Hout];
    destruct (in_dec String.string_dec u (map rtmp_url (active_rows table))) as [Hu|Hu].
  - unfold dicts. rewrite (proj1 (Hin Hu)). apply Hmember in Hu as (c & -> & ->). reflexivity.
  - unfold dicts. rewrite (proj1 (Hout Hu)). simpl. rewrite lookup_empty.
    destruct (table !! u) as [c|] eqn:Hc; [|reflexivity].
    destruct (is_active c) eqn:Hact; [|reflexivity].
    exfalso. apply Hu, Hmember. eauto.
  - unfold dicts. rewrite (proj2 (Hin Hu)). reflexivity.
  - unfold dicts. rewrite (proj2 (Hout Hu)). simpl. rewrite lookup_empty. reflexivity.
Qed.

(** X8: A service built over a table in which each row is filed under its own
    address knows exactly the streams whose row is active, each with that
    row, and reports every stream as not running, the active ones too; it
    holds no handle and no thread, and the store and the tables are as
    they were. *)
Theorem init_loads_active_rows (world : State) :
  well_keyed (db_configs world) ->
  let st := init world in
  (forall u, configs st !! u
             = match db_configs world !! u with
               | Some c => if is_active c then Some c else None
               | None => None
               end) /\
  (forall u, check_server_status u st = false) /\
  caps st = ∅ /\ capture_threads st = ∅ /\
  redis st = redis world /\ db_configs st = db_configs world /\
  db_clips st = db_clips world.
Proof.
  intros Hkeyed st.
  destruct (loaded_dicts_spec (db_configs world) Hkeyed) as [Hconfigs Hrunning].
  unfold st, init, _load_configs. unfold_py. simpl.
  repeat split; try reflexivity.
  - exact Hconfigs.
  - exact Hrunning.
Qed.

Lemma two_rows_well_keyed : well_keyed Scenario.two_rows.
Proof.
  intros k c Hk. unfold Scenario.two_rows in Hk.
  apply lookup_insert_Some in Hk as [[<- <-]|[_ Hk]]; [reflexivity|].
  apply lookup_insert_Some in Hk as [[<- <-]|[_ Hk]]; [reflexivity|].
  rewrite lookup_empty in Hk. discriminate.
Qed.

Lemma init_loads_active_rows_witness :
  well_keyed (db_configs Scenario.stale_world) /\
  is_Some (configs (init Scenario.stale_world) !! "cam1") /\
  configs (init Scenario.stale_world) !! "cam2" = None /\
  check_server_status "cam1" (init Scenario.stale_world) = false.
Proof.
  assert (Hkeyed : well_keyed (db_configs Scenario.stale_world))
    by exact two_rows_well_keyed.
  destruct (init_loads_active_rows Scenario.stale_world Hkeyed) as (Hconfigs & Hstatus & _).
  split; [exact Hkeyed|]. split; [|split].
  - rewrite (Hconfigs "cam1"). vm_compute. eauto.
  - rewrite (Hconfigs "cam2"). vm_compute. reflexivity.
  - apply Hstatus.
Defined.

Lemma delete_keys_spec (keys : list string) (s : State) :
  fst (delete_keys keys s) = Ok tt /\
  (forall k, redis (snd (delete_keys keys s)) !! k
             = if in_dec String.string_dec k keys then None else redis s !! k).
Proof.
  revert s. induction keys as [|key rest IH]; intros s; simpl.
  - split; [reflexivity|]. intros k. reflexivity.
  - unfold emit. unfold_py. simpl.
    match goal with
    | |- context [delete_keys rest ?s0] =>
        destruct (IH s0) as [Hok Hredis]; destruct (delete_keys rest s0) as [r s1]
    end.
    simpl in *. subst r. split; [reflexivity|].
    intros k. rewrite Hredis.
    destruct (in_dec String.string_dec k rest) as [Hin|Hout];
      destruct (String.string_dec key k) as [->|Hne]; try reflexivity.
    + apply lookup_delete_eq.
    + apply lookup_delete_ne. exact Hne.
Qed.

Section DeleteKeysKeeps.
Context {T : Type} (proj : State -> T).
Hypothesis proj_redis : forall f s, proj (set_redis f s) = proj s.
Hypothesis proj_log : forall e s, proj (snd (emit e s)) = proj s.

Lemma delete_keys_preserved (keys : list string) : preserves proj (delete_keys keys).
Proof.
  induction keys as [|key rest IH]; simpl.
  - apply preserves_ret.
  - apply preserves_bind; [|intros _; exact IH].
    apply preserves_bind; [intros s; apply proj_log|intros _].
    intros s. apply proj_redis.
Qed.
End DeleteKeysKeeps.

Lemma image_key_has_prefix (u : string) : String.prefix image_prefix (image_key u) = true.
Proof. destruct u; reflexivity. Qed.

(** X9: [reset_video_cap_system] returns; afterwards no clip is on record,
    every row of the table has its active flag false and its other fields
    as they were (no row is added or dropped), and the
    store has lost exactly the keys that start with
    [video_cap_service:current_image:], so that no stream has a blob and
    the other keys are kept.  The dictionaries of a service are not
    touched: a stream that was running still reports running. *)
Theorem reset_clears_tables_and_blobs (st : State) :
  let st' := snd (reset_video_cap_system st) in
  fst (reset_video_cap_system st) = Ok tt /\
  db_clips st' = [] /\
  db_configs st' = with_active false <$> db_configs st /\
  (forall k, is_active <$> db_configs st' !! k
             = (fun _ => false) <$> db_configs st !! k) /\
  (forall k c, db_configs st !! k = Some c ->
     exists c', db_configs st' !! k = Some c' /\
                is_active c' = false /\ id c' = id c /\ name c' = name c /\
                rtmp_url c' = rtmp_url c /\ frame_interval c' = frame_interval c) /\
  (forall k, redis st' !! k
             = if String.prefix image_prefix k then None else redis st !! k) /\
  (forall u, redis st' !! image_key u = None) /\
  (forall u, check_server_status u st' = check_server_status u st) /\
  configs st' = configs st /\ caps st' = caps st /\
  capture_threads st' = capture_threads st.
Proof.
  intros st'. unfold st', reset_video_cap_system. unfold_py. simpl.
  set (s0 := set_db_configs (fmap (with_active false)) (set_db_clips (fun _ => []) st)).
  set (keys := List.filter (String.prefix image_prefix) (map_to_list (redis st)).*1).
  destruct (delete_keys_spec keys s0) as [Hok Hredis].
  assert (Hstore : forall k, redis (snd (delete_keys keys s0)) !! k
                             = if String.prefix image_prefix k then None
                               else redis st !! k).
  { intros k. rewrite Hredis. change (redis s0) with (redis st).
    destruct (in_dec String.string_dec k keys) as [Hin|Hout].
    - apply filter_In in Hin as [_ ->]. reflexivity.
    - destruct (String.prefix image_prefix k) eqn:Hprefix; [|reflexivity].
      destruct (redis st !! k) as [b|] eqn:Hk; [|reflexivity].
      exfalso. apply Hout, filter_In. split; [|exact Hprefix].
      apply list_elem_of_In, list_elem_of_fmap. exists (k, b).
      split; [reflexivity|]. apply elem_of_map_to_list. exact Hk. }
  pose proof (delete_keys_preserved db_clips (fun _ _ => eq_refl) (fun _ _ => eq_refl) keys s0).
  pose proof (delete_keys_preserved db_configs (fun _ _ => eq_refl) (fun _ _ => eq_refl) keys s0)
    as Hrows.
  pose proof (delete_keys_preserved configs (fun _ _ => eq_refl) (fun _ _ => eq_refl) keys s0).
  pose proof (delete_keys_preserved caps (fun _ _ => eq_refl) (fun _ _ => eq_refl) keys s0).
  pose proof (delete_keys_preserved running (fun _ _ => eq_refl) (fun _ _ => eq_refl) keys s0)
    as Hrunning.
  pose proof (delete_keys_preserved capture_threads (fun _ _ => eq_refl)
                (fun _ _ => eq_refl) keys s0).
  destruct (delete_keys keys s0) as [r s1]. simpl in *. subst r.
  split; [reflexivity|]. split; [assumption|]. split; [exact Hrows|].
  split; [|split; [|split; [exact Hstore|]]].
  - intros k. rewrite Hrows, lookup_fmap.
    destruct (db_configs st !! k); reflexivity.
  - intros k c Hk. exists (with_active false c).
    rewrite Hrows, lookup_fmap, Hk. repeat split.
  - repeat split; try assumption.
    + intros u. rewrite Hstore, image_key_has_prefix. reflexivity.
    + intros u. unfold check_server_status. rewrite Hrunning. reflexivity.
Qed.

Lemma reset_clears_tables_and_blobs_witness :
  db_configs Scenario.stale_world !! "cam1" = Some (mkConfig 1 "Config_1" "cam1" true 1) /\
  exists c',
    db_configs (snd (reset_video_cap_system Scenario.stale_world)) !! "cam1" = Some c' /\
    is_active c' = false /\ rtmp_url c' = "cam1".
Proof.
  assert (Hrow : db_configs Scenario.stale_world !! "cam1"
                 = Some (mkConfig 1 "Config_1" "cam1" true 1))
    by (vm_compute; reflexivity).
  split; [exact Hrow|].
  destruct (reset_clears_tables_and_blobs Scenario.stale_world)
    as (_ & _ & _ & _ & Hrows & _).
  destruct (Hrows "cam1" _ Hrow) as (c' & Hc' & Hflag & _ & _ & Hurl & _).
  exists c'. split; [exact Hc'|]. split; [exact Hflag|exact Hurl].
Defined.

(** *** What a run of the loop does to the store and to its counter *)

Lemma store_kept_refl (u : string) (s : State) : store_kept_or_blob_deleted u s s.
Proof. left. reflexivity. Qed.

Lemma store_kept_trans (u : string) (s1 s2 s3 : State) :
  store_kept_or_blob_deleted u s1 s2 ->
  store_kept_or_blob_deleted u s2 s3 ->
  store_kept_or_blob_deleted u s1 s3.
Proof.
  unfold store_kept_or_blob_deleted. intros [H12|H12] [H23|H23]; rewrite H23, H12; auto.
  right. apply delete_delete_eq.
Qed.

Lemma loop_body_store_kept (u hls : string) (o : Obs) (ls : LoopState) :
  along (store_kept_or_blob_deleted u) (loop_body u hls o ls).
Proof. intros s. left. apply loop_body_redis. Qed.

Lemma escalate_store_kept (u : string) (o : Obs) (ls : LoopState) :
  along (store_kept_or_blob_deleted u) (escalate u o ls).
Proof.
  intros s. unfold escalate.
  destruct (reconnect_start_time ls); [|apply store_kept_refl].
  destruct (_ || _); [|apply store_kept_refl].
  unfold bind. destruct (configs s !! u) as [config|] eqn:Hconfig.
  - rewrite (set_inactive_spec u config s Hconfig). right. reflexivity.
  - unfold _set_inactive, bind, subscript. rewrite Hconfig. apply store_kept_refl.
Qed.

(** X10: No run of [_capture_loop] writes to the frame store: every key other
    than the key of its stream holds afterwards what it held before, and
    the key of its stream holds what it held before or nothing. *)
Theorem capture_loop_only_deletes_its_blob (u : string) (popen_ok : bool) (t0 t1 : Q)
    (obs : list Obs) (st : State) :
  let st' := snd (_capture_loop u popen_ok t0 t1 obs st) in
  (forall k, k <> image_key u -> redis st' !! k = redis st !! k) /\
  (redis st' !! image_key u = redis st !! image_key u \/
   redis st' !! image_key u = None).
Proof.
  intros st'.
  assert (Hloop : forall hls ls,
            along (store_kept_or_blob_deleted u) (capture_while u hls obs ls)).
  { intros hls ls s. apply (capture_while_along (store_kept_or_blob_deleted u)).
    - apply store_kept_refl.
    - apply store_kept_trans.
    - intros o ls' s'. apply loop_body_store_kept.
    - intros o ls' s'. apply escalate_store_kept. }
  assert (Hrun : store_kept_or_blob_deleted u st st').
  { unfold st', _capture_loop, capture_try, try_except, emit, bind, subscript, modify, ret.
    destruct (configs st !! u); [|apply store_kept_refl].
    destruct popen_ok; [|apply store_kept_refl].
    match goal with
    | |- context [capture_while ?a ?b ?c ?d ?s0] =>
        pose proof (Hloop b d s0) as Hs0;
        destruct (capture_while a b c d s0) as [[[|ls']|e] s']
    end; exact Hs0. }
  destruct Hrun as [-> | ->].
  - split; [reflexivity|left; reflexivity].
  - split; [intros k Hk; apply lookup_delete_ne; congruence|].
    right. apply lookup_delete_eq.
Qed.

(** X11: In a run of [_capture_loop] that is still going, the attempt counter
    is 1 while a reconnect is under way and 0 otherwise: it never comes
    near the bound of 5 attempts, so the test on the bound never ends a
    run. *)
Theorem capture_loop_counts_at_most_one (u : string) (popen_ok : bool) (t0 t1 : Q)
    (obs : list Obs) (st st' : State) (ls' : LoopState) :
  _capture_loop u popen_ok t0 t1 obs st = (Ok (StillRunning ls'), st') ->
  reconnect_attempts ls' = match reconnect_start_time ls' with
                           | Some _ => 1
                           | None => 0
                           end /\
  (max_reconnect_attempts <? reconnect_attempts ls') = false.
Proof.
  intros Hrun.
  assert (Hwhile : exists s0 s1,
            capture_while u (hls_output u) obs (mkLoop None 0 t0 t1) s0
            = (Ok (StillRunning ls'), s1)).
  { unfold _capture_loop in Hrun.
    apply bind_inv in Hrun as [(config & s1 & _ & Hrun)|(e & _ & ?)]; [|discriminate].
    destruct popen_ok; [|discriminate].
    apply bind_inv in Hrun as [([] & s2 & _ & Hrun)|(e & _ & ?)]; [|discriminate].
    unfold capture_try in Hrun.
    apply bind_inv in Hrun as [(e & s3 & Htry & Hrun)|(e & _ & ?)]; [|discriminate].
    destruct e as [|ls'']; [apply bind_inv in Hrun as [(? & ? & _ & ?)|(? & _ & ?)];
                            discriminate|].
    injection Hrun as -> ->.
    unfold try_except in Htry.
    destruct (capture_while u (hls_output u) obs (mkLoop None 0 t0 t1) s2)
      as [[r|e] s4] eqn:Hw; [|discriminate].
    injection Htry as -> ->. eauto. }
  destruct Hwhile as (s0 & s1 & Hwhile).
  destruct (capture_while_counted_once u (hls_output u) obs (mkLoop None 0 t0 t1) ls' s0 s1
              eq_refl Hwhile) as [Hcount Hbound].
  split; [|exact Hbound].
  unfold counted_once in Hcount. destruct (reconnect_start_time ls'); exact Hcount.
Qed.

Lemma capture_loop_counts_at_most_one_witness :
  let obs := [Scenario.failed_read 2 true 3; Scenario.failed_read 4 true 5] in
  let run := _capture_loop "cam1" true 0 0 obs Scenario.cam1_live in
  run = (Ok (StillRunning (mkLoop (Some 2%Q) 1 0 0)), snd run) /\
  (max_reconnect_attempts <? 1) = false.
Proof.
  intros obs run.
  assert (Hrun : run = (Ok (StillRunning (mkLoop (Some 2%Q) 1 0 0)), snd run))
    by (vm_compute; reflexivity).
  split; [exact Hrun|].
  exact (proj2 (capture_loop_counts_at_most_one "cam1" true 0 0 obs Scenario.cam1_live
                  (snd run) (mkLoop (Some 2%Q) 1 0 0) Hrun)).
Defined.

End CaptureMore.

(** ** More on the detection service *)

Module DetectMore.
Import ObjectDetect DetectProofs.

(** *** The detector at the edge of its ranges *)

Lemma detect_objects_on_none (d : Draws) (st : State) :
  entity_types st <> ∅ ->
  _detect_objects None d st = (Raise AttributeError, st).
Proof.
  intros Hty.
  destruct (choice_elem (map_to_list (entity_types st)).*1 (pick_entity d) st
              (keys_nonempty _ Hty)) as (k & Hk & _).
  unfold _detect_objects, bind, gets, shape, raise. rewrite Hk. reflexivity.
Qed.

(** X12: With an entity type loaded, the placeholder detector returns only on
    frames wider and higher than 50 pixels: on a frame that is not wider,
    or not higher, than 50 it raises ValueError (a draw from an empty
    range), and on an image that did not decode it raises AttributeError.
    The state is as before in each case. *)
Theorem detector_refuses_small_frames (f : Frame) (d : Draws) (st : State) :
  entity_types st <> ∅ ->
  (frame_width f <= 50 \/ frame_height f <= 50 ->
     _detect_objects (Some f) d st = (Raise ValueError, st)) /\
  _detect_objects None d st = (Raise AttributeError, st).
Proof.
  intros Hty.
  destruct (choice_elem (map_to_list (entity_types st)).*1 (pick_entity d) st
              (keys_nonempty _ Hty)) as (k & Hk & _).
  split.
  - intros Hsmall. unfold _detect_objects, bind, gets, shape, ret. rewrite Hk.
    destruct (Z_le_gt_dec (frame_width f) 50) as [Hw|Hw].
    + rewrite randint_empty by lia. reflexivity.
    + destruct (randint_range 0 (frame_width f - 50) (draw_x d) st) as (vx & -> & _); [lia|].
      rewrite randint_empty by lia. reflexivity.
  - apply detect_objects_on_none, Hty.
Qed.

Lemma detector_refuses_small_frames_witness :
  entity_types Scenario.detect_idle <> ∅ /\
  _detect_objects (Some (mkFrame 480 50)) Scenario.draws Scenario.detect_idle
    = (Raise ValueError, Scenario.detect_idle).
Proof.
  assert (Hty : entity_types Scenario.detect_idle <> ∅).
  { intros Hempty. apply (f_equal (fun m => m !! "person")) in Hempty.
    vm_compute in Hempty. discriminate. }
  split; [exact Hty|].
  apply (proj1 (detector_refuses_small_frames (mkFrame 480 50) Scenario.draws
                  Scenario.detect_idle Hty)).
  left. simpl. lia.
Defined.

(** *** Blobs that are empty or do not decode *)


(** X14: Bytes under the key of the stream that are not empty and do not decode
    end the pass with AttributeError, with an entity type loaded: a key
    frame was recorded for them before the detector looked at the image,
    and the pass does not come to its sleep. *)
Theorem undecodable_blob_pass_raises (u : string) (now : Q) (d : Draws) (st : State)
    (b : Byte.byte) (bs : list Byte.byte) :
  redis st !! image_key u = Some (Bytes (b :: bs)) ->
  entity_types st <> ∅ ->
  let pass := detect_iteration u now d st in
  fst pass = Raise AttributeError /\
  db_key_frames (snd pass)
    = (db_key_frames st ++ [mkKeyFrame (S (length (db_key_frames st))) now 0])%list /\
  log (snd pass) = (log st ++ [RedisGet (image_key u)])%list.
Proof.
  intros Hblob Hty pass. unfold pass.
  unfold detect_iteration, _process_frame, emit. unfold_py. simpl.
  rewrite Hblob. simpl.
  match goal with
  | |- context [_detect_objects None d ?s0] =>
      assert (Hs0 : entity_types s0 <> ∅) by exact Hty;
      rewrite (detect_objects_on_none d s0 Hs0)
  end.
  simpl. repeat split.
Qed.


Lemma undecodable_blob_pass_raises_witness :
  let st := Scenario.detect_with (Bytes [Byte.x00]) in
  redis st !! image_key "cam1" = Some (Bytes [Byte.x00]) /\
  entity_types st <> ∅ /\
  fst (detect_iteration "cam1" 10 Scenario.draws st) = Raise AttributeError.
Proof.
  intros st.
  assert (Hblob : redis st !! image_key "cam1" = Some (Bytes [Byte.x00]))
    by (vm_compute; reflexivity).
  assert (Hty : entity_types st <> ∅).
  { intros Hempty. apply (f_equal (fun m => m !! "person")) in Hempty.
    vm_compute in Hempty. discriminate. }
  split; [exact Hblob|]. split; [exact Hty|].
  exact (proj1 (undecodable_blob_pass_raises "cam1" 10 Scenario.draws st _ _ Hblob Hty)).
Defined.

(** *** Starting and stopping one detection loop *)

Ltac keep_running :=
  repeat first [ preserve_step
               | apply preserves_modify; intros ?; reflexivity ].

Lemma detect_iteration_running (u : string) (now : Q) (d : Draws) :
  preserves running (detect_iteration u now d).
Proof.
  unfold detect_iteration, sleep, emit, _process_frame.
  assert (Hfor : forall k objs, preserves running (for_detected k objs)).
  { intros k objs. induction objs as [|obj rest IH]; simpl.
    - preserve.
    - unfold entity_get_or_create. preserve. }
  pose proof (fun f d' => detect_objects_pure running f d') as Hdetect.
  preserve.
Qed.

Lemma detect_loop_running (u : string) (obs : list (Q * Draws)) :
  preserves running (_detect_loop u obs).
Proof.
  induction obs as [|[now d] obs IH]; simpl.
  - preserve.
  - pose proof (detect_iteration_running u now d). preserve.
Qed.

(** X15: A detection loop that ends by raising leaves the run flag of its
    stream set: the stream still counts as running, and a start call
    for it is refused until the stream is stopped. *)
Theorem crashed_loop_blocks_restart (u : string) (obs : list (Q * Draws)) (st st' : State)
    (e : exn) :
  running st !! u = Some true ->
  _detect_loop u obs st = (Raise e, st') ->
  running st' !! u = Some true /\
  start_detection u st' = (Ok (false, "Detection already running"), st').
Proof.
  intros Hrun Hloop.
  pose proof (detect_loop_running u obs st) as Hkeep.
  rewrite Hloop in Hkeep. simpl in Hkeep.
  assert (Hrun' : running st' !! u = Some true) by (rewrite Hkeep; exact Hrun).
  split; [exact Hrun'|].
  unfold start_detection. unfold_py. rewrite Hrun'. reflexivity.
Qed.

Lemma crashed_loop_blocks_restart_witness :
  let obs := [(10%Q, Scenario.draws)] in
  let run := _detect_loop "cam1" obs Scenario.detect_no_types in
  running Scenario.detect_no_types !! "cam1" = Some true /\
  run = (Raise ValueError, snd run) /\
  start_detection "cam1" (snd run) = (Ok (false, "Detection already running"), snd run).
Proof.
  intros obs run.
  assert (Hrun : running Scenario.detect_no_types !! "cam1" = Some true)
    by (vm_compute; reflexivity).
  assert (Hloop : run = (Raise ValueError, snd run)) by (vm_compute; reflexivity).
  split; [exact Hrun|]. split; [exact Hloop|].
  exact (proj2 (crashed_loop_blocks_restart "cam1" obs Scenario.detect_no_types (snd run)
                  ValueError Hrun Hloop)).
Defined.

(** A start call on an executor that takes work: what it returns and what
    it leaves. *)
Lemma start_detection_spec (u : string) (s : State) :
  executor_shutdown s = false ->
  fst (start_detection u s) = Ok (negb (default false (running s !! u))
                                  && bool_decide (is_Some (configs s !! u)),
                                  if default false (running s !! u)
                                  then "Detection already running"
                                  else if bool_decide (is_Some (configs s !! u))
                                       then "Detection started successfully"
                                       else "No configuration found") /\
  configs (snd (start_detection u s)) = configs s /\
  executor_shutdown (snd (start_detection u s)) = false /\
  running (snd (start_detection u s))
    = (if bool_decide (is_Some (configs s !! u)) then <[u := true]> (running s)
       else running s).
Proof.
  intros Hopen.
  unfold start_detection, submit, emit. unfold_py.
  destruct (running s !! u) as [[|]|] eqn:Hrun; simpl;
    destruct (configs s !! u) as [c|] eqn:Hconfig; simpl; rewrite ?Hopen; simpl;
    repeat split; try reflexivity; try assumption.
  symmetry. apply insert_id. exact Hrun.
Qed.

(** A start call for a stream that has a configuration and is not running:
    the run flag is set, the loop submitted and its future kept. *)
Lemma start_detection_idle (u : string) (s : State) (config : VideoCapConfig) :
  configs s !! u = Some config ->
  default false (running s !! u) = false ->
  executor_shutdown s = false ->
  start_detection u s =
    (Ok (true, "Detection started successfully"),
     set_detect_threads (<[u := size (detect_threads s)]>)
       (set_log (fun l => (l ++ [Submit u])%list) (set_running (<[u := true]>) s))).
Proof.
  intros Hconfig Hidle Hopen.
  unfold start_detection, submit, emit. unfold_py.
  rewrite Hidle, Hconfig. simpl. rewrite Hopen. reflexivity.
Qed.

(** X16: Start and stop of one detection loop, in turn, on an executor that
    was not shut down: for a stream that has a configuration and is not
    running, the start call succeeds and submits one loop, a second start
    call is refused, the stop call succeeds, and afterwards the stream is
    not running, its thread is forgotten, a second stop call is refused,
    and a loop that tests the flag leaves at once without touching
    anything. *)
Theorem start_then_stop_detection (u : string) (obs : list (Q * Draws)) (st : State)
    (config : VideoCapConfig) :
  configs st !! u = Some config ->
  default false (running st !! u) = false ->
  executor_shutdown st = false ->
  exists st1 st2,
    start_detection u st = (Ok (true, "Detection started successfully"), st1) /\
    log st1 = (log st ++ [Submit u])%list /\
    start_detection u st1 = (Ok (false, "Detection already running"), st1) /\
    stop_detection u st1 = (Ok (true, "Detection stopped successfully"), st2) /\
    running st2 !! u = Some false /\
    detect_threads st2 !! u = None /\
    configs st2 = configs st /\
    stop_detection u st2 = (Ok (false, "Detection not running"), st2) /\
    _detect_loop u obs st2 = (Ok true, st2).
Proof.
  intros Hconfig Hidle Hopen.
  set (st1 := set_detect_threads (<[u := size (detect_threads st)]>)
                (set_log (fun l => (l ++ [Submit u])%list)
                         (set_running (<[u := true]>) st))).
  set (st2 := set_detect_threads (delete u) (set_running (<[u := false]>) st1)).
  assert (Hbusy1 : default false (running st1 !! u) = true)
    by (simpl; rewrite lookup_insert_eq; reflexivity).
  assert (Hidle2 : running st2 !! u = Some false)
    by (simpl; rewrite lookup_insert_eq; reflexivity).
  exists st1, st2. repeat split.
  - apply (start_detection_idle u st config); assumption.
  - unfold start_detection. unfold_py. rewrite Hbusy1. reflexivity.
  - unfold stop_detection. unfold_py. rewrite Hbusy1. reflexivity.
  - exact Hidle2.
  - simpl. apply lookup_delete_eq.
  - unfold stop_detection. unfold_py. rewrite Hidle2. reflexivity.
  - destruct obs as [|[now d] obs]; simpl; unfold bind, subscript;
      rewrite Hidle2; reflexivity.
Qed.

Lemma start_then_stop_detection_witness :
  configs Scenario.detect_stopped !! "cam1" = Some Scenario.cam1_config /\
  executor_shutdown Scenario.detect_stopped = false /\
  exists st1 st2,
    start_detection "cam1" Scenario.detect_stopped
      = (Ok (true, "Detection started successfully"), st1) /\
    stop_detection "cam1" st1 = (Ok (true, "Detection stopped successfully"), st2) /\
    _detect_loop "cam1" [(10%Q, Scenario.draws)] st2 = (Ok true, st2).
Proof.
  assert (Hconfig : configs Scenario.detect_stopped !! "cam1" = Some Scenario.cam1_config)
    by (vm_compute; reflexivity).
  assert (Hidle : default false (running Scenario.detect_stopped !! "cam1") = false)
    by (vm_compute; reflexivity).
  assert (Hopen : executor_shutdown Scenario.detect_stopped = false) by reflexivity.
  split; [exact Hconfig|]. split; [exact Hopen|].
  destruct (start_then_stop_detection "cam1" [(10%Q, Scenario.draws)]
              Scenario.detect_stopped _ Hconfig Hidle Hopen)
    as (st1 & st2 & Hstart & _ & _ & Hstop & _ & _ & _ & _ & Hloop).
  exists st1, st2. split; [exact Hstart|]. split; [exact Hstop|exact Hloop].
Defined.

(** *** The calls on all streams *)

Lemma for_each_start (keys : list string) (s : State) :
  executor_shutdown s = false ->
  (forall v, In v keys -> is_Some (configs s !! v)) ->
  let run := for_each keys (fun u => start_detection u >> ret tt) s in
  fst run = Ok tt /\
  configs (snd run) = configs s /\
  (forall u, running (snd run) !! u
             = if in_dec String.string_dec u keys then Some true else running s !! u).
Proof.
  revert s. induction keys as [|v rest IH]; intros s Hopen Hkeys; cbn [for_each].
  - repeat split.
  - destruct (start_detection_spec v s Hopen) as (Hret & Hconfigs & Hopen1 & Hrunning).
    assert (Hv : bool_decide (is_Some (configs s !! v)) = true)
      by (apply bool_decide_eq_true, Hkeys; left; reflexivity).
    rewrite Hv in Hrunning.
    destruct (start_detection v s) as [[r|e] s1] eqn:Hstart;
      simpl in Hret, Hconfigs, Hopen1, Hrunning; [|discriminate].
    assert (Hstep : (start_detection v >> ret tt
                     >> for_each rest (fun u => start_detection u >> ret tt)) s
                    = for_each rest (fun u => start_detection u >> ret tt) s1).
    { unfold bind at 1 2. rewrite Hstart. reflexivity. }
    cbv zeta. rewrite Hstep.
    destruct (IH s1 Hopen1) as (Hok & Hconfigs' & Hrunning').
    { intros w Hw. rewrite Hconfigs. apply Hkeys. right. exact Hw. }
    split; [exact Hok|]. split; [congruence|].
    intros u. rewrite Hrunning', Hrunning.
    destruct (in_dec String.string_dec u (v :: rest)) as [[->|Hin]|Hout];
      destruct (in_dec String.string_dec u rest) as [Hin'|Hout']; try reflexivity.
    + apply lookup_insert_eq.
    + contradiction.
    + exfalso. apply Hout. right. exact Hin'.
    + apply lookup_insert_ne. intros ->. apply Hout. left. reflexivity.
Qed.

Lemma keys_of_map {V} (m : gmap string V) (u : string) :
  In u (map_to_list m).*1 <-> is_Some (m !! u).
Proof.
  rewrite <- list_elem_of_In, list_elem_of_fmap. split.
  - intros ([k x] & -> & Hin). apply elem_of_map_to_list in Hin. simpl. eauto.
  - intros [x Hx]. exists (u, x). split; [reflexivity|].
    apply elem_of_map_to_list. exact Hx.
Qed.

(** X17: On an executor that was not shut down, [start_service] returns, and
    afterwards every stream that has a configuration is running, whether
    it was before or not; the streams without a configuration and the
    configurations are as before. *)
Theorem start_service_starts_every_config (st : State) :
  executor_shutdown st = false ->
  let st' := snd (start_service st) in
  fst (start_service st) = Ok tt /\
  (forall u, is_Some (configs st !! u) -> running st' !! u = Some true) /\
  (forall u, configs st !! u = None -> running st' !! u = running st !! u) /\
  configs st' = configs st.
Proof.
  intros Hopen st'. unfold st', start_service. unfold bind at 1 2. unfold gets at 1 2.
  destruct (for_each_start (map_to_list (configs st)).*1 st Hopen)
    as (Hok & Hconfigs & Hrunning).
  { intros v Hv. apply keys_of_map, Hv. }
  split; [exact Hok|]. split; [|split; [|exact Hconfigs]].
  - intros u Hu. rewrite Hrunning.
    destruct (in_dec String.string_dec u (map_to_list (configs st)).*1) as [_|Hout];
      [reflexivity|]. exfalso. apply Hout, keys_of_map, Hu.
  - intros u Hu. rewrite Hrunning.
    destruct (in_dec String.string_dec u (map_to_list (configs st)).*1) as [Hin|_];
      [|reflexivity]. apply keys_of_map in Hin as [c Hc]. congruence.
Qed.

Lemma start_service_starts_every_config_witness :
  executor_shutdown Scenario.detect_stopped = false /\
  fst (start_service Scenario.detect_stopped) = Ok tt /\
  running (snd (start_service Scenario.detect_stopped)) !! "cam1" = Some true.
Proof.
  assert (Hopen : executor_shutdown Scenario.detect_stopped = false) by reflexivity.
  destruct (start_service_starts_every_config Scenario.detect_stopped Hopen)
    as (Hok & Hall & _).
  split; [exact Hopen|]. split; [exact Hok|].
  apply Hall. vm_compute. eauto.
Defined.

Lemma for_each_stop (keys : list string) (s : State) :
  (forall v, In v keys -> is_Some (running s !! v)) ->
  let run := for_each keys (fun u =>
               let* flag := subscript running u in
               if flag : bool then stop_detection u >> ret tt else ret tt) s in
  fst run = Ok tt /\
  configs (snd run) = configs s /\
  log (snd run) = log s /\
  (forall u, default false (running (snd run) !! u)
             = if in_dec String.string_dec u keys then false
               else default false (running s !! u)).
Proof.
  revert s. induction keys as [|v rest IH]; intros s Hkeys; cbn [for_each].
  - repeat split.
  - destruct (Hkeys v (or_introl eq_refl)) as [flag Hflag].
    assert (Hstep : exists s1,
              (let* flag := subscript running v in
               if flag : bool then stop_detection v >> ret tt else ret tt) s = (Ok tt, s1) /\
              configs s1 = configs s /\ log s1 = log s /\
              running s1 = (if flag then <[v := false]> (running s) else running s)).
    { unfold stop_detection. unfold_py. rewrite Hflag.
      destruct flag; simpl; [rewrite Hflag; simpl|]; eexists; repeat split. }
    destruct Hstep as (s1 & Hstep & Hconfigs & Hlog & Hrunning).
    match goal with
    | |- context [bind ?m ?k s] =>
        assert (Hnext : bind m k s = k tt s1) by (unfold bind at 1; rewrite Hstep; reflexivity)
    end.
    cbv zeta. rewrite Hnext.
    destruct (IH s1) as (Hok & Hconfigs' & Hlog' & Hrunning').
    { intros w Hw. rewrite Hrunning. destruct flag; [|apply Hkeys; right; exact Hw].
      destruct (String.string_dec v w) as [->|Hne].
      - rewrite lookup_insert_eq. eauto.
      - rewrite lookup_insert_ne by exact Hne. apply Hkeys. right. exact Hw. }
    split; [exact Hok|]. split; [congruence|]. split; [congruence|].
    intros u. rewrite Hrunning', Hrunning.
    destruct (in_dec String.string_dec u (v :: rest)) as [[->|Hin]|Hout];
      destruct (in_dec String.string_dec u rest) as [Hin'|Hout']; try reflexivity.
    + destruct flag; [rewrite lookup_insert_eq|rewrite Hflag]; reflexivity.
    + contradiction.
    + exfalso. apply Hout. right. exact Hin'.
    + destruct flag; [|reflexivity].
      rewrite lookup_insert_ne; [reflexivity|].
      intros ->. apply Hout. left. reflexivity.
Qed.

(** What [stop_service] returns and leaves: no stream running, the
    configurations and the log as before, the executor shut down. *)
Lemma stop_service_spec (st : State) :
  exists st',
    stop_service st = (Ok tt, st') /\
    (forall u, default false (running st' !! u) = false) /\
    configs st' = configs st /\
    log st' = log st /\
    executor_shutdown st' = true.
Proof.
  unfold stop_service. unfold bind at 1 2. unfold gets at 1.
  destruct (for_each_stop (map_to_list (running st)).*1 st)
    as (Hok & Hconfigs & Hlog & Hrunning).
  { intros v Hv. apply keys_of_map, Hv. }
  match goal with
  | |- context [for_each ?k ?f st] => destruct (for_each k f st) as [[[]|e] s1]
  end; simpl in Hok, Hconfigs, Hlog, Hrunning; [|discriminate].
  eexists. split; [reflexivity|]. simpl.
  split; [|repeat split; assumption].
  intros u. rewrite Hrunning.
  destruct (in_dec String.string_dec u (map_to_list (running st)).*1) as [_|Hout];
    [reflexivity|].
  destruct (running st !! u) as [b|] eqn:Hu; [|reflexivity].
  exfalso. apply Hout, keys_of_map. eauto.
Qed.

(** X18: [stop_service] returns without a KeyError, and afterwards no stream is
    running; the configurations are as before. *)
Theorem stop_service_stops_every_loop (st : State) :
  let st' := snd (stop_service st) in
  fst (stop_service st) = Ok tt /\
  (forall u, default false (running st' !! u) = false) /\
  configs st' = configs st.
Proof.
  intros st'. unfold st'.
  destruct (stop_service_spec st) as (s1 & -> & Hrunning & Hconfigs & _).
  split; [reflexivity|]. split; [exact Hrunning|exact Hconfigs].
Qed.

(** X19: On an executor that was not shut down, [update_config] for a stream
    that is running puts the new row in place of the configuration, stops
    and starts the detection, and returns with the run flag set again, a
    future registered and one more loop submitted. *)
Theorem update_config_restarts (u : string) (row old : VideoCapConfig) (st : State) :
  configs st !! u = Some old ->
  running st !! u = Some true ->
  executor_shutdown st = false ->
  let st' := snd (update_config u row st) in
  fst (update_config u row st) = Ok tt /\
  configs st' !! u = Some row /\
  running st' !! u = Some true /\
  is_Some (detect_threads st' !! u) /\
  log st' = (log st ++ [Submit u])%list.
Proof.
  intros Hold Hrun Hopen st'.
  assert (Hknown : bool_decide (is_Some (configs st !! u)) = true)
    by (apply bool_decide_eq_true; eauto).
  set (s1 := set_configs (<[u := row]>) st).
  set (s2 := set_detect_threads (delete u) (set_running (<[u := false]>) s1)).
  assert (Hstop : stop_detection u s1 = (Ok (true, "Detection stopped successfully"), s2)).
  { unfold stop_detection. unfold_py.
    change (running s1) with (running st). rewrite Hrun. reflexivity. }
  assert (Hstart : exists s3,
            start_detection u s2 = (Ok (true, "Detection started successfully"), s3) /\
            configs s3 !! u = Some row /\ running s3 !! u = Some true /\
            is_Some (detect_threads s3 !! u) /\ log s3 = (log st ++ [Submit u])%list).
  { eexists. split.
    - apply (start_detection_idle u s2 row).
      + simpl. apply lookup_insert_eq.
      + simpl. rewrite lookup_insert_eq. reflexivity.
      + exact Hopen.
    - simpl. rewrite !lookup_insert_eq. repeat split. eauto. }
  destruct Hstart as (s3 & Hstart & Hrest).
  assert (Hcall : update_config u row st = (Ok tt, s3)).
  { unfold update_config. unfold bind at 1. unfold gets at 1. rewrite Hknown.
    unfold bind at 1 2. unfold modify at 1. fold s1.
    unfold subscript. change (running s1) with (running st). rewrite Hrun.
    unfold bind. rewrite Hstop, Hstart. reflexivity. }
  unfold st'. rewrite Hcall. split; [reflexivity|exact Hrest].
Qed.

Lemma update_config_restarts_witness :
  configs Scenario.detect_idle !! "cam1" = Some Scenario.cam1_config /\
  running Scenario.detect_idle !! "cam1" = Some true /\
  executor_shutdown Scenario.detect_idle = false /\
  running (snd (update_config "cam1" (mkConfig 1 "Config_1" "cam1" true 2)
                              Scenario.detect_idle)) !! "cam1" = Some true.
Proof.
  assert (Hold : configs Scenario.detect_idle !! "cam1" = Some Scenario.cam1_config)
    by (vm_compute; reflexivity).
  assert (Hrun : running Scenario.detect_idle !! "cam1" = Some true)
    by (vm_compute; reflexivity).
  assert (Hopen : executor_shutdown Scenario.detect_idle = false) by reflexivity.
  split; [exact Hold|]. split; [exact Hrun|]. split; [exact Hopen|].
  destruct (update_config_restarts "cam1" (mkConfig 1 "Config_1" "cam1" true 2) _
              Scenario.detect_idle Hold Hrun Hopen) as (_ & _ & Hflag & _).
  exact Hflag.
Defined.

(** *** After the executor was shut down *)

(** X23: Once [stop_service] has run, the executor takes no more work: a start
    call for a stream that has a configuration sets the run flag and then
    raises RuntimeError at the submit.  No loop is submitted and no future
    kept, yet the stream counts as running: the next start call for it
    is refused as already running.  [start_service] raises the same error
    when the service has a configuration at all. *)
Theorem start_after_stop_service_raises (u : string) (st : State) (config : VideoCapConfig) :
  configs st !! u = Some config ->
  let stopped := snd (stop_service st) in
  exists st',
    start_detection u stopped = (Raise RuntimeError, st') /\
    running st' !! u = Some true /\
    detect_threads st' = detect_threads stopped /\
    log st' = log st /\
    start_detection u st' = (Ok (false, "Detection already running"), st') /\
    fst (start_service stopped) = Raise RuntimeError.
Proof.
  intros Hconfig stopped. unfold stopped.
  destruct (stop_service_spec st) as (s1 & -> & Hidle & Hconfigs & Hlog & Hshut).
  simpl.
  assert (Hraise : forall v, is_Some (configs s1 !! v) ->
            start_detection v s1 = (Raise RuntimeError, set_running (<[v := true]>) s1)).
  { intros v [c Hc]. unfold start_detection, submit. unfold_py.
    rewrite Hidle, Hc. simpl. rewrite Hshut. reflexivity. }
  exists (set_running (<[u := true]>) s1).
  split; [apply Hraise; rewrite Hconfigs; eauto|].
  split; [simpl; apply lookup_insert_eq|].
  split; [reflexivity|]. split; [exact Hlog|]. split.
  - unfold start_detection. unfold_py. simpl. rewrite lookup_insert_eq. reflexivity.
  - unfold start_service. unfold bind at 1. unfold gets at 1.
    destruct ((map_to_list (configs s1)).*1) as [|v rest] eqn:Hkeys.
    + exfalso. assert (Hin : In u (map_to_list (configs s1)).*1)
        by (apply keys_of_map; rewrite Hconfigs; eauto).
      rewrite Hkeys in Hin. exact Hin.
    + cbn [for_each]. unfold bind at 1 2.
      rewrite Hraise; [reflexivity|].
      apply keys_of_map. rewrite Hkeys. left. reflexivity.
Qed.

Lemma start_after_stop_service_raises_witness :
  configs Scenario.detect_idle !! "cam1" = Some Scenario.cam1_config /\
  fst (start_detection "cam1" (snd (stop_service Scenario.detect_idle)))
    = Raise RuntimeError /\
  fst (start_service (snd (stop_service Scenario.detect_idle))) = Raise RuntimeError.
Proof.
  assert (Hconfig : configs Scenario.detect_idle !! "cam1" = Some Scenario.cam1_config)
    by (vm_compute; reflexivity).
  destruct (start_after_stop_service_raises "cam1" Scenario.detect_idle _ Hconfig)
    as (st' & Hstart & _ & _ & _ & _ & Hservice).
  split; [exact Hconfig|]. split; [rewrite Hstart; reflexivity|exact Hservice].
Defined.

(** *** Construction *)

Lemma assign_types_unset (rows : list EntityType) (s : State) :
  rows <> [] -> assign_types false rows s = (Raise AttributeError, s).
Proof. destruct rows as [|e rest]; [congruence|]. reflexivity. Qed.

Lemma create_types_spec (entries : list EntityType) (s : State) :
  let run := create_types entries s in
  fst run = Ok tt /\
  db_entity_types (snd run) = (db_entity_types s ++ entries)%list /\
  configs (snd run) = configs s /\
  running (snd run) = running s /\
  (forall e, In e entries -> is_Some (entity_types (snd run) !! code e)) /\
  (forall k, is_Some (entity_types s !! k) -> is_Some (entity_types (snd run) !! k)).
Proof.
  revert s. induction entries as [|e rest IH]; intros s; cbn [create_types].
  - cbv zeta. simpl. rewrite app_nil_r. repeat split; [intros e []|auto].
  - set (s1 := set_entity_types (<[code e := e]>)
                 (set_db_entity_types (fun l => (l ++ [e])%list) s)).
    assert (Hstep : (modify (set_db_entity_types (fun l => (l ++ [e])%list))
                     >> assign_type true e >> create_types rest) s
                    = create_types rest s1) by reflexivity.
    cbv zeta. rewrite Hstep.
    destruct (IH s1) as (Hok & Hdb & Hconfigs & Hrunning & Hnew & Hold).
    split; [exact Hok|]. split; [rewrite Hdb; simpl; rewrite <- app_assoc; reflexivity|].
    split; [exact Hconfigs|]. split; [exact Hrunning|]. split.
    + intros e' [<-|Hin]; [|apply Hnew, Hin].
      apply Hold. simpl. rewrite lookup_insert_eq. eauto.
    + intros k Hk. apply Hold. simpl.
      destruct (String.string_dec (code e) k) as [->|Hne].
      * rewrite lookup_insert_eq. eauto.
      * rewrite lookup_insert_ne by exact Hne. exact Hk.
Qed.

(** X20: A service built while the table of entity types already has rows ends
    up with no entity type at all: the first row is assigned to an
    attribute that was never created, the handler of the error puts an
    empty dictionary in place, and the table is left as it was.  On such
    a service the detector raises ValueError on every image. *)
Theorem init_over_existing_types_loads_none (table : gmap string VideoCapConfig)
    (yaml : list EntityType) (world : State) :
  db_entity_types world <> [] ->
  let st := init table yaml world in
  entity_types st = ∅ /\
  db_entity_types st = db_entity_types world /\
  forall frame d, _detect_objects frame d st = (Raise ValueError, st).
Proof.
  intros Hrows st.
  assert (Hst : entity_types st = ∅ /\ db_entity_types st = db_entity_types world).
  { unfold st, init, _load_configs, _load_entity_types, try_except. unfold_py. simpl.
    destruct (db_entity_types world) as [|e rest] eqn:Hdb; [congruence|].
    simpl. split; reflexivity. }
  destruct Hst as [Hnone Hdb]. split; [exact Hnone|]. split; [exact Hdb|].
  intros frame d. unfold _detect_objects, bind, gets.
  rewrite Hnone, map_to_list_empty. reflexivity.
Qed.

Lemma init_over_existing_types_loads_none_witness :
  db_entity_types Scenario.typed_world <> [] /\
  entity_types (init Scenario.two_rows [Scenario.person] Scenario.typed_world) = ∅.
Proof.
  assert (Hrows : db_entity_types Scenario.typed_world <> []) by discriminate.
  split; [exact Hrows|].
  exact (proj1 (init_over_existing_types_loads_none Scenario.two_rows [Scenario.person]
                  Scenario.typed_world Hrows)).
Defined.

(** X21: A service built while the table of entity types is empty, over a table
    of configurations in which each row is filed under its own address:
    the rows of the file of initial types are created, in their order,
    and each of their codes is loaded; the service knows exactly the
    streams whose configuration is active, none of them running. *)
Theorem init_over_empty_table_loads_file (table : gmap string VideoCapConfig)
    (yaml : list EntityType) (world : State) :
  db_entity_types world = [] ->
  well_keyed table ->
  let st := init table yaml world in
  db_entity_types st = yaml /\
  (forall e, In e yaml -> is_Some (entity_types st !! code e)) /\
  (forall u, configs st !! u
             = match table !! u with
               | Some c => if is_active c then Some c else None
               | None => None
               end) /\
  (forall u, default false (running st !! u) = false).
Proof.
  intros Hdb Hkeyed st.
  destruct (CaptureMore.loaded_dicts_spec table Hkeyed) as [Hconfigs Hrunning].
  unfold st, init, _load_configs, _load_entity_types, try_except. unfold_py. simpl.
  rewrite Hdb.
  match goal with
  | |- context [create_types yaml ?s0] =>
      destruct (create_types_spec yaml s0) as (Hok & Hrows & Hc & Hr & Hnew & _);
      destruct (create_types yaml s0) as [[[]|e] s1]; simpl in *; [|discriminate]
  end.
  split; [exact Hrows|]. split; [exact Hnew|].
  rewrite Hc, Hr. split; [exact Hconfigs|exact Hrunning].
Qed.

Lemma init_over_empty_table_loads_file_witness :
  db_entity_types Scenario.detect_stopped = [] /\
  well_keyed Scenario.two_rows /\
  db_entity_types (init Scenario.two_rows [Scenario.person] Scenario.detect_stopped)
    = [Scenario.person].
Proof.
  assert (Hdb : db_entity_types Scenario.detect_stopped = []) by reflexivity.
  assert (Hkeyed : well_keyed Scenario.two_rows) by exact CaptureMore.two_rows_well_keyed.
  split; [exact Hdb|]. split; [exact Hkeyed|].
  exact (proj1 (init_over_empty_table_loads_file Scenario.two_rows [Scenario.person]
                  Scenario.detect_stopped Hdb Hkeyed)).
Defined.

End DetectMore.

(** ** The end of a capture service *)

Module CaptureTeardown.
Import VideoCap CaptureProofs.

(** A computation that leaves every stream alone leaves the four
    dictionaries of the service as they are. *)
Lemma leaves_streams_dicts (m : M State unit) (s : State) :
  leaves_streams m ->
  configs (snd (m s)) = configs s /\ caps (snd (m s)) = caps s /\
  running (snd (m s)) = running s /\ capture_threads (snd (m s)) = capture_threads s.
Proof.
  intros Hm.
  assert (Hview : forall v, stream_view v (snd (m s)) = stream_view v s)
    by (intros v; apply Hm).
  unfold stream_view in Hview.
  repeat split; apply map_eq; intros v; specialize (Hview v); congruence.
Qed.

(** The join of a stop call then returns with nothing changed but the run
    flag the call has cleared. *)
Lemma after_join_quiet (remainder : M State unit) (u : string) (s : State) :
  leaves_streams remainder ->
  configs (after_join remainder u s) = configs s /\
  caps (after_join remainder u s) = caps s /\
  running (after_join remainder u s) = <[u := false]> (running s) /\
  capture_threads (after_join remainder u s) = capture_threads s.
Proof.
  intros Hquiet. unfold after_join.
  destruct (bool_decide (is_Some (capture_threads s !! u))); [|repeat split].
  rewrite CaptureMore.join_spec. simpl.
  destruct (leaves_streams_dicts remainder (set_running (<[u := false]>) s) Hquiet)
    as (Hconfigs & Hcaps & Hrunning & Hthreads).
  rewrite Hconfigs, Hcaps, Hrunning, Hthreads. repeat split.
Qed.

(** What a stop call does to each table, for a running stream whose capture
    is held and whose thread leaves the streams alone during the join. *)
Lemma stop_server_tables (remainder : M State unit) (u : string) (s : State)
    (config : VideoCapConfig) (c : Cap) :
  leaves_streams remainder ->
  running s !! u = Some true ->
  caps s !! u = Some (Some c) ->
  configs s !! u = Some config ->
  exists s',
    stop_server_joining remainder u s = (Ok (true, "Server stopped successfully"), s') /\
    running s' = <[u := false]> (running s) /\
    caps s' = delete u (caps s) /\
    configs s' = <[u := with_active false config]> (configs s).
Proof.
  intros Hquiet Hrun Hcap Hconfig.
  destruct (after_join_quiet remainder u s Hquiet) as (Hconfigs & Hcaps & Hrunning & Hthreads).
  destruct (CaptureMore.stop_after_join remainder u s config c)
    as (s' & Hstop & Hrun' & Hcaps' & Hconfigs' & _).
  - rewrite Hrun. reflexivity.
  - rewrite Hcaps. exact Hcap.
  - rewrite Hconfigs. exact Hconfig.
  - rewrite Hthreads. auto.
  - exists s'. split; [exact Hstop|]. rewrite Hrun', Hcaps', Hconfigs'.
    rewrite Hrunning, Hcaps, Hconfigs. repeat split.
Qed.

Section Teardown.
Variable remainders : string -> M State unit.
Hypothesis remainders_quiet : forall u, leaves_streams (remainders u).

Lemma stop_if_running_step (v : string) (s : State) :
  ready_to_stop s ->
  is_Some (running s !! v) ->
  exists s', stop_if_running remainders v s = (Ok tt, s') /\ stop_step [v] s s'.
Proof.
  intros Hready [flag Hflag]. unfold stop_if_running.
  destruct flag.
  - destruct (Hready v Hflag) as [[c Hcap] [config Hconfig]].
    destruct (stop_server_tables (remainders v) v s config c (remainders_quiet v)
                Hflag Hcap Hconfig)
      as (s' & Hstop & Hrun & Hcaps & Hconfigs).
    exists s'. split.
    { unfold bind at 1. unfold subscript. rewrite Hflag.
      unfold bind. rewrite Hstop. reflexivity. }
    split; rewrite ?Hrun, ?Hcaps, ?Hconfigs.
    + intros w Hw. rewrite Hrun in Hw. rewrite Hcaps, Hconfigs.
      destruct (String.string_dec v w) as [->|Hne];
        [rewrite lookup_insert_eq in Hw; discriminate|].
      rewrite lookup_insert_ne in Hw by exact Hne.
      rewrite lookup_delete_ne, lookup_insert_ne by exact Hne. apply Hready, Hw.
    + intros w. destruct (String.string_dec v w) as [->|Hne];
        [rewrite lookup_insert_eq, Hflag; split; eauto
        |rewrite lookup_insert_ne by exact Hne; reflexivity].
    + intros w. destruct (in_dec String.string_dec w [v]) as [[->|[]]|Hout].
      * rewrite lookup_insert_eq. reflexivity.
      * rewrite lookup_insert_ne; [reflexivity|]. intros ->. apply Hout. left. reflexivity.
    + intros w Hout. rewrite lookup_insert_ne; [reflexivity|].
      intros ->. apply Hout. left. reflexivity.
    + intros w. destruct (String.string_dec v w) as [->|Hne];
        [rewrite lookup_insert_eq, Hconfig; split; eauto
        |rewrite lookup_insert_ne by exact Hne; reflexivity].
    + intros w _ [->|[]]. apply lookup_delete_eq.
    + intros w Hw. destruct (String.string_dec v w) as [->|Hne];
        [apply lookup_delete_eq|rewrite lookup_delete_ne by exact Hne; exact Hw].
  - exists s. split.
    { unfold bind, subscript. rewrite Hflag. reflexivity. }
    split; try tauto; try reflexivity.
    + intros w. destruct (in_dec String.string_dec w [v]) as [[->|[]]|Hout];
        [rewrite Hflag|]; reflexivity.
    + intros w Hw [->|[]]. congruence.
Qed.

Lemma stop_step_trans (v : string) (rest : list string) (s s1 s2 : State) :
  stop_step [v] s s1 -> stop_step rest s1 s2 -> stop_step (v :: rest) s s2.
Proof.
  intros H1 H2. split.
  - apply H2.
  - intros w. rewrite (step_domain _ _ _ H2). apply H1.
  - intros w. rewrite (step_flags _ _ _ H2), (step_flags _ _ _ H1).
    destruct (in_dec String.string_dec w rest) as [Hin'|Hout'];
      destruct (in_dec String.string_dec w [v]) as [[Hin''|[]]|Hout''];
      destruct (in_dec String.string_dec w (v :: rest)) as [[Heq|Hin]|Hout];
      try reflexivity; exfalso;
      solve [ apply Hout; right; assumption
            | apply Hout; left; assumption
            | apply Hout''; left; assumption
            | contradiction ].
  - intros w Hout. rewrite (step_kept _ _ _ H2), (step_kept _ _ _ H1); [reflexivity| |].
    + intros [->|[]]. apply Hout. left. reflexivity.
    + intros Hin. apply Hout. right. exact Hin.
  - intros w. rewrite (step_configs _ _ _ H2). apply H1.
  - intros w Hw Hin.
    destruct (String.string_dec v w) as [->|Hne].
    + apply (step_absent _ _ _ H2), (step_closed _ _ _ H1 w Hw). left. reflexivity.
    + destruct Hin as [Heq|Hin]; [contradiction|].
      apply (step_closed _ _ _ H2); [|exact Hin].
      rewrite (step_kept _ _ _ H1); [exact Hw|]. intros [Heq|[]]. contradiction.
  - intros w Hw. apply (step_absent _ _ _ H2), (step_absent _ _ _ H1), Hw.
Qed.

(** The first loop of [__del__] over a list of registered streams. *)
Lemma stop_each (keys : list string) (s : State) :
  ready_to_stop s ->
  (forall v, In v keys -> is_Some (running s !! v)) ->
  exists s', for_each keys (stop_if_running remainders) s = (Ok tt, s') /\
             stop_step keys s s'.
Proof.
  revert s. induction keys as [|v rest IH]; intros s Hready Hkeys; cbn [for_each].
  - exists s. split; [reflexivity|].
    split; try tauto; try reflexivity. intros w _ [].
  - destruct (stop_if_running_step v s Hready (Hkeys v (or_introl eq_refl)))
      as (s1 & Hrun1 & Hstep1).
    destruct (IH s1 (step_ready _ _ _ Hstep1)) as (s2 & Hrun2 & Hstep2).
    { intros w Hw. apply (step_domain _ _ _ Hstep1), Hkeys. right. exact Hw. }
    exists s2. split; [|exact (stop_step_trans v rest s s1 s2 Hstep1 Hstep2)].
    unfold bind at 1. rewrite Hrun1. exact Hrun2.
Qed.
End Teardown.

(** The second loop of [__del__]: the blobs of the listed streams go, the
    tables stay. *)
Lemma delete_each (urls : list string) (s : State) :
  exists s',
    for_each urls delete_blob s = (Ok tt, s') /\
    running s' = running s /\ caps s' = caps s /\ configs s' = configs s /\
    (forall u, In u urls -> redis s' !! image_key u = None) /\
    (forall k, redis s !! k = None -> redis s' !! k = None).
Proof.
  revert s. induction urls as [|v rest IH]; intros s; cbn [for_each].
  - exists s. repeat split; auto. intros u [].
  - set (s1 := snd (delete_blob v s)).
    destruct (IH s1) as (s2 & Hrun & Hrunning & Hcaps & Hconfigs & Hgone & Hstay).
    exists s2. split; [exact Hrun|]. repeat split; try assumption.
    + intros u [->|Hin]; [|apply Hgone, Hin].
      apply Hstay. apply lookup_delete_eq.
    + intros k Hk. apply Hstay. unfold s1. simpl.
      destruct (String.string_dec (image_key v) k) as [->|Hne];
        [apply lookup_delete_eq|rewrite lookup_delete_ne by exact Hne; exact Hk].
Qed.

Lemma in_keys `(m : gmap string A) (u : string) :
  In u (map_to_list m).*1 <-> is_Some (m !! u).
Proof.
  rewrite <- list_elem_of_In, list_elem_of_fmap. split.
  - intros [[k a] [-> Hin]]. apply elem_of_map_to_list in Hin. simpl. eauto.
  - intros [a Ha]. exists (u, a). split; [reflexivity|].
    apply elem_of_map_to_list. exact Ha.
Qed.

(** X22: Destroying a service whose running streams all hold a capture and have
    a configuration, when what each capture thread still does before its
    join returns leaves the streams alone, returns normally; afterwards no
    stream is running, the capture of every stream that was running is
    gone from the service, and the store holds no frame for any stream
    that has a configuration. *)
Theorem del_stops_and_clears (remainders : string -> M State unit) (st : State) :
  (forall u, leaves_streams (remainders u)) ->
  ready_to_stop st ->
  exists st',
    __del__ remainders st = (Ok tt, st') /\
    (forall u, check_server_status u st' = false) /\
    (forall u, running st !! u = Some true -> caps st' !! u = None) /\
    (forall u, is_Some (configs st !! u) -> redis st' !! image_key u = None).
Proof.
  intros Hquiet Hready.
  destruct (stop_each remainders Hquiet (map_to_list (running st)).*1 st Hready)
    as (s1 & Hrun1 & Hstep).
  { intros v Hv. apply in_keys, Hv. }
  destruct (delete_each (map_to_list (configs s1)).*1 s1)
    as (s2 & Hrun2 & Hrunning & Hcaps & _ & Hgone & _).
  exists s2. split; [|split; [|split]].
  - unfold __del__, gets. unfold bind at 1. unfold bind at 1.
    rewrite Hrun1. unfold bind at 1. exact Hrun2.
  - intros u. unfold check_server_status. rewrite Hrunning, (step_flags _ _ _ Hstep).
    destruct (in_dec String.string_dec u (map_to_list (running st)).*1) as [Hin|Hout];
      [reflexivity|].
    destruct (running st !! u) eqn:E; [|reflexivity].
    exfalso. apply Hout, in_keys. eauto.
  - intros u Hu. rewrite Hcaps. apply (step_closed _ _ _ Hstep u Hu).
    apply in_keys. eauto.
  - intros u Hu. apply Hgone, in_keys, (step_configs _ _ _ Hstep), Hu.
Qed.

Lemma del_stops_and_clears_witness :
  let remainders := fun u => emit (FfmpegTerminate u) in
  (forall u, leaves_streams (remainders u)) /\
  ready_to_stop Scenario.cam1_live /\
  exists st',
    __del__ remainders Scenario.cam1_live = (Ok tt, st') /\
    check_server_status "cam1" st' = false /\
    caps st' !! "cam1" = None /\
    redis st' !! image_key "cam1" = None.
Proof.
  intros remainders.
  assert (Hquiet : forall u, leaves_streams (remainders u))
    by (intros u v s; reflexivity).
  assert (Hready : ready_to_stop Scenario.cam1_live).
  { intros u Hu.
    destruct (String.string_dec u "cam1") as [->|Hne].
    - split; [exists (mkCap true)|exists (mkConfig 1 "Config_1" "cam1" true 1)];
        vm_compute; reflexivity.
    - exfalso.
      assert (Hmap : running Scenario.cam1_live = <["cam1" := true]> ∅)
        by (vm_compute; reflexivity).
      rewrite Hmap, lookup_insert_ne, lookup_empty in Hu by congruence.
      discriminate. }
  split; [exact Hquiet|]. split; [exact Hready|].
  destruct (del_stops_and_clears remainders Scenario.cam1_live Hquiet Hready)
    as (st' & Hdel & Hidle & Hclosed & Hblob).
  exists st'. split; [exact Hdel|]. split; [exact (Hidle "cam1")|].
  split; [apply Hclosed|apply Hblob]; vm_compute; eauto.
Defined.

End CaptureTeardown.
